(** * Gmail / Calendar backend: shallow embedding and verified properties

    The development follows the layout of the Python sources:
    - [Exception]           src/exception.py
    - [ExceptionHandling]   src/exception_handling.py (conversion utilities)
    - [Codec]               the base64 / UTF-8 decoding used by the parser
    - [Service]             src/extra/service.py (the provider gateway)
    - [Database]            src/database.py (tables, session, constraints)
    - [Routes]              src/routes/auth.py and src/routes/email.py
    - [Samples], [Notions]  concrete data, and the vocabulary of the
                            statements proved in the second part

    Python exceptions are explicit values ([PyExc]); a computation that may
    raise returns a [result].  Handlers that touch the database session or
    the remote provider run in the state-and-exception monad [M]. *)

From Stdlib Require Import List String Ascii ZArith Bool Lia.
From Stdlib Require Import DecimalString.
Import ListNotations.

Open Scope string_scope.
Open Scope Z_scope.

(* ===================================================================== *)
(** ** Python exceptions and fallible results                            *)
(* ===================================================================== *)

(** Decimal rendering of an integer, as an f-string prints it. *)
Definition string_of_Z (z : Z) : string :=
  NilZero.string_of_int (Z.to_int z).

Definition string_of_nat (n : nat) : string :=
  NilZero.string_of_uint (Nat.to_uint n).

(** The exceptions that can reach the code under study.  Library
    exceptions carry the text [str(e)] produces for them. *)
Inductive PyExc : Type :=
| HttpError (resp_status : Z) (text : string)
    (* googleapiclient.errors.HttpError *)
| KeyError (key : string)
    (* a subscript on a dict that lacks the key *)
| DecodeError (text : string)
    (* binascii.Error, ValueError or UnicodeDecodeError from decoding *)
| OtherError (type_name text : string)
    (* any library exception that is not an HttpError: socket timeouts,
       httplib2.ServerNotFoundError, google.auth RefreshError, ... *)
| IntegrityError (text : string)
    (* sqlalchemy.exc.IntegrityError raised by a flush *)
| HTTPException (status_code : Z) (detail : string).
    (* fastapi.HTTPException *)

(** [str(e)]. *)
Definition str (e : PyExc) : string :=
  match e with
  | HttpError _ t => t
  | KeyError k => "'" ++ k ++ "'"
  | DecodeError t => t
  | OtherError _ t => t
  | IntegrityError t => t
  | HTTPException s d => string_of_Z s ++ ": " ++ d
  end.

(** [isinstance(e, HttpError)]. *)
Definition is_HttpError (e : PyExc) : bool :=
  match e with HttpError _ _ => true | _ => false end.

Inductive result (A : Type) : Type :=
| Ok (a : A)
| Raise (e : PyExc).
Arguments Ok {A} a.
Arguments Raise {A} e.

(** Truthiness of a Python [str]. *)
Definition nonempty (s : string) : bool :=
  match s with EmptyString => false | String _ _ => true end.

(** Truthiness of an optional string ([None] and [''] are falsy). *)
Definition truthy (o : option string) : bool :=
  match o with Some s => nonempty s | None => false end.

(** A JSON object whose values are strings, in key order of arrival. *)
Definition Dict := list (string * string).

Fixpoint dict_get (d : Dict) (k : string) : option string :=
  match d with
  | [] => None
  | (k', v) :: d' => if String.eqb k' k then Some v else dict_get d' k
  end.

(** [d[k]]: raises [KeyError] when the key is missing. *)
Definition dict_item (d : Dict) (k : string) : result string :=
  match dict_get d k with
  | Some v => Ok v
  | None => Raise (KeyError k)
  end.

(** [d.get(k, default)]. *)
Definition dict_get_default (d : Dict) (k default : string) : string :=
  match dict_get d k with Some v => v | None => default end.

(* ===================================================================== *)
(** ** src/exception.py                                                  *)
(* ===================================================================== *)

Module Exception.

(** The classes deriving from [BaseAPIException]. *)
Inductive ExcClass : Type :=
| cAuthenticationError | cTokenExpiredError | cInvalidTokenError
| cAuthorizationError
| cUserNotFoundError | cUserAlreadyExistsError
| cEmailNotFoundError | cEmailSendError | cEmailSyncError
| cInvalidEmailFormatError
| cDraftNotFoundError | cDraftCreateError | cDraftUpdateError
| cDraftDeleteError
| cCalendarEventNotFoundError | cCalendarEventCreateError
| cCalendarEventUpdateError | cCalendarEventDeleteError
| cInvalidDateTimeError
| cGmailAPIError | cGmailQuotaExceededError | cGmailServiceBuildError
| cDatabaseError | cDatabaseConnectionError
| cValidationError | cMissingRequiredFieldError | cInvalidFieldValueError
| cRateLimitExceededError
| cExternalServiceError | cExternalServiceTimeoutError
| cConfigurationError | cMissingConfigurationError.

(** The attributes [BaseAPIException.__init__] sets.  [details] only ever
    receives integer values in the code modelled here. *)
Record BaseAPIException : Type := mkBaseAPIException {
  cls : ExcClass;
  message : string;
  status_code : Z;
  error_code : string;
  details : list (string * Z)
}.

Definition InvalidTokenError (msg : string) : BaseAPIException :=
  mkBaseAPIException cInvalidTokenError msg 401 "INVALID_TOKEN" [].

Definition AuthorizationError (msg : string) : BaseAPIException :=
  mkBaseAPIException cAuthorizationError msg 403 "AUTHORIZATION_ERROR" [].

Definition EmailNotFoundError (email_id : Z) : BaseAPIException :=
  mkBaseAPIException cEmailNotFoundError
    ("Email with ID '" ++ string_of_Z email_id ++ "' not found")
    404 "EMAIL_NOT_FOUND" [].

Definition DraftNotFoundError (draft_id : string) : BaseAPIException :=
  mkBaseAPIException cDraftNotFoundError
    ("Draft with ID '" ++ draft_id ++ "' not found")
    404 "DRAFT_NOT_FOUND" [].

Definition CalendarEventNotFoundError (event_id : string)
  : BaseAPIException :=
  mkBaseAPIException cCalendarEventNotFoundError
    ("Calendar event with ID '" ++ event_id ++ "' not found")
    404 "CALENDAR_EVENT_NOT_FOUND" [].

Definition GmailAPIError (msg : string) (dt : list (string * Z))
  : BaseAPIException :=
  mkBaseAPIException cGmailAPIError msg 500 "GMAIL_API_ERROR" dt.

Definition GmailQuotaExceededError (msg : string) : BaseAPIException :=
  mkBaseAPIException cGmailQuotaExceededError msg 429
    "GMAIL_QUOTA_EXCEEDED" [].

(** [message = message or f"External service '{service_name}' error"]. *)
Definition ExternalServiceError (service_name : string)
  (msg : option string) : BaseAPIException :=
  mkBaseAPIException cExternalServiceError
    (if truthy msg
     then match msg with Some m => m | None => "" end
     else "External service '" ++ service_name ++ "' error")
    503 "EXTERNAL_SERVICE_ERROR" [].

Definition ExternalServiceTimeoutError (service_name : string)
  : BaseAPIException :=
  mkBaseAPIException cExternalServiceTimeoutError
    ("External service '" ++ service_name ++ "' timeout")
    504 "EXTERNAL_SERVICE_TIMEOUT" [].

(** The not-found classes of the taxonomy, one per resource kind. *)
Definition is_not_found_class (c : ExcClass) : bool :=
  match c with
  | cUserNotFoundError | cEmailNotFoundError | cDraftNotFoundError
  | cCalendarEventNotFoundError => true
  | _ => false
  end.

End Exception.

(* ===================================================================== *)
(** ** src/exception_handling.py: conversion utilities                   *)
(* ===================================================================== *)

Module ExceptionHandling.
Import Exception.

(** What the utilities read of a [googleapiclient] [HttpError]:
    [exc.resp.status]; the response body is kept to show it is dropped. *)
Record HttpErr : Type := mkHttpErr {
  resp_status : Z;
  resp_reason : string;
  content : string
}.

(** The [requests.exceptions] hierarchy below [RequestException].
    [ConnectTimeout] derives from both [ConnectionError] and [Timeout]. *)
Inductive RequestExcClass : Type :=
| rTimeout | rConnectTimeout | rReadTimeout
| rConnectionError | rProxyError | rSSLError
| rHTTPError | rTooManyRedirects | rRequestException.

Record RequestException : Type := mkRequestException {
  req_class : RequestExcClass;
  req_str : string          (* str(exc) *)
}.

Definition isinstance_Timeout (c : RequestExcClass) : bool :=
  match c with
  | rTimeout | rConnectTimeout | rReadTimeout => true
  | _ => false
  end.

Definition isinstance_ConnectionError (c : RequestExcClass) : bool :=
  match c with
  | rConnectionError | rConnectTimeout | rProxyError | rSSLError => true
  | _ => false
  end.

(** [handle_google_api_error] always raises; the value is the exception
    raised. *)
Definition handle_google_api_error (exc : HttpErr) (operation : string)
  : BaseAPIException :=
  if resp_status exc =? 401 then
    InvalidTokenError "Google API authentication failed"
  else if resp_status exc =? 403 then
    AuthorizationError "Google API access forbidden"
  else if resp_status exc =? 429 then
    GmailQuotaExceededError "Google API quota exceeded"
  else if resp_status exc =? 404 then
    GmailAPIError ("Google API resource not found during " ++ operation) []
  else
    GmailAPIError ("Google API error during " ++ operation)
      [("status_code", resp_status exc)].

Definition default_operation : string := "Google API operation".

(** [handle_request_error] always raises; the value is the exception
    raised. *)
Definition handle_request_error (exc : RequestException)
  (service_name : string) : BaseAPIException :=
  if isinstance_Timeout (req_class exc) then
    ExternalServiceTimeoutError service_name
  else if isinstance_ConnectionError (req_class exc) then
    ExternalServiceError service_name (Some "Connection error")
  else
    ExternalServiceError service_name (Some (req_str exc)).

Definition default_service_name : string := "external service".

End ExceptionHandling.

(* ===================================================================== *)
(** ** Decoding of message bodies                                        *)
(* ===================================================================== *)

(** [base64.urlsafe_b64decode(data).decode('utf-8')].  A Python [str] is
    represented by its UTF-8 bytes.  The base64 part follows CPython's
    [binascii.a2b_base64] in its default, non-strict mode. *)
Module Codec.

Open Scope N_scope.

(** [table_a2b_base64] after the URL-safe translation of [-] and [_]. *)
Definition a2b (c : ascii) : option N :=
  let x := N_of_ascii c in
  if (65 <=? x) && (x <=? 90) then Some (x - 65)
  else if (97 <=? x) && (x <=? 122) then Some (x - 97 + 26)
  else if (48 <=? x) && (x <=? 57) then Some (x - 48 + 52)
  else if (x =? 43) || (x =? 45) then Some 62      (* '+' and '-' *)
  else if (x =? 47) || (x =? 95) then Some 63      (* '/' and '_' *)
  else None.

Definition is_ascii_only (s : string) : bool :=
  forallb (fun c => N_of_ascii c <? 128) (list_ascii_of_string s).

Definition byte (n : N) : ascii := ascii_of_N (n mod 256).

(** The message for one data character too many, which counts the
    characters read from the [n] bytes written so far. *)
Definition odd_length_text (n : nat) : string :=
  "Invalid base64-encoded string: number of data characters ("
  ++ NilZero.string_of_uint (Nat.to_uint (n / 3 * 4 + 1))
  ++ ") cannot be 1 more than a multiple of 4".

(** The decoding loop: [quad_pos], [leftchar] and [pads] are the loop
    variables of the C function, [out] the bytes written so far. *)
Fixpoint a2b_loop (s : string) (quad_pos leftchar pads : N) (out : string)
  : result string :=
  match s with
  | EmptyString =>
      if quad_pos =? 0 then Ok out
      else if quad_pos =? 1 then
        Raise (DecodeError (odd_length_text (String.length out)))
      else Raise (DecodeError "Incorrect padding")
  | String c rest =>
      if N_of_ascii c =? 61 then                      (* BASE64_PAD *)
        if (2 <=? quad_pos) then
          if 4 <=? quad_pos + (pads + 1) then Ok out
          else a2b_loop rest quad_pos leftchar (pads + 1) out
        else a2b_loop rest quad_pos leftchar pads out
      else
        match a2b c with
        | None => a2b_loop rest quad_pos leftchar pads out
        | Some this_ch =>
            if quad_pos =? 0 then
              a2b_loop rest 1 this_ch 0 out
            else if quad_pos =? 1 then
              a2b_loop rest 2 (N.land this_ch 15) 0
                (out ++ String (byte (N.lor (N.shiftl leftchar 2)
                                            (N.shiftr this_ch 4))) "")
            else if quad_pos =? 2 then
              a2b_loop rest 3 (N.land this_ch 3) 0
                (out ++ String (byte (N.lor (N.shiftl leftchar 4)
                                            (N.shiftr this_ch 2))) "")
            else
              a2b_loop rest 0 0 0
                (out ++ String (byte (N.lor (N.shiftl leftchar 6)
                                            this_ch)) "")
        end
  end.

Definition urlsafe_b64decode (s : string) : result string :=
  if is_ascii_only s then a2b_loop s 0 0 0 ""
  else Raise (DecodeError
                "string argument should contain only ASCII characters").

Definition between (lo x hi : N) : bool := (lo <=? x) && (x <=? hi).

Definition cont (c : ascii) : bool := between 128 (N_of_ascii c) 191.

(** Well-formed UTF-8 (RFC 3629), which a strict decode accepts. *)
Fixpoint utf8_valid (s : string) : bool :=
  match s with
  | EmptyString => true
  | String a r =>
      let x := N_of_ascii a in
      if x <? 128 then utf8_valid r
      else if between 194 x 223 then
        match r with
        | String b r2 => cont b && utf8_valid r2
        | _ => false
        end
      else if between 224 x 239 then
        match r with
        | String b (String c r3) =>
            (if x =? 224 then between 160 (N_of_ascii b) 191
             else if x =? 237 then between 128 (N_of_ascii b) 159
             else cont b)
            && cont c && utf8_valid r3
        | _ => false
        end
      else if between 240 x 244 then
        match r with
        | String b (String c (String d r4)) =>
            (if x =? 240 then between 144 (N_of_ascii b) 191
             else if x =? 244 then between 128 (N_of_ascii b) 143
             else cont b)
            && cont c && cont d && utf8_valid r4
        | _ => false
        end
      else false
  end.

(** A strict decode; the message of Python's [UnicodeDecodeError] also
    names the offending byte and its position, which are left out. *)
Definition decode_utf8 (bytes : string) : result string :=
  if utf8_valid bytes then Ok bytes
  else Raise (DecodeError "'utf-8' codec can't decode bytes").

Definition b64_utf8 (data : string) : result string :=
  match urlsafe_b64decode data with
  | Ok bytes => decode_utf8 bytes
  | Raise e => Raise e
  end.

End Codec.

(* ===================================================================== *)
(** ** src/database.py: tables, session and constraints                  *)
(* ===================================================================== *)

Module User.
(** A row of [users].  [name], [google_id] and [refresh_token] are
    nullable columns the code tests for emptiness or may set to [None]. *)
Record t : Type := mk {
  id : Z;
  email : string;                    (* unique *)
  name : option string;
  google_id : option string;         (* unique *)
  access_token : string;
  refresh_token : option string;
  created_at : Z;
  is_active : bool
}.
End User.

Module Email.
(** A row of [emails].  [labels] holds the list that the column stores
    serialised by [json.dumps]. *)
Record t : Type := mk {
  id : Z;
  message_id : string;               (* unique: the Gmail message id *)
  user_id : Z;
  thread_id : string;
  subject : string;
  sender : string;
  recipient : string;
  body_text : string;
  body_html : string;
  is_read : bool;
  is_starred : bool;
  is_deleted : bool;
  labels : list string;
  received_at : Z;
  created_at : Z
}.

Definition with_id (v : Z) (created : Z) (e : t) : t :=
  mk v (message_id e) (user_id e) (thread_id e) (subject e) (sender e)
     (recipient e) (body_text e) (body_html e) (is_read e) (is_starred e)
     (is_deleted e) (labels e) (received_at e) created.

Definition with_is_read (v : bool) (e : t) : t :=
  mk (id e) (message_id e) (user_id e) (thread_id e) (subject e) (sender e)
     (recipient e) (body_text e) (body_html e) v (is_starred e)
     (is_deleted e) (labels e) (received_at e) (created_at e).

Definition with_is_starred (v : bool) (e : t) : t :=
  mk (id e) (message_id e) (user_id e) (thread_id e) (subject e) (sender e)
     (recipient e) (body_text e) (body_html e) (is_read e) v
     (is_deleted e) (labels e) (received_at e) (created_at e).

Definition with_is_deleted (v : bool) (e : t) : t :=
  mk (id e) (message_id e) (user_id e) (thread_id e) (subject e) (sender e)
     (recipient e) (body_text e) (body_html e) (is_read e) (is_starred e)
     v (labels e) (received_at e) (created_at e).
End Email.

Module Database.

(** The committed contents of the two tables, in insertion order. *)
Record DB : Type := mkDB {
  users : list User.t;
  emails : list Email.t
}.

(** What the session holds until the next flush.  An added object has no
    primary key yet: the flush assigns [id] and the [created_at] default.
    A modified object is kept with the row as it was loaded; the flush
    writes it back by primary key. *)
Inductive Change : Type :=
| AddUser (u : User.t)
| AddEmail (e : Email.t)
| DirtyUser (loaded current : User.t)
| DirtyEmail (loaded current : Email.t).

(** One round trip to the provider, as the gateway issues it. *)
Inductive Request : Type :=
| ReqFetchToken (code : string)
| ReqUserInfo (access_token : string)
| ReqMessagesList (q : string) (maxResults : Z)
    (labelIds : option (list string))
| ReqMessagesGet (id : string)
| ReqMessagesSend (raw : string)
| ReqMessagesModify (id : string)
    (addLabelIds removeLabelIds : option (list string))
| ReqDraftsCreate (raw : string)
| ReqDraftsUpdate (id raw : string)
| ReqDraftsDelete (id : string)
| ReqDraftsSend (id : string)
| ReqEventsInsert (body : Dict)
| ReqEventsList (timeMin timeMax : option string) (maxResults : Z)
    (singleEvents : bool) (orderBy : option string)
| ReqEventsGet (eventId : string)
| ReqEventsUpdate (eventId : string) (body : Dict)
| ReqEventsDelete (eventId : string).

(** Observable effects of a request handler, oldest first. *)
Inductive Event : Type :=
| Call (r : Request)                 (* a provider round trip *)
| Print (line : string) (e : PyExc)  (* print(f"{line}{e}") *)
| Commit                             (* a flush that succeeded *)
| Rollback.

(** The state a handler runs in: the database, the session's pending
    changes, the clock the column defaults read, and the effects so far. *)
Record St : Type := mkSt {
  db : DB;
  pending : list Change;
  utcnow : Z;
  out : list Event
}.

(** *** The state-and-exception monad *)

Definition M (A : Type) : Type := St -> result A * St.

Definition ret {A} (a : A) : M A := fun st => (Ok a, st).

Definition bind {A B} (m : M A) (k : A -> M B) : M B :=
  fun st =>
    match m st with
    | (Ok a, st') => k a st'
    | (Raise e, st') => (Raise e, st')
    end.

Definition raise {A} (e : PyExc) : M A := fun st => (Raise e, st).

Definition lift {A} (r : result A) : M A := fun st => (r, st).

(** [try: m  except Exception as e: h e]. *)
Definition try_except {A} (m : M A) (h : PyExc -> M A) : M A :=
  fun st =>
    match m st with
    | (Ok a, st') => (Ok a, st')
    | (Raise e, st') => h e st'
    end.

(** [try: m  except HttpError as e: h e]; anything else propagates. *)
Definition try_except_HttpError {A} (m : M A) (h : PyExc -> M A) : M A :=
  fun st =>
    match m st with
    | (Ok a, st') => (Ok a, st')
    | (Raise e, st') => if is_HttpError e then h e st' else (Raise e, st')
    end.

(** The state after further effects. *)
Definition log (st : St) (evs : list Event) : St :=
  mkSt (db st) (pending st) (utcnow st) (out st ++ evs).

Definition emit (ev : Event) : M unit := fun st => (Ok tt, log st [ev]).

Definition print (line : string) (e : PyExc) : M unit :=
  emit (Print line e).

(** A provider round trip: recorded, then its outcome. *)
Definition execute {A} (r : Request) (outcome : result A) : M A :=
  bind (emit (Call r)) (fun _ => lift outcome).

(** *** Queries ([autoflush=False]: they read the committed rows) *)

Definition first_user (p : User.t -> bool) : M (option User.t) :=
  fun st => (Ok (find p (users (db st))), st).

Definition first_email (p : Email.t -> bool) : M (option Email.t) :=
  fun st => (Ok (find p (emails (db st))), st).

(** *** Session operations *)

Definition note (c : Change) : M unit :=
  fun st => (Ok tt, mkSt (db st) (pending st ++ [c]) (utcnow st) (out st)).

(** [db.add(obj)]. *)
Definition add_user (u : User.t) : M unit := note (AddUser u).
Definition add_email (e : Email.t) : M unit := note (AddEmail e).

(** An attribute assignment on a loaded object marks it dirty. *)
Definition dirty_user (loaded current : User.t) : M unit :=
  note (DirtyUser loaded current).
Definition dirty_email (loaded current : Email.t) : M unit :=
  note (DirtyEmail loaded current).

Definition next_id (ids : list Z) : Z := fold_right Z.max 0 ids + 1.

Definition opt_eqb (a b : option string) : bool :=
  match a, b with
  | Some x, Some y => String.eqb x y
  | _, _ => false                    (* NULL never collides *)
  end.

(** The unique constraints: a value being written to a unique column
    must not be held by another row. *)
Definition email_taken (u : User.t) (rows : list User.t) : bool :=
  existsb (fun r => negb (User.id r =? User.id u)
                    && String.eqb (User.email r) (User.email u)) rows.

Definition google_id_taken (u : User.t) (rows : list User.t) : bool :=
  existsb (fun r => negb (User.id r =? User.id u)
                    && opt_eqb (User.google_id r) (User.google_id u)) rows.

Definition message_id_taken (e : Email.t) (rows : list Email.t) : bool :=
  existsb (fun r => negb (Email.id r =? Email.id e)
                    && String.eqb (Email.message_id r) (Email.message_id e))
          rows.

Definition opt_same (a b : option string) : bool :=
  match a, b with
  | Some x, Some y => String.eqb x y
  | None, None => true
  | _, _ => false
  end.

Definition with_user_id (v created : Z) (u : User.t) : User.t :=
  User.mk v (User.email u) (User.name u) (User.google_id u)
    (User.access_token u) (User.refresh_token u) created (User.is_active u).

Definition replace_user (u : User.t) (rows : list User.t) : list User.t :=
  map (fun r => if User.id r =? User.id u then u else r) rows.

Definition replace_email (e : Email.t) (rows : list Email.t)
  : list Email.t :=
  map (fun r => if Email.id r =? Email.id e then e else r) rows.

(** The statement a flush issues for one pending change.  An INSERT
    writes every column; an UPDATE writes the columns whose value differs
    from the loaded one, so only those are checked.  The text of an
    [IntegrityError] is the driver's and names the violated constraint;
    the text below abbreviates it, and no statement depends on it. *)
Definition apply_change (now : Z) (c : Change) (d : DB) : result DB :=
  match c with
  | AddUser u =>
      let row := with_user_id (next_id (map User.id (users d))) now u in
      if email_taken row (users d) || google_id_taken row (users d)
      then Raise (IntegrityError "duplicate key value: users")
      else Ok (mkDB (users d ++ [row]) (emails d))
  | AddEmail e =>
      let row := Email.with_id (next_id (map Email.id (emails d))) now e in
      if message_id_taken row (emails d)
      then Raise (IntegrityError "duplicate key value: emails.message_id")
      else Ok (mkDB (users d) (emails d ++ [row]))
  | DirtyUser old u =>
      if (negb (String.eqb (User.email old) (User.email u))
          && email_taken u (users d))
         || (negb (opt_same (User.google_id old) (User.google_id u))
             && google_id_taken u (users d))
      then Raise (IntegrityError "duplicate key value: users")
      else Ok (mkDB (replace_user u (users d)) (emails d))
  | DirtyEmail old e =>
      if negb (String.eqb (Email.message_id old) (Email.message_id e))
         && message_id_taken e (emails d)
      then Raise (IntegrityError "duplicate key value: emails.message_id")
      else Ok (mkDB (users d) (replace_email e (emails d)))
  end.

Fixpoint flush (now : Z) (cs : list Change) (d : DB) : result DB :=
  match cs with
  | [] => Ok d
  | c :: cs' =>
      match apply_change now c d with
      | Ok d' => flush now cs' d'
      | Raise e => Raise e
      end
  end.

(** [db.commit()]: flush the pending changes in one transaction.  A
    failing statement raises and leaves the committed rows as they were;
    the pending changes stay until the caller rolls back. *)
Definition commit : M unit :=
  fun st =>
    match flush (utcnow st) (pending st) (db st) with
    | Ok d => (Ok tt, mkSt d [] (utcnow st) (out st ++ [Commit]))
    | Raise e => (Raise e, st)
    end.

(** [db.rollback()]. *)
Definition rollback : M unit :=
  fun st => (Ok tt, mkSt (db st) [] (utcnow st) (out st ++ [Rollback])).

(** [get_db]: a request gets a fresh session, closed when it ends;
    whatever was not committed is discarded. *)
Definition serve {A} (handler : M A) (st : St) : result A * St :=
  match handler (mkSt (db st) [] (utcnow st) (out st)) with
  | (r, st') => (r, mkSt (db st') [] (utcnow st') (out st'))
  end.

End Database.

Declare Scope monad_scope.
Notation "x <- m ;; k" := (Database.bind m (fun x => k))
  (at level 61, m at next level, right associativity) : monad_scope.
Notation "m ;;; k" := (Database.bind m (fun _ => k))
  (at level 61, right associativity) : monad_scope.

(* ===================================================================== *)
(** ** src/extra/service.py: the provider gateway                        *)
(* ===================================================================== *)

Module Service.
Import Database.
Open Scope monad_scope.

(** *** Remote resources, with the keys the code reads *)

Record Header : Type := mkHeader {
  h_name : option string;
  h_value : option string
}.

(** A node of a message payload: [mimeType], [body.data], [headers] and
    [parts]; a missing key is [None] (or the empty list). *)
#[warnings="-register-all"]
Inductive Part : Type :=
| mkPart (mimeType : option string) (body_data : option string)
    (headers : list Header) (parts : list Part).

Definition part_mimeType (p : Part) : option string :=
  match p with mkPart m _ _ _ => m end.
Definition part_data (p : Part) : option string :=
  match p with mkPart _ d _ _ => d end.
Definition part_headers (p : Part) : list Header :=
  match p with mkPart _ _ h _ => h end.
Definition part_parts (p : Part) : list Part :=
  match p with mkPart _ _ _ ps => ps end.

(** [{}]: a payload with no key. *)
Definition empty_part : Part := mkPart None None [] [].

Record Message : Type := mkMessage {
  msg_id : option string;
  threadId : option string;
  payload : option Part;
  labelIds : option (list string)
}.

(** [not message] holds of the empty dict only. *)
Definition message_is_empty (m : Message) : bool :=
  match msg_id m, threadId m, payload m, labelIds m with
  | None, None, None, None => true
  | _, _, _, _ => false
  end.

(** The OAuth credentials a service is built from. *)
Record Credentials : Type := mkCredentials {
  token : string;
  refresh_token : option string
}.

(** An authenticated capability: the outcome of each call it can make. *)
Record Capability : Type := mkCapability {
  messages_list : string -> Z -> option (list string)
                  -> result (option (list Dict));
  messages_get : string -> result Message;
  messages_send : string -> result Dict;
  messages_modify : string -> option (list string) -> option (list string)
                    -> result Dict;
  drafts_create : string -> result Dict;
  drafts_update : string -> string -> result Dict;
  drafts_delete : string -> result unit;
  drafts_send : string -> result Dict;
  events_insert : Dict -> result Dict;
  events_list : option string -> option string -> Z -> bool
                -> option string -> result (option (list Dict));
  events_get : string -> result Dict;
  events_update : string -> Dict -> result Dict;
  events_delete : string -> result unit
}.

(** The libraries and the remote provider, as one request sees them. *)
Record Env : Type := mkEnv {
  build : string -> string -> Credentials -> result Capability;
  fetch_token : string -> result Credentials;
  userinfo : string -> result Dict;
  mime_raw : string -> string -> string -> option string -> option string
             -> result string;        (* to subject body cc bcc *)
  now : Z;                            (* datetime.now() *)
  parsedate : string -> option Z      (* mktime_tz(parsedate_tz(date)) *)
}.

(** *** Token exchange and capability construction *)

Definition exchange_code_for_tokens (env : Env) (code : string)
  : M Credentials :=
  execute (ReqFetchToken code) (fetch_token env code).

Definition build_service (env : Env) (access_token : string)
  (refresh_token : option string) (service_name version : string)
  : M Capability :=
  lift (build env service_name version
          (mkCredentials access_token refresh_token)).

Definition get_user_info (env : Env) (access_token : string)
  : M (option Dict) :=
  try_except
    (d <- execute (ReqUserInfo access_token) (userinfo env access_token) ;;
     ret (Some d))
    (fun e => print "Error getting user info: " e ;;; ret None).

(** *** Mail operations *)

Definition or_empty {A} (o : option (list A)) : list A :=
  match o with Some l => l | None => [] end.

(** Truthiness of an optional list argument. *)
Definition some_nonempty {A} (o : option (list A)) : option (list A) :=
  match o with
  | Some (x :: l) => Some (x :: l)
  | _ => None
  end.

Definition list_messages (service : Capability) (query : string)
  (max_results : Z) (label_ids : option (list string)) : M (list Dict) :=
  try_except_HttpError
    (results <- execute
        (ReqMessagesList query max_results (some_nonempty label_ids))
        (messages_list service query max_results (some_nonempty label_ids)) ;;
     ret (or_empty results))
    (fun e => print "Error listing messages: " e ;;; ret []).

Definition get_message (service : Capability) (message_id : string)
  : M (option Message) :=
  try_except_HttpError
    (message <- execute (ReqMessagesGet message_id)
                  (messages_get service message_id) ;;
     ret (Some message))
    (fun e => print "Error getting message: " e ;;; ret None).

(** [mime_raw] stands for the lines from [MIMEMultipart()] to
    [urlsafe_b64encode(message.as_bytes()).decode()]: they run inside the
    [try], and serialising a header or a body the [email] package refuses
    raises there, before any request is made. *)
Definition send_email (env : Env) (service : Capability)
  (to subject body : string) (cc bcc : option string) : M (option Dict) :=
  try_except_HttpError
    (raw_message <- lift (mime_raw env to subject body cc bcc) ;;
     r <- execute (ReqMessagesSend raw_message)
            (messages_send service raw_message) ;;
     ret (Some r))
    (fun e => print "Error sending email: " e ;;; ret None).

Definition create_draft (env : Env) (service : Capability)
  (to subject body : string) (cc bcc : option string) : M (option Dict) :=
  try_except_HttpError
    (raw_message <- lift (mime_raw env to subject body cc bcc) ;;
     r <- execute (ReqDraftsCreate raw_message)
            (drafts_create service raw_message) ;;
     ret (Some r))
    (fun e => print "Error creating draft: " e ;;; ret None).

Definition update_draft (env : Env) (service : Capability)
  (draft_id to subject body : string) (cc bcc : option string)
  : M (option Dict) :=
  try_except_HttpError
    (raw_message <- lift (mime_raw env to subject body cc bcc) ;;
     r <- execute (ReqDraftsUpdate draft_id raw_message)
            (drafts_update service draft_id raw_message) ;;
     ret (Some r))
    (fun e => print "Error updating draft: " e ;;; ret None).

Definition delete_draft (service : Capability) (draft_id : string)
  : M bool :=
  try_except_HttpError
    (execute (ReqDraftsDelete draft_id) (drafts_delete service draft_id) ;;;
     ret true)
    (fun e => print "Error deleting draft: " e ;;; ret false).

Definition send_draft (service : Capability) (draft_id : string)
  : M (option Dict) :=
  try_except_HttpError
    (r <- execute (ReqDraftsSend draft_id) (drafts_send service draft_id) ;;
     ret (Some r))
    (fun e => print "Error sending draft: " e ;;; ret None).

Definition modify_message (service : Capability) (message_id : string)
  (add_labels remove_labels : option (list string)) : M (option Dict) :=
  try_except_HttpError
    (r <- execute
        (ReqMessagesModify message_id (some_nonempty add_labels)
           (some_nonempty remove_labels))
        (messages_modify service message_id (some_nonempty add_labels)
           (some_nonempty remove_labels)) ;;
     ret (Some r))
    (fun e => print "Error modifying message: " e ;;; ret None).

(** *** Calendar operations *)

Definition create_calendar_event (service : Capability) (event_data : Dict)
  : M (option Dict) :=
  try_except_HttpError
    (r <- execute (ReqEventsInsert event_data)
            (events_insert service event_data) ;;
     ret (Some r))
    (fun e => print "Error creating calendar event: " e ;;; ret None).

Definition list_calendar_events (service : Capability)
  (time_min time_max : option string) (max_results : Z)
  (single_events : bool) (order_by : option string) : M (list Dict) :=
  try_except_HttpError
    (r <- execute
        (ReqEventsList time_min time_max max_results single_events order_by)
        (events_list service time_min time_max max_results single_events
           order_by) ;;
     ret (or_empty r))
    (fun e => print "Error listing calendar events: " e ;;; ret []).

Definition get_calendar_event (service : Capability) (event_id : string)
  : M (option Dict) :=
  try_except_HttpError
    (r <- execute (ReqEventsGet event_id) (events_get service event_id) ;;
     ret (Some r))
    (fun e => print "Error getting calendar event: " e ;;; ret None).

Definition update_calendar_event (service : Capability) (event_id : string)
  (event_data : Dict) : M (option Dict) :=
  try_except_HttpError
    (r <- execute (ReqEventsUpdate event_id event_data)
            (events_update service event_id event_data) ;;
     ret (Some r))
    (fun e => print "Error updating calendar event: " e ;;; ret None).

Definition delete_calendar_event (service : Capability) (event_id : string)
  : M bool :=
  try_except_HttpError
    (execute (ReqEventsDelete event_id) (events_delete service event_id) ;;;
     ret true)
    (fun e => print "Error deleting calendar event: " e ;;; ret false).

(** *** Parsing a message *)

(** [next((h['value'] for h in headers if h['name'] == name), '')]. *)
Fixpoint header_value (headers : list Header) (name : string)
  : result string :=
  match headers with
  | [] => Ok ""
  | h :: hs =>
      match h_name h with
      | None => Raise (KeyError "name")
      | Some n =>
          if String.eqb n name then
            match h_value h with
            | Some v => Ok v
            | None => Raise (KeyError "value")
            end
          else header_value hs name
      end
  end.

Definition mime_is (p : Part) (m : string) : bool :=
  match part_mimeType p with
  | Some t => String.eqb t m
  | None => false
  end.

Definition data_of (p : Part) : string :=
  match part_data p with Some d => d | None => "" end.

(** The nested function [extract_body]; the pair is the enclosing
    function's [(body_text, body_html)], which it assigns to. *)
Fixpoint extract_body (part : Part) (bodies : string * string)
  : result (string * string) :=
  match part with
  | mkPart _ _ _ ps =>
      if mime_is part "text/plain" then
        if nonempty (data_of part) then
          match Codec.b64_utf8 (data_of part) with
          | Ok s => Ok (s, snd bodies)
          | Raise e => Raise e
          end
        else Ok bodies
      else if mime_is part "text/html" then
        if nonempty (data_of part) then
          match Codec.b64_utf8 (data_of part) with
          | Ok s => Ok (fst bodies, s)
          | Raise e => Raise e
          end
        else Ok bodies
      else
        (fix each (subparts : list Part) (bodies : string * string)
           : result (string * string) :=
           match subparts with
           | [] => Ok bodies
           | subpart :: rest =>
               match extract_body subpart bodies with
               | Ok bodies' => each rest bodies'
               | Raise e => Raise e
               end
           end) ps bodies
  end.

(** The dict [parse_message] returns. *)
Record Parsed : Type := mkParsed {
  p_message_id : string;
  p_thread_id : string;
  p_subject : string;
  p_sender : string;
  p_recipient : string;
  p_body_text : string;
  p_body_html : string;
  p_labels : list string;
  p_received_at : Z;
  p_is_read : bool;
  p_is_starred : bool
}.

Definition mem (x : string) (l : list string) : bool :=
  existsb (String.eqb x) l.

Definition parse_message (env : Env) (message : Message) : result Parsed :=
  let payload := match payload message with
                 | Some p => p | None => empty_part end in
  let headers := part_headers payload in
  match header_value headers "Subject" with Raise e => Raise e | Ok subject =>
  match header_value headers "From" with Raise e => Raise e | Ok sender =>
  match header_value headers "To" with Raise e => Raise e | Ok recipient =>
  match header_value headers "Date" with Raise e => Raise e | Ok date =>
  let received_at := match parsedate env date with
                     | Some t => t | None => now env end in
  match extract_body payload ("", "") with Raise e => Raise e
  | Ok (body_text, body_html) =>
  let label_ids := or_empty (labelIds message) in
  match msg_id message with None => Raise (KeyError "id") | Some id =>
  Ok (mkParsed id
        (match threadId message with Some t => t | None => "" end)
        subject sender recipient body_text body_html label_ids received_at
        (negb (mem "UNREAD" label_ids))
        (mem "STARRED" label_ids))
  end end end end end end.

End Service.

(* ===================================================================== *)
(** ** src/routes/auth.py and src/routes/email.py                        *)
(* ===================================================================== *)

Module Routes.
Import Database Service.
Open Scope monad_scope.

(** What a handler returns on success.  A failure is the [HTTPException]
    it raises. *)
Inductive Response : Type :=
| RedirectResponse (url : string)
| JsonMessage (message : string)
| JsonStar (message : string) (is_starred : bool)
| EmailRecord (e : Email.t).

(** An optional string inside an f-string. *)
Definition fmt (o : option string) : string :=
  match o with Some s => s | None => "None" end.

Definition with_tokens (access : string) (refresh : option string)
  (u : User.t) : User.t :=
  User.mk (User.id u) (User.email u) (User.name u) (User.google_id u)
    access refresh (User.created_at u) (User.is_active u).

Definition with_google_id (g : option string) (u : User.t) : User.t :=
  User.mk (User.id u) (User.email u) (User.name u) g
    (User.access_token u) (User.refresh_token u) (User.created_at u)
    (User.is_active u).

Definition with_name (n : option string) (u : User.t) : User.t :=
  User.mk (User.id u) (User.email u) n (User.google_id u)
    (User.access_token u) (User.refresh_token u) (User.created_at u)
    (User.is_active u).

Definition by_email (email : string) (u : User.t) : bool :=
  String.eqb (User.email u) email.

(** *** GET /auth/callback *)

(** The branch taken when a user with the resolved email exists. *)
Definition update_existing_user (loaded : User.t)
  (credentials : Credentials) (user_info : Dict) : M User.t :=
  let user := loaded in
  let user := with_tokens (token credentials) (refresh_token credentials)
                user in
  user <- (if truthy (User.google_id user) then ret user
           else (gid <- lift (dict_item user_info "id") ;;
                 ret (with_google_id (Some gid) user))) ;;
  let user := if truthy (User.name user) then user
              else with_name (Some (dict_get_default user_info "name" ""))
                     user in
  dirty_user loaded user ;;;
  ret user.

(** The branch taken otherwise. *)
Definition create_new_user (credentials : Credentials) (user_info : Dict)
  : M User.t :=
  email <- lift (dict_item user_info "email") ;;
  gid <- lift (dict_item user_info "id") ;;
  let user := User.mk 0 email
                (Some (dict_get_default user_info "name" ""))
                (Some gid) (token credentials) (refresh_token credentials)
                0 true in
  add_user user ;;;
  ret user.

(** The [try] block of [callback]. *)
Definition callback_try (env : Env) (code : option string) : M Response :=
  match code with
  | Some code =>
      if nonempty code then
        credentials <- exchange_code_for_tokens env code ;;
        user_info <- get_user_info env (token credentials) ;;
        match user_info with
        | Some (kv :: info) =>
            let user_info := kv :: info in
            email <- lift (dict_item user_info "email") ;;
            user <- first_user (by_email email) ;;
            user <- match user with
                    | Some user =>
                        update_existing_user user credentials user_info
                    | None => create_new_user credentials user_info
                    end ;;
            commit ;;;
            ret (RedirectResponse
                   ("/auth/success?email=" ++ User.email user
                    ++ "&name=" ++ fmt (User.name user)))
        | _ => raise (HTTPException 400 "Failed to get user info")
        end
      else raise (HTTPException 400 "Authorization code not provided")
  | None => raise (HTTPException 400 "Authorization code not provided")
  end.

Definition callback (env : Env) (code : option string) : M Response :=
  try_except (callback_try env code)
    (fun e =>
       rollback ;;;
       raise (HTTPException 400 ("Authentication failed: " ++ str e))).

(** *** POST /emails/sync *)

Definition new_email (user : User.t) (p : Parsed) : Email.t :=
  Email.mk 0 (p_message_id p) (User.id user) (p_thread_id p) (p_subject p)
    (p_sender p) (p_recipient p) (p_body_text p) (p_body_html p)
    (p_is_read p) (p_is_starred p) false (p_labels p) (p_received_at p) 0.

Definition by_message_id (id : string) (r : Email.t) : bool :=
  String.eqb (Email.message_id r) id.

(** The body of [for msg in messages]: [true] when the message was added
    and counted, [false] when the iteration ended in [continue]. *)
Definition sync_message (env : Env) (service : Capability) (user : User.t)
  (msg : Dict) : M bool :=
  id <- lift (dict_item msg "id") ;;
  existing_email <- first_email (by_message_id id) ;;
  match existing_email with
  | Some _ => ret false
  | None =>
      full_message <- get_message service id ;;
      match full_message with
      | None => ret false
      | Some full_message =>
          if message_is_empty full_message then ret false
          else
            parsed_message <- lift (parse_message env full_message) ;;
            add_email (new_email user parsed_message) ;;;
            ret true
      end
  end.

Fixpoint sync_loop (env : Env) (service : Capability) (user : User.t)
  (messages : list Dict) (synced_count : nat) : M nat :=
  match messages with
  | [] => ret synced_count
  | msg :: rest =>
      counted <- sync_message env service user msg ;;
      sync_loop env service user rest
        (if counted then S synced_count else synced_count)
  end.

(** The [try] block of [sync_emails]. *)
Definition sync_try (env : Env) (user : User.t) : M Response :=
  service <- build_service env (User.access_token user)
               (User.refresh_token user) "gmail" "v1" ;;
  messages <- list_messages service "" 100 None ;;
  synced_count <- sync_loop env service user messages 0 ;;
  commit ;;;
  ret (JsonMessage ("Synced " ++ string_of_nat synced_count
                    ++ " new emails")).

Definition sync_emails (env : Env) (email : string) : M Response :=
  user <- first_user (by_email email) ;;
  match user with
  | None => raise (HTTPException 404 "User not found")
  | Some user =>
      try_except (sync_try env user)
        (fun e =>
           rollback ;;;
           raise (HTTPException 500 ("Sync failed: " ++ str e)))
  end.

(** *** The per-message endpoints *)

(** [Email.id == email_id, Email.user_id == user.id,
     Email.is_deleted == False]. *)
Definition visible (email_id : Z) (user : User.t) (r : Email.t) : bool :=
  (Email.id r =? email_id) && (Email.user_id r =? User.id user)
  && negb (Email.is_deleted r).

(** [Email.id == email_id, Email.user_id == user.id]. *)
Definition owned (email_id : Z) (user : User.t) (r : Email.t) : bool :=
  (Email.id r =? email_id) && (Email.user_id r =? User.id user).

Definition get_email (email_id : Z) (email : string) : M Response :=
  user <- first_user (by_email email) ;;
  match user with
  | None => raise (HTTPException 404 "User not found")
  | Some user =>
      email_record <- first_email (visible email_id user) ;;
      match email_record with
      | None => raise (HTTPException 404 "Email not found")
      | Some email_record =>
          if negb (Email.is_read email_record) then
            let loaded := email_record in
            let email_record := Email.with_is_read true email_record in
            dirty_email loaded email_record ;;;
            commit ;;;
            ret (EmailRecord email_record)
          else ret (EmailRecord email_record)
      end
  end.

Definition toggle_star_email (env : Env) (email_id : Z) (email : string)
  : M Response :=
  user <- first_user (by_email email) ;;
  match user with
  | None => raise (HTTPException 404 "User not found")
  | Some user =>
      email_record <- first_email (visible email_id user) ;;
      match email_record with
      | None => raise (HTTPException 404 "Email not found")
      | Some email_record =>
          let loaded := email_record in
          let email_record :=
            Email.with_is_starred (negb (Email.is_starred email_record))
              email_record in
          dirty_email loaded email_record ;;;
          commit ;;;
          try_except
            (service <- build_service env (User.access_token user)
                          (User.refresh_token user) "gmail" "v1" ;;
             if Email.is_starred email_record then
               modify_message service (Email.message_id email_record)
                 (Some ["STARRED"]) None ;;; ret tt
             else
               modify_message service (Email.message_id email_record)
                 None (Some ["STARRED"]) ;;; ret tt)
            (fun e => print "Failed to update star status in Gmail: " e) ;;;
          ret (JsonStar
                 ("Email " ++ (if Email.is_starred email_record
                               then "starred" else "unstarred"))
                 (Email.is_starred email_record))
      end
  end.

Definition star_email (env : Env) (email_id : Z) (email : string)
  : M Response :=
  user <- first_user (by_email email) ;;
  match user with
  | None => raise (HTTPException 404 "User not found")
  | Some user =>
      email_record <- first_email (visible email_id user) ;;
      match email_record with
      | None => raise (HTTPException 404 "Email not found")
      | Some email_record =>
          if Email.is_starred email_record then
            ret (JsonStar "Email is already starred" true)
          else
            let loaded := email_record in
            let email_record := Email.with_is_starred true email_record in
            dirty_email loaded email_record ;;;
            commit ;;;
            try_except
              (service <- build_service env (User.access_token user)
                            (User.refresh_token user) "gmail" "v1" ;;
               modify_message service (Email.message_id email_record)
                 (Some ["STARRED"]) None ;;; ret tt)
              (fun e => print "Failed to star email in Gmail: " e) ;;;
            ret (JsonStar "Email starred successfully" true)
      end
  end.

Definition unstar_email (env : Env) (email_id : Z) (email : string)
  : M Response :=
  user <- first_user (by_email email) ;;
  match user with
  | None => raise (HTTPException 404 "User not found")
  | Some user =>
      email_record <- first_email (visible email_id user) ;;
      match email_record with
      | None => raise (HTTPException 404 "Email not found")
      | Some email_record =>
          if negb (Email.is_starred email_record) then
            ret (JsonStar "Email is not starred" false)
          else
            let loaded := email_record in
            let email_record := Email.with_is_starred false email_record in
            dirty_email loaded email_record ;;;
            commit ;;;
            try_except
              (service <- build_service env (User.access_token user)
                            (User.refresh_token user) "gmail" "v1" ;;
               modify_message service (Email.message_id email_record)
                 None (Some ["STARRED"]) ;;; ret tt)
              (fun e => print "Failed to unstar email in Gmail: " e) ;;;
            ret (JsonStar "Email unstarred successfully" false)
      end
  end.

Definition delete_email (email_id : Z) (email : string) : M Response :=
  user <- first_user (by_email email) ;;
  match user with
  | None => raise (HTTPException 404 "User not found")
  | Some user =>
      email_record <- first_email (owned email_id user) ;;
      match email_record with
      | None => raise (HTTPException 404 "Email not found")
      | Some email_record =>
          let loaded := email_record in
          let email_record := Email.with_is_deleted true email_record in
          dirty_email loaded email_record ;;;
          commit ;;;
          ret (JsonMessage "Email deleted")
      end
  end.

End Routes.

(* ===================================================================== *)
(** ** Concrete data used to run the model                               *)
(* ===================================================================== *)

Module Samples.
Import Database Service Routes ExceptionHandling.

Definition not_found_response : HttpErr := mkHttpErr 404 "Not Found" "{}".

Definition leaf (mime data : string) : Part :=
  mkPart (Some mime) (Some data) [] [].

(** A multipart payload with two text/plain leaves, "A" then "B". *)
Definition two_plain : Part :=
  mkPart (Some "multipart/mixed") None []
    [leaf "text/plain" "QQ=="; leaf "text/plain" "Qg=="].

(** A nested payload: plain "A", then html and plain "B" one level down. *)
Definition nested : Part :=
  mkPart (Some "multipart/mixed") None []
    [leaf "text/plain" "QQ==";
     mkPart (Some "multipart/alternative") None []
       [leaf "text/html" "PGI-aGk8L2I-"; leaf "text/plain" "Qg=="]].

Definition ada : User.t :=
  User.mk 1 "ada@example.com" (Some "Ada") (Some "g-1") "at-old"
    (Some "rt-old") 10 true.

(** A legacy row whose name and provider id were never filled in. *)
Definition bob : User.t :=
  User.mk 2 "bob@example.com" (Some "") None "at-bob" None 11 true.

Definition mail (id : Z) (mid : string) (read starred deleted : bool)
  : Email.t :=
  Email.mk id mid 1 "t-1" "Hello" "x@example.com" "ada@example.com"
    "A" "" read starred deleted ["INBOX"] 5 6.

Definition store : DB :=
  mkDB [ada; bob]
       [mail 1 "m1" false false false;
        mail 2 "m2" true true false;
        mail 3 "m3" true false true].

Definition st0 : St := mkSt store [] 100 [].

Definition message (id : string) (parts : list Part) : Message :=
  mkMessage (Some id) (Some "t-9")
    (Some (mkPart (Some "multipart/mixed") None
             [mkHeader (Some "Subject") (Some "Hi");
              mkHeader (Some "From") (Some "y@example.com")]
             parts))
    (Some ["INBOX"; "UNREAD"]).

(** A capability whose calls all succeed; [m4] has a body that is not
    valid base64. *)
Definition working : Capability :=
  mkCapability
    (fun _ _ _ => Ok (Some [[("id", "m1")]; [("id", "m5")]; [("id", "m4")]]))
    (fun id => Ok (message id
                     [leaf "text/plain"
                        (if String.eqb id "m4" then "Q" else "QQ==")]))
    (fun _ => Ok [("id", "sent-1")])
    (fun id _ _ => Ok [("id", id)])
    (fun _ => Ok [("id", "d-1")])
    (fun id _ => Ok [("id", id)])
    (fun _ => Ok tt)
    (fun _ => Ok [("id", "sent-2")])
    (fun _ => Ok [("id", "e-1")])
    (fun _ _ _ _ _ => Ok (Some []))
    (fun id => Ok [("id", id)])
    (fun id _ => Ok [("id", id)])
    (fun _ => Ok tt).

(** The same capability listing only [m1] and [m5]. *)
Definition healthy : Capability :=
  mkCapability
    (fun _ _ _ => Ok (Some [[("id", "m1")]; [("id", "m5")]]))
    (messages_get working) (messages_send working)
    (messages_modify working) (drafts_create working)
    (drafts_update working) (drafts_delete working) (drafts_send working)
    (events_insert working) (events_list working) (events_get working)
    (events_update working) (events_delete working).

Definition timed_out : PyExc := OtherError "socket.timeout" "timed out".

(** A capability whose every call times out in the transport. *)
Definition unreachable : Capability :=
  mkCapability
    (fun _ _ _ => Raise timed_out) (fun _ => Raise timed_out)
    (fun _ => Raise timed_out) (fun _ _ _ => Raise timed_out)
    (fun _ => Raise timed_out) (fun _ _ => Raise timed_out)
    (fun _ => Raise timed_out) (fun _ => Raise timed_out)
    (fun _ => Raise timed_out) (fun _ _ _ _ _ => Raise timed_out)
    (fun _ => Raise timed_out) (fun _ _ => Raise timed_out)
    (fun _ => Raise timed_out).

(** A capability whose every call is answered with status 500. *)
Definition failing : Capability :=
  let e := HttpError 500 "<HttpError 500>" in
  mkCapability
    (fun _ _ _ => Raise e) (fun _ => Raise e)
    (fun _ => Raise e) (fun _ _ _ => Raise e)
    (fun _ => Raise e) (fun _ _ => Raise e)
    (fun _ => Raise e) (fun _ => Raise e)
    (fun _ => Raise e) (fun _ _ _ _ _ => Raise e)
    (fun _ => Raise e) (fun _ _ => Raise e)
    (fun _ => Raise e).

Definition env_with (c : Capability) (info : Dict) : Env :=
  mkEnv (fun _ _ _ => Ok c)
        (fun _ => Ok (mkCredentials "at-new" (Some "rt-new")))
        (fun _ => Ok info)
        (fun to subject body _ _ => Ok (to ++ subject ++ body))
        50
        (fun _ => None).

(** Ada signs in again; the provider reports another display name. *)
Definition ada_again : Dict :=
  [("id", "g-1"); ("email", "ada@example.com"); ("name", "Countess")].

(** Ada's account, renamed at the provider: same subject id, new email. *)
Definition ada_renamed : Dict :=
  [("id", "g-1"); ("email", "lovelace@example.com"); ("name", "Ada")].

Definition carol : Dict :=
  [("id", "g-3"); ("email", "carol@example.com"); ("name", "Carol")].

Definition bob_again : Dict :=
  [("id", "g-2"); ("email", "bob@example.com"); ("name", "Bob")].

(** Bob signs in, and the provider reports the subject id Ada holds. *)
Definition bob_clash : Dict :=
  [("id", "g-1"); ("email", "bob@example.com"); ("name", "Bob")].

End Samples.

(* ===================================================================== *)
(** ** Notions used to state the properties                              *)
(* ===================================================================== *)

Module Notions.
Import Database Service Routes.
Open Scope monad_scope.

(** *** The text leaves of a payload *)

(** Induction over a payload tree: the property may be assumed of every
    direct subpart. *)
Section PartInduction.
Variable P : Part -> Prop.
Hypothesis step : forall m d h ps, Forall P ps -> P (mkPart m d h ps).

Fixpoint Part_induction (p : Part) : P p :=
  match p with
  | mkPart m d h ps =>
      step m d h ps
        ((fix all (l : list Part) : Forall P l :=
            match l with
            | [] => Forall_nil P
            | x :: l' => Forall_cons x (Part_induction x) (all l')
            end) ps)
  end.
End PartInduction.

Inductive Kind : Type := Plain | Html.

(** The text leaves of a payload that carry data, in depth-first order:
    a node typed text/plain or text/html is a leaf (its [parts] are not
    visited); any other node is descended into. *)
Fixpoint text_leaves (p : Part) : list (Kind * string) :=
  match p with
  | mkPart _ _ _ ps =>
      if mime_is p "text/plain" then
        if nonempty (data_of p) then [(Plain, data_of p)] else []
      else if mime_is p "text/html" then
        if nonempty (data_of p) then [(Html, data_of p)] else []
      else
        (fix each (l : list Part) : list (Kind * string) :=
           match l with
           | [] => []
           | x :: l' => (text_leaves x ++ each l')%list
           end) ps
  end.

(** Visiting one leaf: decode it and assign the body of its kind. *)
Definition assign (bodies : string * string) (leaf : Kind * string)
  : result (string * string) :=
  match Codec.b64_utf8 (snd leaf) with
  | Ok s => match fst leaf with
            | Plain => Ok (s, snd bodies)
            | Html => Ok (fst bodies, s)
            end
  | Raise e => Raise e
  end.

Fixpoint assign_all (leaves : list (Kind * string))
  (bodies : string * string) : result (string * string) :=
  match leaves with
  | [] => Ok bodies
  | l :: ls =>
      match assign bodies l with
      | Ok b => assign_all ls b
      | Raise e => Raise e
      end
  end.

Definition is_kind (k : Kind) (leaf : Kind * string) : bool :=
  match k, fst leaf with
  | Plain, Plain | Html, Html => true
  | _, _ => false
  end.

Definition decoded (data : string) : string :=
  match Codec.b64_utf8 data with Ok s => s | Raise _ => "" end.

(** The body of the last leaf of kind [k], or [start] when there is none. *)
Definition last_body (k : Kind) (leaves : list (Kind * string))
  (start : string) : string :=
  last (map (fun l => decoded (snd l)) (filter (is_kind k) leaves)) start.

(** The body of the first leaf of kind [k], or [start] when there is
    none: what a first-match-wins traversal would keep. *)
Definition first_body (k : Kind) (leaves : list (Kind * string))
  (start : string) : string :=
  hd start (map (fun l => decoded (snd l)) (filter (is_kind k) leaves)).

Definition decodable (leaf : Kind * string) : Prop :=
  exists s, Codec.b64_utf8 (snd leaf) = Ok s.

(** *** The gateway operations as data *)

(** The mail, draft and calendar operations with their arguments. *)
Inductive Operation : Type :=
| ListMessages (query : string) (max_results : Z)
    (label_ids : option (list string))
| GetMessage (message_id : string)
| SendEmail (to subject body : string) (cc bcc : option string)
| CreateDraft (to subject body : string) (cc bcc : option string)
| UpdateDraft (draft_id to subject body : string) (cc bcc : option string)
| DeleteDraft (draft_id : string)
| SendDraft (draft_id : string)
| ModifyMessage (message_id : string)
    (add_labels remove_labels : option (list string))
| CreateCalendarEvent (event_data : Dict)
| ListCalendarEvents (time_min time_max : option string) (max_results : Z)
    (single_events : bool) (order_by : option string)
| GetCalendarEvent (event_id : string)
| UpdateCalendarEvent (event_id : string) (event_data : Dict)
| DeleteCalendarEvent (event_id : string).

(** What an operation hands back to its caller. *)
Inductive Returned : Type :=
| Resources (l : list Dict)
| MessageOrNone (m : option Message)
| ResourceOrNone (d : option Dict)
| Flag (b : bool).

Definition perform (env : Env) (service : Capability) (op : Operation)
  : M Returned :=
  match op with
  | ListMessages q n l =>
      r <- list_messages service q n l ;; ret (Resources r)
  | GetMessage id => r <- get_message service id ;; ret (MessageOrNone r)
  | SendEmail to subject body cc bcc =>
      r <- send_email env service to subject body cc bcc ;;
      ret (ResourceOrNone r)
  | CreateDraft to subject body cc bcc =>
      r <- create_draft env service to subject body cc bcc ;;
      ret (ResourceOrNone r)
  | UpdateDraft id to subject body cc bcc =>
      r <- update_draft env service id to subject body cc bcc ;;
      ret (ResourceOrNone r)
  | DeleteDraft id => r <- delete_draft service id ;; ret (Flag r)
  | SendDraft id => r <- send_draft service id ;; ret (ResourceOrNone r)
  | ModifyMessage id add remove =>
      r <- modify_message service id add remove ;; ret (ResourceOrNone r)
  | CreateCalendarEvent d =>
      r <- create_calendar_event service d ;; ret (ResourceOrNone r)
  | ListCalendarEvents tmin tmax n single order =>
      r <- list_calendar_events service tmin tmax n single order ;;
      ret (Resources r)
  | GetCalendarEvent id =>
      r <- get_calendar_event service id ;; ret (ResourceOrNone r)
  | UpdateCalendarEvent id d =>
      r <- update_calendar_event service id d ;; ret (ResourceOrNone r)
  | DeleteCalendarEvent id =>
      r <- delete_calendar_event service id ;; ret (Flag r)
  end.

Definition failure {A} (r : result A) : option PyExc :=
  match r with Ok _ => None | Raise e => Some e end.

(** The exception, if any, raised while the MIME message of an operation
    is built and encoded; the operations that send no message build
    none. *)
Definition mime_failure (env : Env) (op : Operation) : option PyExc :=
  match op with
  | SendEmail to subject body cc bcc
  | CreateDraft to subject body cc bcc
  | UpdateDraft _ to subject body cc bcc =>
      failure (mime_raw env to subject body cc bcc)
  | _ => None
  end.

(** The exception, if any, with which the provider answers the round
    trip of an operation.  There is no round trip, hence no answer, when
    the message to send could not be built. *)
Definition provider_failure (env : Env) (service : Capability)
  (op : Operation) : option PyExc :=
  match op with
  | ListMessages q n l =>
      failure (messages_list service q n (some_nonempty l))
  | GetMessage id => failure (messages_get service id)
  | SendEmail to subject body cc bcc =>
      match mime_raw env to subject body cc bcc with
      | Ok raw => failure (messages_send service raw)
      | Raise _ => None
      end
  | CreateDraft to subject body cc bcc =>
      match mime_raw env to subject body cc bcc with
      | Ok raw => failure (drafts_create service raw)
      | Raise _ => None
      end
  | UpdateDraft id to subject body cc bcc =>
      match mime_raw env to subject body cc bcc with
      | Ok raw => failure (drafts_update service id raw)
      | Raise _ => None
      end
  | DeleteDraft id => failure (drafts_delete service id)
  | SendDraft id => failure (drafts_send service id)
  | ModifyMessage id add remove =>
      failure (messages_modify service id (some_nonempty add)
                 (some_nonempty remove))
  | CreateCalendarEvent d => failure (events_insert service d)
  | ListCalendarEvents tmin tmax n single order =>
      failure (events_list service tmin tmax n single order)
  | GetCalendarEvent id => failure (events_get service id)
  | UpdateCalendarEvent id d => failure (events_update service id d)
  | DeleteCalendarEvent id => failure (events_delete service id)
  end.

(** The value an operation returns in place of a result. *)
Definition sentinel (op : Operation) : Returned :=
  match op with
  | ListMessages _ _ _ | ListCalendarEvents _ _ _ _ _ => Resources []
  | GetMessage _ => MessageOrNone None
  | DeleteDraft _ | DeleteCalendarEvent _ => Flag false
  | _ => ResourceOrNone None
  end.

(** *** States and effects of the per-message endpoints *)

(** A handler's view of the state it is served. *)
Definition fresh (st : St) : St := mkSt (db st) [] (utcnow st) (out st).

(** The state after a flag change has been committed. *)
Definition committed (new : Email.t) (st : St) : St :=
  mkSt (mkDB (users (db st)) (replace_email new (emails (db st))))
    [] (utcnow st) (out st ++ [Commit]).

Definition starred_labels (starred : bool) : option (list string) :=
  if starred then Some ["STARRED"] else None.

(** The effects of [try: build_service; modify_message  except: print]. *)
Definition mirroring (env : Env) (user : User.t) (message_id : string)
  (add remove : option (list string)) (line : string) : list Event :=
  match build env "gmail" "v1"
          (mkCredentials (User.access_token user) (User.refresh_token user))
  with
  | Raise e => [Print line e]
  | Ok service =>
      let req := ReqMessagesModify message_id (some_nonempty add)
                   (some_nonempty remove) in
      match messages_modify service message_id (some_nonempty add)
              (some_nonempty remove)
      with
      | Ok _ => [Call req]
      | Raise e =>
          if is_HttpError e
          then [Call req; Print "Error modifying message: " e]
          else [Call req; Print line e]
      end
  end.

(** *** Frames and extensions of a sync *)

Definition message_ids (d : DB) : list string :=
  map Email.message_id (emails d).

Definition is_add (c : Change) : bool :=
  match c with AddEmail _ => true | _ => false end.

Definition fetched (id : string) : Event := Call (ReqMessagesGet id).

(** What an iteration leaves alone: the committed rows and the clock; it
    only ever adds rows to the session, and it fetches a message only
    when no row holds its id. *)
Record framed (st st' : St) : Prop := mkFramed {
  same_db : db st' = db st;
  same_clock : utcnow st' = utcnow st;
  adds_only : forallb is_add (pending st) = true ->
              forallb is_add (pending st') = true;
  fetches_new : forall id,
      In (fetched id) (out st') ->
      In (fetched id) (out st)
      \/ find (by_message_id id) (emails (db st)) = None
}.

(** How a group of inserts extends the tables: users untouched, rows
    appended whose message ids no earlier row holds, uniqueness kept. *)
Record extended (d d' : DB) : Prop := mkExtended {
  same_users : users d' = users d;
  appended : exists new,
      emails d' = (emails d ++ new)%list
      /\ forall r, In r new -> ~ In (Email.message_id r) (message_ids d);
  keeps_unique : NoDup (message_ids d) -> NoDup (message_ids d')
}.

Definition fetches_only_new (st st' : St) : Prop :=
  forall id, In (fetched id) (out st') ->
             In (fetched id) (out st)
             \/ find (by_message_id id) (emails (db st)) = None.

(** Any number of sync requests, each with its own view of the provider,
    served one after the other. *)
Definition sync_all (requests : list (Env * string)) (st : St) : St :=
  fold_left (fun s rq => snd (serve (sync_emails (fst rq) (snd rq)) s))
    requests st.

(** *** The upsert of the callback *)

(** The row [update_existing_user] leaves in the session: tokens always
    replaced, provider id and name filled in only when empty. *)
Definition refreshed (u : User.t) (credentials : Credentials)
  (user_info : Dict) : result User.t :=
  let u1 := with_tokens (token credentials) (refresh_token credentials) u in
  match (if truthy (User.google_id u1) then Ok u1
         else match dict_get user_info "id" with
              | Some g => Ok (with_google_id (Some g) u1)
              | None => Raise (KeyError "id")
              end)
  with
  | Ok u2 =>
      Ok (if truthy (User.name u2) then u2
          else with_name (Some (dict_get_default user_info "name" "")) u2)
  | Raise e => Raise e
  end.

(** The state after a successful callback. *)
Definition signed_in (rows : list User.t) (code : string)
  (credentials : Credentials) (st : St) : St :=
  mkSt (mkDB rows (emails (db st))) [] (utcnow st)
    (out st ++ [Call (ReqFetchToken code);
                Call (ReqUserInfo (token credentials)); Commit]).

(** *** Failures of a sync *)

(** The exception, if any, that processing one listed message raises
    when the committed rows are [d]: a listing entry without an id, a
    fetch that fails with anything but an [HttpError], or a fetched
    message that does not parse.  A message whose id a row holds, and one
    whose fetch the gateway swallows, raise nothing. *)
Definition processing (env : Env) (service : Capability) (d : DB)
  (msg : Dict) : option PyExc :=
  match dict_get msg "id" with
  | None => Some (KeyError "id")
  | Some id =>
      match find (by_message_id id) (emails d) with
      | Some _ => None
      | None =>
          match messages_get service id with
          | Raise e => if is_HttpError e then None else Some e
          | Ok full =>
              if message_is_empty full then None
              else failure (parse_message env full)
          end
      end
  end.

(** The exception of the first listed message whose processing raises. *)
Fixpoint first_raise (env : Env) (service : Capability) (d : DB)
  (msgs : list Dict) : option PyExc :=
  match msgs with
  | [] => None
  | msg :: rest =>
      match processing env service d msg with
      | Some e => Some e
      | None => first_raise env service d rest
      end
  end.

(** The effects from [st] to [st'] hold no commit. *)
Definition calm (st st' : St) : Prop :=
  exists evs, out st' = (out st ++ evs)%list /\ ~ In Commit evs.

End Notions.

From Stdlib Require Import Sorting.Sorted Sorting.Permutation.

(* ===================================================================== *)
(** ** src/routes/email.py, draft.py and user.py: the other endpoints    *)
(* ===================================================================== *)

Module Endpoints.
Import Database Service Routes.
Open Scope monad_scope.

(** *** GET /users/me *)

Definition get_current_user (email : string) : M User.t :=
  user <- first_user (by_email email) ;;
  match user with
  | None => raise (HTTPException 404 "User not found")
  | Some user => ret user
  end.

(** *** GET /emails *)

Module EmailListResponse.
Record t : Type := mk {
  emails : list Email.t;
  total : nat;
  page : Z;
  per_page : Z
}.
End EmailListResponse.

(** [Email.subject.contains(q) | Email.sender.contains(q)
     | Email.body_text.contains(q)]; [contains] is the store's own
    containment test on text columns. *)
Definition matches (contains : string -> string -> bool) (query : string)
  (r : Email.t) : bool :=
  contains (Email.subject r) query
  || contains (Email.sender r) query
  || contains (Email.body_text r) query.

(** The rows [email_query] selects: the user's rows that are not
    deleted, narrowed by the text filter when [query] is truthy. *)
Definition selected (contains : string -> string -> bool) (user : User.t)
  (query : option string) (r : Email.t) : bool :=
  (Email.user_id r =? User.id user) && negb (Email.is_deleted r)
  && match query with
     | Some q => if nonempty q then matches contains q r else true
     | None => true
     end.

(** [order_by(Email.received_at.desc())] names no second key: the store
    returns the selected rows newest first, and places rows with equal
    [received_at] as it pleases, anew at each query.  An [Ordering] is
    what the store does to the selected rows of one query. *)
Definition Ordering : Type := list Email.t -> list Email.t.

(** [q.offset(offset).limit(per_page).all()]. *)
Definition offset_limit (offset per_page : Z) (l : list Email.t)
  : list Email.t :=
  firstn (Z.to_nat per_page) (skipn (Z.to_nat offset) l).

(** A SELECT over the committed rows of [emails]. *)
Definition select_emails (p : Email.t -> bool) : M (list Email.t) :=
  fun st => (Ok (filter p (emails (db st))), st).

Definition get_emails (ordering : Ordering)
  (contains : string -> string -> bool)
  (email : string) (page per_page : Z) (query : option string)
  : M EmailListResponse.t :=
  user <- first_user (by_email email) ;;
  match user with
  | None => raise (HTTPException 404 "User not found")
  | Some user =>
      let offset := (page - 1) * per_page in
      matching <- select_emails (selected contains user query) ;;
      let total := List.length matching in
      rows <- select_emails (selected contains user query) ;;
      let emails := offset_limit offset per_page (ordering rows) in
      ret (EmailListResponse.mk emails total page per_page)
  end.

(** *** POST /emails/send and the draft endpoints *)

(** The JSON objects these endpoints answer with. *)
Inductive Reply : Type :=
| Sent (message message_id : string)
| Drafted (message draft_id : string) (draft : Dict)
| Done (message : string).

(** Truthiness of what a gateway operation returned. *)
Definition present (result : option Dict) : option Dict :=
  match result with
  | Some (kv :: d) => Some (kv :: d)
  | _ => None
  end.

Definition send_email_route (env : Env) (email to subject body : string)
  : M Reply :=
  user <- first_user (by_email email) ;;
  match user with
  | None => raise (HTTPException 404 "User not found")
  | Some user =>
      try_except
        (service <- build_service env (User.access_token user)
                      (User.refresh_token user) "gmail" "v1" ;;
         result <- send_email env service to subject body None None ;;
         match present result with
         | Some result =>
             id <- lift (dict_item result "id") ;;
             ret (Sent "Email sent successfully" id)
         | None => raise (HTTPException 500 "Failed to send email")
         end)
        (fun e => raise (HTTPException 500 ("Send failed: " ++ str e)))
  end.

Definition create_draft_route (env : Env) (email to subject body : string)
  (cc bcc : option string) : M Reply :=
  user <- first_user (by_email email) ;;
  match user with
  | None => raise (HTTPException 404 "User not found")
  | Some user =>
      try_except
        (service <- build_service env (User.access_token user)
                      (User.refresh_token user) "gmail" "v1" ;;
         result <- create_draft env service to subject body cc bcc ;;
         match present result with
         | Some result =>
             id <- lift (dict_item result "id") ;;
             ret (Drafted "Draft created successfully" id result)
         | None => raise (HTTPException 500 "Failed to create draft")
         end)
        (fun e =>
           raise (HTTPException 500 ("Draft creation failed: " ++ str e)))
  end.

Definition update_draft_route (env : Env) (draft_id : string)
  (email to subject body : string) (cc bcc : option string) : M Reply :=
  user <- first_user (by_email email) ;;
  match user with
  | None => raise (HTTPException 404 "User not found")
  | Some user =>
      try_except
        (service <- build_service env (User.access_token user)
                      (User.refresh_token user) "gmail" "v1" ;;
         result <- update_draft env service draft_id to subject body
                     cc bcc ;;
         match present result with
         | Some result =>
             id <- lift (dict_item result "id") ;;
             ret (Drafted "Draft updated successfully" id result)
         | None => raise (HTTPException 500 "Failed to update draft")
         end)
        (fun e =>
           raise (HTTPException 500 ("Draft update failed: " ++ str e)))
  end.

Definition delete_draft_route (env : Env) (draft_id email : string)
  : M Reply :=
  user <- first_user (by_email email) ;;
  match user with
  | None => raise (HTTPException 404 "User not found")
  | Some user =>
      try_except
        (service <- build_service env (User.access_token user)
                      (User.refresh_token user) "gmail" "v1" ;;
         success <- delete_draft service draft_id ;;
         if success then ret (Done "Draft deleted successfully")
         else raise (HTTPException 500 "Failed to delete draft"))
        (fun e =>
           raise (HTTPException 500 ("Draft deletion failed: " ++ str e)))
  end.

Definition send_draft_route (env : Env) (draft_id email : string)
  : M Reply :=
  user <- first_user (by_email email) ;;
  match user with
  | None => raise (HTTPException 404 "User not found")
  | Some user =>
      try_except
        (service <- build_service env (User.access_token user)
                      (User.refresh_token user) "gmail" "v1" ;;
         result <- send_draft service draft_id ;;
         match present result with
         | Some result =>
             id <- lift (dict_item result "id") ;;
             ret (Sent "Draft sent successfully" id)
         | None => raise (HTTPException 500 "Failed to send draft")
         end)
        (fun e =>
           raise (HTTPException 500 ("Draft send failed: " ++ str e)))
  end.

End Endpoints.

(* ===================================================================== *)
(** ** Further notions used to state properties                          *)
(* ===================================================================== *)

Module Handlers.
Import Exception ExceptionHandling.

(** The values the error bodies hold under [details]. *)
Inductive Json : Type :=
| JInt (n : Z)
| JStr (s : string).

(** The dict [create_error_response] builds: ["success"] and the object
    under ["error"]; [details] and [request_id] are keys that may be
    absent. *)
Record ErrorBody : Type := mkErrorBody {
  success : bool;
  e_message : string;
  e_code : string;
  e_status_code : Z;
  e_timestamp : string;
  e_details : option (list (string * Json));
  e_request_id : option string
}.

(** [ErrorResponse.create_error_response]; [utcnow_iso] stands for
    [datetime.utcnow().isoformat()]. *)
Definition create_error_response (utcnow_iso : string) (message : string)
  (status_code : Z) (error_code : string)
  (details : option (list (string * Json))) (request_id : option string)
  : ErrorBody :=
  mkErrorBody false message error_code status_code (utcnow_iso ++ "Z")
    (match details with
     | Some (kv :: rest) => Some (kv :: rest)
     | _ => None
     end)
    (if truthy request_id then request_id else None).

Record JSONResponse : Type := mkJSONResponse {
  http_status : Z;
  body : ErrorBody
}.

(** The handlers take [str(id(request))] as [request_id]. *)
Definition api_exception_handler (utcnow_iso request_id : string)
  (exc : BaseAPIException) : JSONResponse :=
  mkJSONResponse (status_code exc)
    (create_error_response utcnow_iso (message exc) (status_code exc)
       (error_code exc)
       (Some (map (fun kv => (fst kv, JInt (snd kv))) (details exc)))
       (Some request_id)).

(** [original] stands for [str(exc)]. *)
Definition google_api_exception_handler (utcnow_iso request_id : string)
  (original : string) (exc : HttpErr) : JSONResponse :=
  let error_details :=
    [("status_code", JInt (resp_status exc));
     ("reason", JStr (resp_reason exc));
     ("original_error", JStr original)] in
  if resp_status exc =? 401 then
    mkJSONResponse 401
      (create_error_response utcnow_iso "Google API authentication failed"
         401 "GOOGLE_API_AUTH_ERROR" (Some error_details) (Some request_id))
  else if resp_status exc =? 403 then
    mkJSONResponse 403
      (create_error_response utcnow_iso "Google API access forbidden"
         403 "GOOGLE_API_FORBIDDEN" (Some error_details) (Some request_id))
  else if resp_status exc =? 429 then
    mkJSONResponse 429
      (create_error_response utcnow_iso "Google API quota exceeded"
         429 "GOOGLE_API_QUOTA_EXCEEDED" (Some error_details)
         (Some request_id))
  else if resp_status exc =? 404 then
    mkJSONResponse 404
      (create_error_response utcnow_iso "Google API resource not found"
         404 "GOOGLE_API_NOT_FOUND" (Some error_details) (Some request_id))
  else
    mkJSONResponse 500
      (create_error_response utcnow_iso "Google API error occurred"
         500 "GOOGLE_API_ERROR" (Some error_details) (Some request_id)).

Definition request_exception_handler (utcnow_iso request_id : string)
  (exc : RequestException) : JSONResponse :=
  let details := Some [("original_error", JStr (req_str exc))] in
  if isinstance_Timeout (req_class exc) then
    mkJSONResponse 504
      (create_error_response utcnow_iso "External service timeout"
         504 "EXTERNAL_SERVICE_TIMEOUT" details (Some request_id))
  else if isinstance_ConnectionError (req_class exc) then
    mkJSONResponse 503
      (create_error_response utcnow_iso "External service connection error"
         503 "EXTERNAL_SERVICE_CONNECTION_ERROR" details (Some request_id))
  else
    mkJSONResponse 500
      (create_error_response utcnow_iso "External service error"
         500 "EXTERNAL_SERVICE_ERROR" details (Some request_id)).

End Handlers.

Module MoreNotions.
Import Database Service Routes Notions Endpoints.

(** The order of a listing: the first of two rows was received no
    earlier than the second. *)
Definition newer_or_same (a b : Email.t) : Prop :=
  Email.received_at b <= Email.received_at a.

(** What [ORDER BY received_at DESC] guarantees of the store: the rows
    it returns are the selected rows, newest first. *)
Record orders_newest_first (ordering : Ordering) : Prop :=
  mkOrdersNewestFirst {
    same_rows : forall l, Permutation (ordering l) l;
    newest_first : forall l, StronglySorted newer_or_same (ordering l)
  }.

(** The full ordered result one query cuts its page from. *)
Definition listing (ordering : Ordering)
  (contains : string -> string -> bool) (user : User.t)
  (query : option string) (d : DB) : list Email.t :=
  ordering (filter (selected contains user query) (emails d)).

(** No two of the rows a query selects were received at the same time. *)
Definition distinct_times (contains : string -> string -> bool)
  (user : User.t) (query : option string) (d : DB) : Prop :=
  NoDup (map Email.received_at
           (filter (selected contains user query) (emails d))).

(** The endpoints that only relay a request to the provider. *)
Inductive Relay : Type :=
| RelaySend (email to subject body : string)
| RelayCreateDraft (email to subject body : string) (cc bcc : option string)
| RelayUpdateDraft (draft_id email to subject body : string)
    (cc bcc : option string)
| RelayDeleteDraft (draft_id email : string)
| RelaySendDraft (draft_id email : string).

Definition relay (env : Env) (c : Relay) : M Reply :=
  match c with
  | RelaySend email to subject body =>
      send_email_route env email to subject body
  | RelayCreateDraft email to subject body cc bcc =>
      create_draft_route env email to subject body cc bcc
  | RelayUpdateDraft id email to subject body cc bcc =>
      update_draft_route env id email to subject body cc bcc
  | RelayDeleteDraft id email => delete_draft_route env id email
  | RelaySendDraft id email => send_draft_route env id email
  end.

(** The endpoints that act on one mirrored message. *)
Inductive MessageCall : Type := Fetch | Toggle | Star | Unstar | Delete.

Definition message_endpoint (env : Env) (c : MessageCall) (email_id : Z)
  (email : string) : M Response :=
  match c with
  | Fetch => get_email email_id email
  | Toggle => toggle_star_email env email_id email
  | Star => star_email env email_id email
  | Unstar => unstar_email env email_id email
  | Delete => delete_email email_id email
  end.

(** The provider ids the users table holds ([NULL] holds none). *)
Definition google_ids (rows : list User.t) : list string :=
  flat_map (fun r => match User.google_id r with
                     | Some g => [g]
                     | None => []
                     end) rows.

(** The constraints of the users table: unique primary key, unique
    email, unique provider id. *)
Record users_ok (rows : list User.t) : Prop := mkUsersOk {
  ids_unique : NoDup (map User.id rows);
  emails_unique : NoDup (map User.email rows);
  google_ids_unique : NoDup (google_ids rows)
}.

(** The change a callback flushes, when it gets as far as the commit. *)
Inductive Upsert (credentials : Credentials) (info : Dict) (rows : list User.t)
  : Change -> Prop :=
| Refresh u u' email :
    dict_get info "email" = Some email ->
    find (by_email email) rows = Some u ->
    refreshed u credentials info = Ok u' ->
    Upsert credentials info rows (DirtyUser u u')
| Create email g :
    dict_get info "email" = Some email ->
    find (by_email email) rows = None ->
    dict_get info "id" = Some g ->
    Upsert credentials info rows
      (AddUser (User.mk 0 email (Some (dict_get_default info "name" ""))
                  (Some g) (token credentials) (refresh_token credentials)
                  0 true)).

Definition is_session_event (ev : Event) : bool :=
  match ev with Commit | Rollback => true | _ => false end.

(** Pending inserts of mirror rows built for [user] by [new_email]. *)
Definition adds_for (user : User.t) (cs : list Change) : Prop :=
  Forall (fun c => exists p, c = AddEmail (new_email user p)) cs.

(** A mirror row as an insert for [user] committed at [now] leaves it. *)
Definition added_by (user : User.t) (now : Z) (r : Email.t) : Prop :=
  Email.user_id r = User.id user
  /\ Email.is_deleted r = false
  /\ Email.created_at r = now.

(** The provider answers a fetch with a message that carries the id
    asked for, when it carries one. *)
Definition echoes_ids (env : Env) : Prop :=
  forall name version credentials service id full id',
    build env name version credentials = Ok service ->
    messages_get service id = Ok full ->
    msg_id full = Some id' -> id' = id.

(** A fetch that makes [sync_message] move on without a row: the gateway
    caught an [HttpError], or the message is the empty dict. *)
Definition skipped (service : Capability) (id : string) : Prop :=
  match messages_get service id with
  | Ok full => message_is_empty full = true
  | Raise e => is_HttpError e = true
  end.

(** A listed message that an iteration passes over: a row holds its id,
    or its fetch is skipped; [handled] adds the ones with an insert among
    the pending changes [cs]. *)
Definition settled (service : Capability) (d : DB) (msg : Dict) : Prop :=
  exists id, dict_get msg "id" = Some id
             /\ (In id (message_ids d) \/ skipped service id).

Definition handled (service : Capability) (d : DB) (cs : list Change)
  (msg : Dict) : Prop :=
  exists id, dict_get msg "id" = Some id
             /\ (In id (message_ids d) \/ skipped service id
                 \/ exists e, In (AddEmail e) cs
                              /\ Email.message_id e = id).

(** A computation that leaves the database session alone: it neither
    changes the committed rows nor the pending changes, and among its
    effects there is no commit and no rollback. *)
Definition quiet {A} (m : M A) : Prop :=
  forall st r st',
    m st = (r, st') ->
    db st' = db st /\ pending st' = pending st /\ utcnow st' = utcnow st
    /\ exists evs, out st' = (out st ++ evs)%list
                   /\ existsb is_session_event evs = false.

End MoreNotions.

(* ===================================================================== *)
(** ** Further concrete data                                             *)
(* ===================================================================== *)

Module MoreSamples.
Import Database Service Routes.

(** Ada's inbox with [n] messages, ids 1 to n, received at times 1 to n. *)
Definition inbox_row (i : nat) : Email.t :=
  Email.mk (Z.of_nat i) ("m" ++ string_of_nat i) 1 "t" "Subject"
    "x@example.com" "ada@example.com" "text" "" false false false []
    (Z.of_nat i) 0.

Definition inbox (n : nat) : St :=
  mkSt (mkDB [Samples.ada] (map inbox_row (seq 1 n))) [] 100 [].

(** A store that leaves rows with equal timestamps in table order. *)
Fixpoint insert_desc (r : Email.t) (l : list Email.t) : list Email.t :=
  match l with
  | [] => [r]
  | x :: xs =>
      if Email.received_at x <=? Email.received_at r then r :: x :: xs
      else x :: insert_desc r xs
  end.

Definition table_order : Endpoints.Ordering := fold_right insert_desc [].

(** A store that leaves them in reverse table order. *)
Definition reverse_table_order : Endpoints.Ordering :=
  fun l => table_order (rev l).

(** [text LIKE pattern] as a store with case-sensitive comparison and no
    escape character evaluates it: [%] matches any run of characters, [_]
    any one character. *)
Fixpoint like (pattern : string) : string -> bool :=
  match pattern with
  | EmptyString =>
      fun text => match text with EmptyString => true | _ => false end
  | String c rest =>
      if Ascii.eqb c "%"%char then
        fix any (text : string) : bool :=
          like rest text
          || match text with
             | EmptyString => false
             | String _ text' => any text'
             end
      else if Ascii.eqb c "_"%char then
        fun text =>
          match text with
          | EmptyString => false
          | String _ text' => like rest text'
          end
      else
        fun text =>
          match text with
          | EmptyString => false
          | String d text' => Ascii.eqb c d && like rest text'
          end
  end.

(** [column.contains(query)] is [column LIKE '%' || query || '%'], with
    the wildcards of [query] left as they are. *)
Definition like_contains (column query : string) : bool :=
  like ("%" ++ query ++ "%") column.

(** Pairwise distinct integers, decided. *)
Fixpoint distinctb (l : list Z) : bool :=
  match l with
  | [] => true
  | x :: xs => negb (existsb (Z.eqb x) xs) && distinctb xs
  end.

End MoreSamples.

(* ===================================================================== *)
(** * Properties                                                         *)
(* ===================================================================== *)

(** ** The error table of the conversion utilities *)

Module ErrorTable.
Import Exception ExceptionHandling.

Lemma status_other (s : Z) :
  s <> 401 -> s <> 403 -> s <> 429 -> s <> 404 ->
  (s =? 401) = false /\ (s =? 403) = false /\ (s =? 429) = false
  /\ (s =? 404) = false.
Proof. intros; repeat split; apply Z.eqb_neq; assumption. Qed.

(** C1, as the code has it: 401, 403 and 429 map to [InvalidTokenError],
    [AuthorizationError] and [GmailQuotaExceededError]; a timeout maps to
    [ExternalServiceTimeoutError] and a connection failure that is not a
    timeout to [ExternalServiceError]; 404 maps to the generic
    [GmailAPIError] (status 500) with a not-found message naming the
    operation and no details; every other status maps to [GmailAPIError]
    whose details carry the raw status and nothing of the body. *)
Theorem error_table_as_implemented
  (reason body operation service_name text : string) (s : Z)
  (rc : RequestExcClass) :
  let raised st := handle_google_api_error (mkHttpErr st reason body)
                     operation in
  let raised_req := handle_request_error (mkRequestException rc text)
                      service_name in
  (cls (raised 401) = cInvalidTokenError /\ status_code (raised 401) = 401)
  /\ (cls (raised 403) = cAuthorizationError
      /\ status_code (raised 403) = 403)
  /\ (cls (raised 429) = cGmailQuotaExceededError
      /\ status_code (raised 429) = 429)
  /\ raised 404
     = GmailAPIError ("Google API resource not found during " ++ operation)
         []
  /\ (s <> 401 -> s <> 403 -> s <> 429 -> s <> 404 ->
      raised s = GmailAPIError ("Google API error during " ++ operation)
                   [("status_code", s)])
  /\ (isinstance_Timeout rc = true ->
      cls raised_req = cExternalServiceTimeoutError
      /\ status_code raised_req = 504)
  /\ (isinstance_Timeout rc = false ->
      isinstance_ConnectionError rc = true ->
      raised_req = ExternalServiceError service_name
                     (Some "Connection error")
      /\ cls raised_req = cExternalServiceError
      /\ status_code raised_req = 503).
Proof.
  cbv zeta.
  split; [ split; reflexivity | ].
  split; [ split; reflexivity | ].
  split; [ split; reflexivity | ].
  split; [ reflexivity | ].
  split; [ | split ].
  - intros n1 n2 n3 n4.
    destruct (status_other s n1 n2 n3 n4) as (e1 & e2 & e3 & e4).
    unfold handle_google_api_error; cbn [resp_status].
    now rewrite e1, e2, e3, e4.
  - intros Ht. unfold handle_request_error; cbn [req_class].
    rewrite Ht. split; reflexivity.
  - intros Ht Hc. unfold handle_request_error; cbn [req_class].
    rewrite Ht, Hc. repeat split.
Qed.

Lemma error_table_witness :
  handle_google_api_error (mkHttpErr 500 "Internal" "oops") "sync"
  = GmailAPIError "Google API error during sync" [("status_code", 500)]
  /\ cls (handle_request_error
            (mkRequestException rReadTimeout "read timed out") "gmail")
     = cExternalServiceTimeoutError
  /\ cls (handle_request_error
            (mkRequestException rConnectionError "refused") "gmail")
     = cExternalServiceError.
Proof.
  pose proof (error_table_as_implemented "Internal" "oops" "sync" "gmail"
                "read timed out" 500 rReadTimeout) as T.
  pose proof (error_table_as_implemented "Internal" "oops" "sync" "gmail"
                "refused" 500 rConnectionError) as U.
  cbv zeta in T, U.
  destruct T as (_ & _ & _ & _ & T5 & T6 & _).
  destruct U as (_ & _ & _ & _ & _ & _ & U7).
  split; [ apply T5; discriminate | ].
  split; [ apply T6; reflexivity | ].
  apply U7; reflexivity.
Defined.

(** C1 fails as stated: a 404 from the provider is converted to the
    generic [GmailAPIError], which is none of the not-found classes and
    reports status 500; and two provider errors that differ only in their
    body are converted to the same exception. *)
Lemma not_found_becomes_generic_error :
  cls (handle_google_api_error Samples.not_found_response "get_message")
  = cGmailAPIError
  /\ is_not_found_class
       (cls (handle_google_api_error Samples.not_found_response
               "get_message")) = false
  /\ status_code
       (handle_google_api_error Samples.not_found_response "get_message")
     = 500
  /\ is_not_found_class (cls (EmailNotFoundError 7)) = true
  /\ status_code (EmailNotFoundError 7) = 404
  /\ handle_google_api_error (mkHttpErr 500 "Internal" "body one") "send"
     = handle_google_api_error (mkHttpErr 500 "Internal" "body two") "send".
Proof. repeat split. Qed.

End ErrorTable.

(** ** Body extraction *)

Module BodyExtraction.
Import Service Notions.

Lemma assign_all_app l1 l2 b :
  assign_all (l1 ++ l2)%list b
  = match assign_all l1 b with
    | Ok b' => assign_all l2 b'
    | Raise e => Raise e
    end.
Proof.
  revert b; induction l1 as [|x l1 IH]; intros b; cbn; [reflexivity|].
  destruct (assign b x); [apply IH | reflexivity].
Qed.

(** The traversal is the left-to-right visit of the text leaves. *)
Lemma extract_body_visits_leaves (p : Part) :
  forall b, extract_body p b = assign_all (text_leaves p) b.
Proof.
  induction p as [m d h ps IH] using Part_induction; intros b.
  cbn [extract_body text_leaves].
  destruct (mime_is (mkPart m d h ps) "text/plain").
  - destruct (nonempty (data_of (mkPart m d h ps))); cbn; [|reflexivity].
    unfold assign; cbn.
    destruct (Codec.b64_utf8 (data_of (mkPart m d h ps))); reflexivity.
  - destruct (mime_is (mkPart m d h ps) "text/html").
    + destruct (nonempty (data_of (mkPart m d h ps))); cbn; [|reflexivity].
      unfold assign; cbn.
      destruct (Codec.b64_utf8 (data_of (mkPart m d h ps))); reflexivity.
    + revert b. induction IH as [|x l Hx Hl IHl]; intros b; [reflexivity|].
      rewrite assign_all_app, <- Hx.
      destruct (extract_body x b); [apply IHl | reflexivity].
Qed.

Lemma last_default_irrelevant {A} (x : A) (l : list A) (d d' : A) :
  last (x :: l) d = last (x :: l) d'.
Proof.
  revert x; induction l as [|y l IH]; intros x; [reflexivity|].
  change (last (y :: l) d = last (y :: l) d'). apply IH.
Qed.

Lemma last_shift {A} (x : A) (l : list A) (d : A) :
  last (x :: l) d = last l x.
Proof.
  destruct l as [|y l]; [reflexivity|].
  change (last (y :: l) d = last (y :: l) x).
  apply last_default_irrelevant.
Qed.

(** When every leaf decodes, each body ends up holding the last leaf of
    its kind. *)
Lemma assign_all_last (leaves : list (Kind * string)) :
  Forall decodable leaves ->
  forall b,
    assign_all leaves b
    = Ok (last_body Plain leaves (fst b), last_body Html leaves (snd b)).
Proof.
  induction 1 as [|[k d] ls [s Hs] _ IH]; intros [t h].
  - reflexivity.
  - cbn [assign_all]. unfold assign. cbn [fst snd] in *. rewrite Hs.
    unfold last_body in *.
    destruct k; rewrite IH; cbn [filter is_kind fst snd map];
      rewrite last_shift; unfold decoded; rewrite Hs; reflexivity.
Qed.

(** C2, as the code has it: when every text leaf of a payload decodes,
    the parse keeps, for text/plain and likewise for text/html, the body
    of the last leaf of that type met in depth-first order; each later
    leaf of a type overwrites the body found before it. *)
Theorem extract_body_keeps_last_leaf (payload : Part) :
  Forall decodable (text_leaves payload) ->
  extract_body payload ("", "")
  = Ok (last_body Plain (text_leaves payload) "",
        last_body Html (text_leaves payload) "").
Proof.
  intros Hd. rewrite extract_body_visits_leaves.
  apply (assign_all_last _ Hd ("", "")).
Qed.

Lemma extract_body_keeps_last_leaf_witness :
  extract_body Samples.nested ("", "")
  = Ok (last_body Plain (text_leaves Samples.nested) "",
        last_body Html (text_leaves Samples.nested) "").
Proof.
  apply (extract_body_keeps_last_leaf Samples.nested).
  repeat constructor; eexists; vm_compute; reflexivity.
Defined.

(** C2 fails as stated: in a payload with two text/plain leaves that
    decode to "A" and then "B", the parse keeps "B", the later leaf, and
    not "A", the first one. *)
Lemma second_plain_leaf_overwrites_first :
  text_leaves Samples.two_plain = [(Plain, "QQ=="); (Plain, "Qg==")]
  /\ Codec.b64_utf8 "QQ==" = Ok "A"
  /\ Codec.b64_utf8 "Qg==" = Ok "B"
  /\ first_body Plain (text_leaves Samples.two_plain) "" = "A"
  /\ extract_body Samples.two_plain ("", "") = Ok ("B", "").
Proof. repeat split. Qed.

End BodyExtraction.

(** ** The gateway's handling of provider failures *)

Module Gateway.
Import Database Service Notions.
Open Scope monad_scope.

Lemma log_log st a b : log (log st a) b = log st (a ++ b).
Proof. unfold log; cbn. now rewrite <- app_assoc. Qed.

(** Every mail and calendar operation has this shape: one round trip,
    whose [HttpError] alone is caught. *)
Lemma guarded_call {A B} (req : Request) (outcome : result A) (f : A -> B)
  (line : string) (sentinel : B) (st : St) :
  try_except_HttpError
    (r <- execute req outcome ;; ret (f r))
    (fun e => print line e ;;; ret sentinel) st
  = match outcome with
    | Ok r => (Ok (f r), log st [Call req])
    | Raise e =>
        if is_HttpError e
        then (Ok sentinel, log st [Call req; Print line e])
        else (Raise e, log st [Call req])
    end.
Proof.
  unfold try_except_HttpError, bind, execute, emit, lift, ret, print, emit.
  destruct outcome as [r|e]; cbn; [reflexivity|].
  destruct (is_HttpError e); [|reflexivity].
  now rewrite log_log.
Qed.

(** The three operations that send a message build it first, inside the
    same [try]. *)
Lemma guarded_send {A B} (raw : result string) (req : string -> Request)
  (outcome : string -> result A) (f : A -> B) (line : string)
  (sentinel : B) (st : St) :
  try_except_HttpError
    (raw_message <- lift raw ;;
     r <- execute (req raw_message) (outcome raw_message) ;; ret (f r))
    (fun e => print line e ;;; ret sentinel) st
  = match raw with
    | Ok raw_message =>
        match outcome raw_message with
        | Ok r => (Ok (f r), log st [Call (req raw_message)])
        | Raise e =>
            if is_HttpError e
            then (Ok sentinel,
                  log st [Call (req raw_message); Print line e])
            else (Raise e, log st [Call (req raw_message)])
        end
    | Raise e =>
        if is_HttpError e then (Ok sentinel, log st [Print line e])
        else (Raise e, st)
    end.
Proof.
  destruct raw as [raw_message|e].
  - rewrite <- guarded_call. reflexivity.
  - unfold try_except_HttpError, bind, lift, print, emit, ret.
    destruct (is_HttpError e); reflexivity.
Qed.

Lemma bind_run {A B} (m : M A) (k : A -> M B) (st : St) :
  bind m k st
  = match m st with
    | (Ok a, st') => k a st'
    | (Raise e, st') => (Raise e, st')
    end.
Proof. reflexivity. Qed.

Ltac guarded :=
  unfold perform, list_messages, get_message, send_email, create_draft,
    update_draft, delete_draft, send_draft, modify_message,
    create_calendar_event, list_calendar_events, get_calendar_event,
    update_calendar_event, delete_calendar_event;
  cbv zeta; rewrite bind_run;
  first [rewrite guarded_call | rewrite guarded_send].

(** The outcome of an operation, by the provider's answer, once its
    message, if it sends one, is built. *)
Lemma perform_cases (env : Env) (service : Capability) (op : Operation)
  (st : St) :
  mime_failure env op = None ->
  exists req line,
    match provider_failure env service op with
    | None => exists v, perform env service op st
                        = (Ok v, log st [Call req])
    | Some e =>
        perform env service op st
        = if is_HttpError e
          then (Ok (sentinel op), log st [Call req; Print line e])
          else (Raise e, log st [Call req])
    end.
Proof.
  destruct op; cbn [provider_failure mime_failure sentinel]; intros Hm;
    guarded;
    try match goal with
        | |- context [mime_raw env ?t ?s ?b ?c ?d] =>
            destruct (mime_raw env t s b c d) as [raw|e0];
            [clear Hm | discriminate Hm]
        end;
    do 2 eexists;
    match goal with
    | |- context [failure ?r] =>
        destruct r as [v|e]; cbn [failure];
        [eexists; reflexivity | destruct (is_HttpError e); reflexivity]
    end.
Qed.

(** An operation whose message cannot be built makes no request. *)
Lemma perform_unbuilt (env : Env) (service : Capability) (op : Operation)
  (st : St) (e : PyExc) :
  mime_failure env op = Some e ->
  exists line,
    perform env service op st
    = if is_HttpError e
      then (Ok (sentinel op), log st [Print line e])
      else (Raise e, st).
Proof.
  destruct op; cbn [mime_failure sentinel]; try discriminate;
    intros Hm; guarded;
    match goal with
    | |- context [mime_raw env ?t ?s ?b ?c ?d] =>
        destruct (mime_raw env t s b c d) as [raw|e0];
        [discriminate Hm | injection Hm as ->]
    end;
    eexists; destruct (is_HttpError e); reflexivity.
Qed.

Lemma provider_failure_built env service op e :
  provider_failure env service op = Some e -> mime_failure env op = None.
Proof.
  destruct op; cbn [provider_failure mime_failure]; try reflexivity;
    match goal with
    | |- context [mime_raw env ?t ?s ?b ?c ?d] =>
        destruct (mime_raw env t s b c d); [reflexivity | discriminate]
    end.
Qed.

(** C8, as the code has it: when the provider answers the round trip of a
    mail, draft or calendar operation with an [HttpError], the operation
    prints the error and returns its empty value ([None], the empty list
    or [False]); any other exception, such as a transport timeout, is not
    caught and reaches the caller as it was raised. *)
Theorem gateway_catches_http_errors_only (env : Env) (service : Capability)
  (op : Operation) (st : St) (e : PyExc) :
  provider_failure env service op = Some e ->
  (is_HttpError e = true ->
   fst (perform env service op st) = Ok (sentinel op)
   /\ db (snd (perform env service op st)) = db st
   /\ exists req line,
        out (snd (perform env service op st))
        = (out st ++ [Call req; Print line e])%list)
  /\ (is_HttpError e = false ->
      fst (perform env service op st) = Raise e).
Proof.
  intros Hf.
  destruct (perform_cases env service op st
              (provider_failure_built env service op e Hf))
    as (req & line & Hp).
  rewrite Hf in Hp. rewrite Hp.
  split; intros He; rewrite He; [|reflexivity].
  split; [reflexivity|]. split; [reflexivity|].
  exists req, line. reflexivity.
Qed.

Lemma gateway_catches_http_errors_only_witness :
  fst (perform (Samples.env_with Samples.failing []) Samples.failing
         (GetMessage "m1") Samples.st0)
  = Ok (MessageOrNone None)
  /\ fst (perform (Samples.env_with Samples.unreachable [])
            Samples.unreachable (DeleteDraft "d1") Samples.st0)
     = Raise Samples.timed_out.
Proof.
  split.
  - apply (gateway_catches_http_errors_only
             (Samples.env_with Samples.failing []) Samples.failing
             (GetMessage "m1") Samples.st0
             (HttpError 500 "<HttpError 500>")); reflexivity.
  - apply (gateway_catches_http_errors_only
             (Samples.env_with Samples.unreachable []) Samples.unreachable
             (DeleteDraft "d1") Samples.st0 Samples.timed_out); reflexivity.
Defined.

(** C8 fails as stated: a transport timeout during [get_message] (and
    during [list_messages]) is not caught by the gateway; the call raises
    the timeout to its caller. *)
Lemma transport_fault_escapes_gateway :
  fst (get_message Samples.unreachable "m1" Samples.st0)
  = Raise Samples.timed_out
  /\ fst (list_messages Samples.unreachable "" 100 None Samples.st0)
     = Raise Samples.timed_out
  /\ is_HttpError Samples.timed_out = false.
Proof. repeat split. Qed.

End Gateway.

(** ** The per-message endpoints of the local mirror *)

Module Mirror.
Import Database Service Routes Notions.
Open Scope monad_scope.

Ltac run :=
  cbv beta iota; cbn [db users emails pending utcnow out fst snd].

(** *** Rows and their replacement *)

Lemma find_replace_email (p : Email.t -> bool) r r' rows :
  find p rows = Some r -> Email.id r' = Email.id r -> p r' = true ->
  find p (replace_email r' rows) = Some r'.
Proof.
  intros Hf Hid Hp. induction rows as [|x xs IH]; [discriminate|].
  cbn [replace_email map find] in *.
  destruct (Email.id x =? Email.id r') eqn:E.
  - now rewrite Hp.
  - destruct (p x) eqn:Px.
    + injection Hf as ->. rewrite Hid, Z.eqb_refl in E. discriminate.
    + apply IH, Hf.
Qed.

Lemma visible_inv email_id user r :
  visible email_id user r = true ->
  Email.id r = email_id /\ Email.user_id r = User.id user
  /\ Email.is_deleted r = false.
Proof.
  unfold visible. rewrite !andb_true_iff, negb_true_iff, !Z.eqb_eq. tauto.
Qed.

Lemma owned_inv email_id user r :
  owned email_id user r = true ->
  Email.id r = email_id /\ Email.user_id r = User.id user.
Proof. unfold owned. rewrite andb_true_iff, !Z.eqb_eq. tauto. Qed.

Lemma replace_email_id_absent e rows :
  ~ In (Email.id e) (map Email.id rows) -> replace_email e rows = rows.
Proof.
  induction rows as [|x xs IH]; intros Hn; [reflexivity|].
  cbn [replace_email map] in *.
  destruct (Email.id x =? Email.id e) eqn:E.
  - apply Z.eqb_eq in E. exfalso. apply Hn. left. exact E.
  - f_equal. apply IH. intros Hi. apply Hn. right. exact Hi.
Qed.

(** Writing a row back unchanged leaves the table as it was. *)
Lemma replace_email_same e rows :
  NoDup (map Email.id rows) -> In e rows -> replace_email e rows = rows.
Proof.
  induction rows as [|x xs IH]; intros Hnd Hin; [reflexivity|].
  cbn [map] in Hnd. inversion Hnd as [|? ? Hx Hxs]; subst.
  cbn [replace_email map].
  destruct Hin as [->|Hin].
  - rewrite Z.eqb_refl. f_equal. apply replace_email_id_absent, Hx.
  - destruct (Email.id x =? Email.id e) eqn:E.
    + apply Z.eqb_eq in E. exfalso. apply Hx. rewrite E.
      apply in_map, Hin.
    + f_equal. apply IH; assumption.
Qed.

(** With unique primary keys, a query by id meets the row holding it. *)
Lemma find_by_id (p : Email.t -> bool) rows r :
  NoDup (map Email.id rows) -> In r rows ->
  (forall x, p x = true -> Email.id x = Email.id r) ->
  find p rows = if p r then Some r else None.
Proof.
  intros Hnd Hin Hp. induction rows as [|x xs IH]; [contradiction|].
  cbn [map] in Hnd. inversion Hnd as [|? ? Hx Hxs]; subst.
  cbn [find]. destruct Hin as [->|Hin].
  - destruct (p r) eqn:Pr; [reflexivity|].
    destruct (find p xs) eqn:F; [|reflexivity].
    apply find_some in F. destruct F as [Fi Fp].
    exfalso. apply Hx. rewrite <- (Hp _ Fp). apply in_map, Fi.
  - destruct (p x) eqn:Px.
    + exfalso. apply Hx. rewrite (Hp _ Px). apply in_map, Hin.
    + apply IH; assumption.
Qed.

Lemma find_absent_id (p : Email.t -> bool) rows id :
  ~ In id (map Email.id rows) ->
  (forall x, p x = true -> Email.id x = id) ->
  find p rows = None.
Proof.
  intros Hn Hp. destruct (find p rows) eqn:F; [|reflexivity].
  apply find_some in F. destruct F as [Fi Fp].
  exfalso. apply Hn. rewrite <- (Hp _ Fp). apply in_map, Fi.
Qed.

(** *** The best-effort mirroring block *)

Lemma mirroring_run env user message_id add remove line st :
  try_except
    (service <- build_service env (User.access_token user)
                  (User.refresh_token user) "gmail" "v1" ;;
     modify_message service message_id add remove ;;; ret tt)
    (fun e => print line e) st
  = (Ok tt, log st (mirroring env user message_id add remove line)).
Proof.
  unfold mirroring, try_except, build_service, lift.
  unfold bind at 1.
  destruct (build env "gmail" "v1" _) as [service|e]; [|reflexivity].
  unfold bind at 1, modify_message. rewrite Gateway.guarded_call.
  destruct (messages_modify service message_id _ _) as [r|e];
    [reflexivity|].
  destruct (is_HttpError e); cbn; [reflexivity|].
  unfold print, emit. now rewrite Gateway.log_log.
Qed.

(** A flag assignment never fails to flush. *)
Lemma commit_flag_change {A} (old new : Email.t) (k : M A) (st : St) :
  Email.message_id new = Email.message_id old ->
  pending st = [] ->
  (dirty_email old new ;;; commit ;;; k) st = k (committed new st).
Proof.
  intros Hm Hp. unfold bind, dirty_email, note, commit. run.
  rewrite Hp. cbn [app flush apply_change].
  rewrite Hm, String.eqb_refl. reflexivity.
Qed.

Lemma serve_run {A} (h : M A) st r st' :
  h (fresh st) = (r, st') -> pending st' = [] -> serve h st = (r, st').
Proof.
  unfold serve, fresh. intros -> Hp. destruct st'; cbn in *. now subst.
Qed.

Lemma lookup_user {A} email (k : option User.t -> M A) st :
  (user <- first_user (by_email email) ;; k user) st
  = k (find (by_email email) (users (db st))) st.
Proof. reflexivity. Qed.

Lemma lookup_email {A} p (k : option Email.t -> M A) st :
  (r <- first_email p ;; k r) st = k (find p (emails (db st))) st.
Proof. reflexivity. Qed.

Ltac found Hu Hr :=
  rewrite lookup_user; cbn [fresh db]; rewrite Hu;
  rewrite lookup_email; cbn [fresh db]; rewrite Hr.

(** *** What each endpoint does *)

Lemma toggle_star_email_run env email_id email st user rec :
  find (by_email email) (users (db st)) = Some user ->
  find (visible email_id user) (emails (db st)) = Some rec ->
  let starred := negb (Email.is_starred rec) in
  serve (toggle_star_email env email_id email) st
  = (Ok (JsonStar ("Email " ++ (if starred then "starred" else "unstarred"))
           starred),
     mkSt (mkDB (users (db st))
             (replace_email (Email.with_is_starred starred rec)
                (emails (db st))))
       [] (utcnow st)
       (out st ++ Commit
          :: mirroring env user (Email.message_id rec)
               (starred_labels starred) (starred_labels (negb starred))
               "Failed to update star status in Gmail: ")).
Proof.
  intros Hu Hr starred. apply serve_run; [|reflexivity].
  unfold toggle_star_email. found Hu Hr.
  cbv zeta. rewrite commit_flag_change by reflexivity.
  cbn [Email.is_starred Email.with_is_starred Email.message_id].
  subst starred. destruct (Email.is_starred rec); cbn [negb];
    cbv beta iota; unfold bind at 1; rewrite mirroring_run;
    unfold committed, log, ret; cbn [fst snd db utcnow out pending];
    rewrite <- app_assoc; reflexivity.
Qed.

Lemma get_email_run email_id email st user rec :
  find (by_email email) (users (db st)) = Some user ->
  find (visible email_id user) (emails (db st)) = Some rec ->
  serve (get_email email_id email) st
  = if Email.is_read rec
    then (Ok (EmailRecord rec), fresh st)
    else (Ok (EmailRecord (Email.with_is_read true rec)),
          committed (Email.with_is_read true rec) st).
Proof.
  intros Hu Hr.
  destruct (Email.is_read rec) eqn:Hread;
    (apply serve_run; [|reflexivity]);
    unfold get_email; found Hu Hr; rewrite Hread; cbn [negb]; cbv zeta.
  - reflexivity.
  - rewrite commit_flag_change by reflexivity. reflexivity.
Qed.

Lemma delete_email_run email_id email st user rec :
  find (by_email email) (users (db st)) = Some user ->
  find (owned email_id user) (emails (db st)) = Some rec ->
  serve (delete_email email_id email) st
  = (Ok (JsonMessage "Email deleted"),
     committed (Email.with_is_deleted true rec) st).
Proof.
  intros Hu Hr. apply serve_run; [|reflexivity].
  unfold delete_email. found Hu Hr.
  cbv zeta. rewrite commit_flag_change by reflexivity. reflexivity.
Qed.

(** A request for a message that the query does not match. *)
Lemma not_found_run env email_id email st user :
  find (by_email email) (users (db st)) = Some user ->
  find (visible email_id user) (emails (db st)) = None ->
  let not_found := (Raise (HTTPException 404 "Email not found"), fresh st) in
  serve (get_email email_id email) st = not_found
  /\ serve (toggle_star_email env email_id email) st = not_found
  /\ serve (star_email env email_id email) st = not_found
  /\ serve (unstar_email env email_id email) st = not_found.
Proof.
  intros Hu Hr. cbv zeta.
  repeat split; (apply serve_run; [|reflexivity]);
    unfold get_email, toggle_star_email, star_email, unstar_email;
    found Hu Hr; reflexivity.
Qed.

Lemma star_email_run env email_id email st user rec :
  find (by_email email) (users (db st)) = Some user ->
  find (visible email_id user) (emails (db st)) = Some rec ->
  serve (star_email env email_id email) st
  = if Email.is_starred rec
    then (Ok (JsonStar "Email is already starred" true), fresh st)
    else (Ok (JsonStar "Email starred successfully" true),
          log (committed (Email.with_is_starred true rec) st)
            (mirroring env user (Email.message_id rec) (Some ["STARRED"])
               None "Failed to star email in Gmail: ")).
Proof.
  intros Hu Hr.
  destruct (Email.is_starred rec) eqn:Hs;
    (apply serve_run; [|reflexivity]);
    unfold star_email; found Hu Hr; rewrite Hs; cbv zeta.
  - reflexivity.
  - rewrite commit_flag_change by reflexivity.
    cbn [Email.with_is_starred Email.message_id].
    unfold bind at 1. rewrite mirroring_run. reflexivity.
Qed.

Lemma unstar_email_run env email_id email st user rec :
  find (by_email email) (users (db st)) = Some user ->
  find (visible email_id user) (emails (db st)) = Some rec ->
  serve (unstar_email env email_id email) st
  = if Email.is_starred rec
    then (Ok (JsonStar "Email unstarred successfully" false),
          log (committed (Email.with_is_starred false rec) st)
            (mirroring env user (Email.message_id rec) None
               (Some ["STARRED"]) "Failed to unstar email in Gmail: "))
    else (Ok (JsonStar "Email is not starred" false), fresh st).
Proof.
  intros Hu Hr.
  destruct (Email.is_starred rec) eqn:Hs;
    (apply serve_run; [|reflexivity]);
    unfold unstar_email; found Hu Hr; rewrite Hs; cbn [negb]; cbv zeta.
  - rewrite commit_flag_change by reflexivity.
    cbn [Email.with_is_starred Email.message_id].
    unfold bind at 1. rewrite mirroring_run. reflexivity.
  - reflexivity.
Qed.

Lemma some_nonempty_starred b :
  some_nonempty (starred_labels b) = starred_labels b.
Proof. now destruct b. Qed.

(** *** The claims *)

(** C6: a star toggle flips the local flag and commits it before the
    provider is contacted, and answers with the new flag whatever the
    provider does; when building the capability or the modify call fails,
    the failure is printed and nothing else happens. *)
Theorem toggle_star_survives_remote_failure
  (env : Env) (email_id : Z) (email : string) (st : St)
  (user : User.t) (rec : Email.t) :
  find (by_email email) (users (db st)) = Some user ->
  find (visible email_id user) (emails (db st)) = Some rec ->
  let starred := negb (Email.is_starred rec) in
  let flipped := Email.with_is_starred starred rec in
  let request := ReqMessagesModify (Email.message_id rec)
                   (starred_labels starred)
                   (starred_labels (negb starred)) in
  let r := serve (toggle_star_email env email_id email) st in
  fst r = Ok (JsonStar
                ("Email " ++ (if starred then "starred" else "unstarred"))
                starred)
  /\ emails (db (snd r)) = replace_email flipped (emails (db st))
  /\ find (visible email_id user) (emails (db (snd r))) = Some flipped
  /\ (exists tail, out (snd r) = (out st ++ Commit :: tail)%list)
  /\ (forall e,
        build env "gmail" "v1"
          (mkCredentials (User.access_token user) (User.refresh_token user))
        = Raise e ->
        out (snd r)
        = (out st
           ++ [Commit;
               Print "Failed to update star status in Gmail: " e])%list)
  /\ (forall service e,
        build env "gmail" "v1"
          (mkCredentials (User.access_token user) (User.refresh_token user))
        = Ok service ->
        messages_modify service (Email.message_id rec)
          (starred_labels starred) (starred_labels (negb starred))
        = Raise e ->
        out (snd r)
        = (out st
           ++ [Commit; Call request;
               Print (if is_HttpError e
                      then "Error modifying message: "
                      else "Failed to update star status in Gmail: ")
                 e])%list).
Proof.
  intros Hu Hr starred flipped request r. subst r.
  rewrite (toggle_star_email_run env email_id email st user rec Hu Hr).
  cbn [fst snd db emails out]. fold starred. fold flipped.
  split; [reflexivity|]. split; [reflexivity|].
  split.
  { apply (find_replace_email _ rec); [exact Hr | reflexivity |].
    destruct (visible_inv _ _ _ (proj2 (find_some _ _ Hr)))
      as (Hi & Hw & Hd).
    unfold visible, flipped. cbn. rewrite Hi, Hw, Hd, !Z.eqb_refl.
    reflexivity. }
  split; [eexists; reflexivity|].
  split.
  - intros e Hb. unfold mirroring. rewrite Hb. reflexivity.
  - intros service e Hb Hm. unfold mirroring. rewrite Hb.
    rewrite !some_nonempty_starred, Hm.
    destruct (is_HttpError e); reflexivity.
Qed.

Lemma toggle_star_survives_remote_failure_witness :
  fst (serve (toggle_star_email
                (Samples.env_with Samples.unreachable []) 1
                "ada@example.com") Samples.st0)
  = Ok (JsonStar "Email starred" true)
  /\ map Email.is_starred
       (emails (db (snd (serve (toggle_star_email
                                  (Samples.env_with Samples.unreachable [])
                                  1 "ada@example.com") Samples.st0))))
     = [true; true; false].
Proof.
  pose proof (toggle_star_survives_remote_failure
                (Samples.env_with Samples.unreachable []) 1
                "ada@example.com" Samples.st0 Samples.ada
                (Samples.mail 1 "m1" false false false)
                eq_refl eq_refl) as T.
  cbv zeta in T. destruct T as (T1 & T2 & _).
  split; [exact T1 | rewrite T2; reflexivity].
Defined.




(** C9: star/add on a message already starred, and star/remove on one
    not starred, answer with the flag as it is and leave the state as it
    was served: no row changes, nothing is committed and the provider is
    not called. *)
Theorem explicit_star_endpoints_are_idempotent
  (env : Env) (email_id : Z) (email : string) (st : St)
  (user : User.t) (rec : Email.t) :
  find (by_email email) (users (db st)) = Some user ->
  find (visible email_id user) (emails (db st)) = Some rec ->
  (Email.is_starred rec = true ->
   serve (star_email env email_id email) st
   = (Ok (JsonStar "Email is already starred" true),
      mkSt (db st) [] (utcnow st) (out st)))
  /\ (Email.is_starred rec = false ->
      serve (unstar_email env email_id email) st
      = (Ok (JsonStar "Email is not starred" false),
         mkSt (db st) [] (utcnow st) (out st))).
Proof.
  intros Hu Hr. split; intros Hs.
  - rewrite (star_email_run env email_id email st user rec Hu Hr), Hs.
    reflexivity.
  - rewrite (unstar_email_run env email_id email st user rec Hu Hr), Hs.
    reflexivity.
Qed.

Lemma explicit_star_endpoints_are_idempotent_witness :
  serve (star_email (Samples.env_with Samples.working []) 2
           "ada@example.com") Samples.st0
  = (Ok (JsonStar "Email is already starred" true), Samples.st0)
  /\ serve (unstar_email (Samples.env_with Samples.working []) 1
              "ada@example.com") Samples.st0
     = (Ok (JsonStar "Email is not starred" false), Samples.st0).
Proof.
  split.
  - apply (explicit_star_endpoints_are_idempotent
             (Samples.env_with Samples.working []) 2 "ada@example.com"
             Samples.st0 Samples.ada (Samples.mail 2 "m2" true true false)
             eq_refl eq_refl); reflexivity.
  - apply (explicit_star_endpoints_are_idempotent
             (Samples.env_with Samples.working []) 1 "ada@example.com"
             Samples.st0 Samples.ada (Samples.mail 1 "m1" false false false)
             eq_refl eq_refl); reflexivity.
Defined.

Lemma with_is_deleted_same rec :
  Email.is_deleted rec = true -> Email.with_is_deleted true rec = rec.
Proof. destruct rec; cbn; now intros ->. Qed.

(** C10: for a message whose deleted flag is set, the single-record
    fetch and the three star endpoints answer 404 "Email not found", the
    very answer they give for an id no row has, and change nothing; the
    delete endpoint still finds the row, succeeds, and leaves the tables
    as they were, flag set. *)
Theorem deleted_rows_are_hidden_but_deletable
  (env : Env) (email_id missing : Z) (email : string) (st : St)
  (user : User.t) (rec : Email.t) :
  find (by_email email) (users (db st)) = Some user ->
  NoDup (map Email.id (emails (db st))) ->
  In rec (emails (db st)) ->
  Email.id rec = email_id ->
  Email.user_id rec = User.id user ->
  Email.is_deleted rec = true ->
  ~ In missing (map Email.id (emails (db st))) ->
  let not_found :=
    (@Raise Response (HTTPException 404 "Email not found"),
     mkSt (db st) [] (utcnow st) (out st)) in
  (serve (get_email email_id email) st = not_found
   /\ serve (toggle_star_email env email_id email) st = not_found
   /\ serve (star_email env email_id email) st = not_found
   /\ serve (unstar_email env email_id email) st = not_found)
  /\ (serve (get_email missing email) st = not_found
      /\ serve (toggle_star_email env missing email) st = not_found
      /\ serve (star_email env missing email) st = not_found
      /\ serve (unstar_email env missing email) st = not_found)
  /\ serve (delete_email email_id email) st
     = (Ok (JsonMessage "Email deleted"),
        mkSt (db st) [] (utcnow st) (out st ++ [Commit])).
Proof.
  intros Hu Hnd Hin Hid Hown Hdel Hmiss not_found.
  assert (Hhidden : find (visible email_id user) (emails (db st)) = None).
  { rewrite (find_by_id _ _ rec Hnd Hin).
    - unfold visible. now rewrite Hdel, andb_false_r.
    - intros x Hx. apply visible_inv in Hx. rewrite Hid. tauto. }
  assert (Habsent : find (visible missing user) (emails (db st)) = None).
  { apply (find_absent_id _ _ missing Hmiss).
    intros x Hx. apply visible_inv in Hx. tauto. }
  assert (Howned : find (owned email_id user) (emails (db st)) = Some rec).
  { rewrite (find_by_id _ _ rec Hnd Hin).
    - unfold owned. now rewrite Hid, Hown, !Z.eqb_refl.
    - intros x Hx. apply owned_inv in Hx. rewrite Hid. tauto. }
  split; [exact (not_found_run env email_id email st user Hu Hhidden)|].
  split; [exact (not_found_run env missing email st user Hu Habsent)|].
  rewrite (delete_email_run email_id email st user rec Hu Howned).
  unfold committed.
  rewrite (with_is_deleted_same rec Hdel), (replace_email_same rec _ Hnd Hin).
  destruct st as [[us es] p now o]; reflexivity.
Qed.

Lemma deleted_rows_are_hidden_but_deletable_witness :
  serve (get_email 3 "ada@example.com") Samples.st0
  = (Raise (HTTPException 404 "Email not found"), Samples.st0)
  /\ serve (get_email 99 "ada@example.com") Samples.st0
     = (Raise (HTTPException 404 "Email not found"), Samples.st0)
  /\ serve (delete_email 3 "ada@example.com") Samples.st0
     = (Ok (JsonMessage "Email deleted"),
        mkSt Samples.store [] 100 [Commit]).
Proof.
  assert (Hnd : NoDup (map Email.id (emails (db Samples.st0)))).
  { cbn. repeat constructor; cbn; intuition discriminate. }
  assert (Hmiss : ~ In 99 (map Email.id (emails (db Samples.st0)))).
  { cbn. intuition discriminate. }
  pose proof (deleted_rows_are_hidden_but_deletable
                (Samples.env_with Samples.working []) 3 99
                "ada@example.com" Samples.st0 Samples.ada
                (Samples.mail 3 "m3" true false true)
                eq_refl Hnd (or_intror (or_intror (or_introl eq_refl)))
                eq_refl eq_refl eq_refl Hmiss) as T.
  cbv zeta in T. destruct T as ((T1 & _) & (T2 & _) & T3).
  split; [exact T1 | split; [exact T2 | exact T3]].
Defined.

End Mirror.

(** ** Synchronising the local mirror *)

Module Sync.
Import Database Service Routes Notions.
Open Scope monad_scope.

(** *** One iteration *)

Lemma sync_message_run env service user msg st :
  sync_message env service user msg st
  = match dict_get msg "id" with
    | None => (Raise (KeyError "id"), st)
    | Some id =>
        match find (by_message_id id) (emails (db st)) with
        | Some _ => (Ok false, st)
        | None =>
            match messages_get service id with
            | Raise e =>
                if is_HttpError e
                then (Ok false,
                      log st [fetched id; Print "Error getting message: " e])
                else (Raise e, log st [fetched id])
            | Ok full =>
                if message_is_empty full then (Ok false, log st [fetched id])
                else
                  match parse_message env full with
                  | Raise e => (Raise e, log st [fetched id])
                  | Ok p =>
                      (Ok true,
                       mkSt (db st)
                         (pending st ++ [AddEmail (new_email user p)])
                         (utcnow st) (out st ++ [fetched id]))
                  end
            end
        end
    end.
Proof.
  unfold sync_message, dict_item.
  destruct (dict_get msg "id") as [id|]; [|reflexivity].
  unfold bind at 1, lift. rewrite Mirror.lookup_email.
  destruct (find (by_message_id id) (emails (db st))); [reflexivity|].
  unfold bind at 1, get_message. rewrite Gateway.guarded_call.
  destruct (messages_get service id) as [full|e].
  - destruct (message_is_empty full); [reflexivity|].
    unfold bind at 1, lift.
    destruct (parse_message env full); reflexivity.
  - destruct (is_HttpError e); reflexivity.
Qed.

Lemma framed_refl st : framed st st.
Proof. split; auto. Qed.

Lemma framed_trans a b c : framed a b -> framed b c -> framed a c.
Proof.
  intros [d1 c1 p1 f1] [d2 c2 p2 f2]. split.
  - congruence.
  - congruence.
  - auto.
  - intros id Hi. destruct (f2 id Hi) as [Hb|Hn].
    + apply f1, Hb.
    + right. rewrite <- d1. exact Hn.
Qed.

Lemma framed_log st evs :
  (forall id, In (fetched id) evs ->
              find (by_message_id id) (emails (db st)) = None) ->
  framed st (log st evs).
Proof.
  intros H. split; cbn; auto.
  intros id Hi. apply in_app_or in Hi. destruct Hi; auto.
Qed.

Lemma sync_message_framed env service user msg st r st' :
  sync_message env service user msg st = (r, st') -> framed st st'.
Proof.
  rewrite sync_message_run.
  destruct (dict_get msg "id") as [id|];
    [|intros [= <- <-]; apply framed_refl].
  destruct (find (by_message_id id) (emails (db st))) eqn:F;
    [intros [= <- <-]; apply framed_refl|].
  assert (Hone : forall id', In (fetched id') [fetched id] ->
                   find (by_message_id id') (emails (db st)) = None).
  { intros id' [[= <-]|[]]. exact F. }
  destruct (messages_get service id) as [full|e].
  - destruct (message_is_empty full);
      [intros [= <- <-]; apply framed_log, Hone|].
    destruct (parse_message env full);
      [|intros [= <- <-]; apply framed_log, Hone].
    intros [= <- <-]. split; cbn; auto.
    + intros Hp. rewrite forallb_app, Hp. reflexivity.
    + intros id' Hi. apply in_app_or in Hi. destruct Hi; auto.
  - destruct (is_HttpError e); intros [= <- <-]; apply framed_log;
      [|exact Hone].
    intros id' [[= <-]|[H|[]]]; [exact F | discriminate H].
Qed.

Lemma sync_loop_framed env service user msgs :
  forall n st r st',
    sync_loop env service user msgs n st = (r, st') -> framed st st'.
Proof.
  induction msgs as [|msg rest IH]; intros n st r st'; cbn [sync_loop].
  - intros [= <- <-]. apply framed_refl.
  - unfold bind at 1.
    destruct (sync_message env service user msg st) as [[c|e] st1] eqn:E.
    + intros H. apply (framed_trans _ st1).
      * apply (sync_message_framed _ _ _ _ _ _ _ E).
      * apply (IH _ _ _ _ H).
    + intros [= <- <-]. apply (sync_message_framed _ _ _ _ _ _ _ E).
Qed.

(** *** The flush of added rows *)

Lemma next_id_above ids x : In x ids -> x < next_id ids.
Proof.
  unfold next_id. induction ids as [|y ys IH]; [contradiction|].
  cbn [fold_right]. intros [->|Hin]; [lia|].
  specialize (IH Hin). lia.
Qed.

Lemma message_id_taken_new now e rows :
  message_id_taken
    (Email.with_id (next_id (map Email.id rows)) now e) rows = false ->
  ~ In (Email.message_id e) (map Email.message_id rows).
Proof.
  unfold message_id_taken. cbn [Email.id Email.with_id Email.message_id].
  intros Hex Hin. apply in_map_iff in Hin. destruct Hin as (r & Hm & Hr).
  assert (existsb
            (fun r0 => negb (Email.id r0 =? next_id (map Email.id rows))
                       && String.eqb (Email.message_id r0)
                            (Email.message_id e)) rows = true) as Ht.
  { apply existsb_exists. exists r. split; [exact Hr|].
    rewrite Hm, String.eqb_refl, andb_true_r.
    apply negb_true_iff, Z.eqb_neq.
    pose proof (next_id_above (map Email.id rows) (Email.id r)
                  (in_map _ _ _ Hr)). lia. }
  congruence.
Qed.

Lemma extended_refl d : extended d d.
Proof.
  split; auto. exists []. split; [now rewrite app_nil_r | contradiction].
Qed.

Lemma extended_trans a b c : extended a b -> extended b c -> extended a c.
Proof.
  intros [u1 (n1 & e1 & f1) k1] [u2 (n2 & e2 & f2) k2]. split.
  - congruence.
  - exists (n1 ++ n2)%list. split.
    + rewrite e2, e1, app_assoc. reflexivity.
    + intros r Hr. apply in_app_or in Hr. destruct Hr as [Hr|Hr]; auto.
      intros Hin. apply (f2 r Hr). unfold message_ids. rewrite e1, map_app.
      apply in_or_app. left. exact Hin.
  - auto.
Qed.

Lemma NoDup_snoc {A} (l : list A) (x : A) :
  NoDup l -> ~ In x l -> NoDup (l ++ [x]).
Proof.
  intros Hl Hx. apply NoDup_app; [exact Hl | repeat constructor; auto |].
  intros a Ha [<-|[]]. exact (Hx Ha).
Qed.

Lemma flush_adds now cs :
  forallb is_add cs = true ->
  forall d d', flush now cs d = Ok d' -> extended d d'.
Proof.
  induction cs as [|c cs IH]; intros Ha d d'; cbn [flush].
  - intros [= <-]. apply extended_refl.
  - cbn [forallb] in Ha. apply andb_true_iff in Ha. destruct Ha as [Hc Hcs].
    destruct c as [u|e|o u|o e]; try discriminate Hc.
    cbn [apply_change].
    destruct (message_id_taken _ (emails d)) eqn:T; [discriminate|].
    intros Hf. refine (extended_trans _ _ _ _ (IH Hcs _ _ Hf)).
    pose proof (message_id_taken_new now e (emails d) T) as Hnew.
    split; cbn [users emails]; [reflexivity| |].
    + eexists. split; [reflexivity|].
      intros r [<-|[]]. exact Hnew.
    + intros Hnd. unfold message_ids. cbn [emails]. rewrite map_app.
      apply NoDup_snoc; assumption.
Qed.

Lemma commit_adds st r st' :
  forallb is_add (pending st) = true ->
  commit st = (r, st') ->
  utcnow st' = utcnow st
  /\ match r with
     | Ok _ => extended (db st) (db st')
               /\ out st' = (out st ++ [Commit])%list
     | Raise _ => st' = st
     end.
Proof.
  intros Ha. unfold commit.
  destruct (flush (utcnow st) (pending st) (db st)) as [d|e] eqn:F;
    intros [= <- <-]; cbn; split; auto.
  split; [apply (flush_adds _ _ Ha _ _ F) | reflexivity].
Qed.

(** *** A whole request *)

Lemma list_messages_framed service q n l st r st' :
  list_messages service q n l st = (r, st') -> framed st st'.
Proof.
  unfold list_messages. rewrite Gateway.guarded_call.
  destruct (messages_list service q n _) as [x|e];
    [|destruct (is_HttpError e)];
    intros [= <- <-]; apply framed_log;
    intros id Hi; cbn in Hi; intuition discriminate.
Qed.

Lemma sync_try_outcome env user st r st1 :
  pending st = [] ->
  sync_try env user st = (r, st1) ->
  utcnow st1 = utcnow st
  /\ fetches_only_new st st1
  /\ match r with
     | Ok _ => extended (db st) (db st1)
     | Raise _ => db st1 = db st
     end.
Proof.
  intros Hp. unfold sync_try, build_service, lift. unfold bind at 1.
  destruct (build env "gmail" "v1" _) as [service|e];
    [|intros [= <- <-]; repeat split; auto; intros id; auto].
  unfold bind at 1.
  destruct (list_messages service "" 100 None st) as [[msgs|e] st2] eqn:L;
    pose proof (list_messages_framed _ _ _ _ _ _ _ L) as F2;
    [|intros [= <- <-]; destruct F2; repeat split; auto].
  unfold bind at 1.
  destruct (sync_loop env service user msgs 0 st2) as [[n|e] st3] eqn:S;
    pose proof (framed_trans _ _ _ F2 (sync_loop_framed _ _ _ _ _ _ _ _ S))
      as F3;
    [|intros [= <- <-]; destruct F3; repeat split; auto].
  unfold bind at 1.
  assert (Ha : forallb is_add (pending st3) = true).
  { apply (adds_only _ _ F3). now rewrite Hp. }
  destruct (commit st3) as [[[]|e] st4] eqn:C;
    destruct (commit_adds _ _ _ Ha C) as [Hc Hr]; destruct F3.
  - intros [= <- <-]. destruct Hr as [He Ho].
    split; [congruence|]. split.
    + intros id Hi. rewrite Ho in Hi. apply in_app_or in Hi.
      destruct Hi as [Hi|[Hi|[]]]; [auto | discriminate Hi].
    + now rewrite <- same_db0.
  - intros [= <- <-]. subst st4. repeat split; auto.
Qed.

(** Every served sync extends the tables (possibly by nothing), leaves
    them as they were when it fails, and fetches only ids that no row
    holds. *)
Lemma sync_emails_served env email st r st' :
  serve (sync_emails env email) st = (r, st') ->
  extended (db st) (db st')
  /\ fetches_only_new st st'
  /\ (forall e, r = Raise e -> db st' = db st).
Proof.
  unfold serve.
  destruct (sync_emails env email _) as [r0 st0] eqn:E.
  intros [= <- <-]. cbn [db out].
  unfold sync_emails in E. rewrite Mirror.lookup_user in E.
  cbn [db] in E.
  destruct (find (by_email email) (users (db st))) as [user|].
  - unfold try_except in E.
    destruct (sync_try env user _) as [[x|e] st1] eqn:T;
      destruct (sync_try_outcome env user (fresh st) _ _ eq_refl T)
        as (Hc & Hf & Hd);
      cbn [db out] in *.
    + injection E as <- <-.
      split; [exact Hd | split; [exact Hf | discriminate]].
    + cbn in E. injection E as <- <-. cbn [db out]. rewrite Hd.
      split; [apply extended_refl|]. split; [|reflexivity].
      intros id Hi. apply in_app_or in Hi.
      destruct Hi as [Hi|[Hi|[]]]; [apply Hf, Hi | discriminate Hi].
  - injection E as <- <-. cbn [db out fst snd].
    split; [apply extended_refl|]. split; [|reflexivity].
    intros id Hi; auto.
Qed.

Lemma sync_all_extended requests :
  forall st, extended (db st) (db (sync_all requests st)).
Proof.
  induction requests as [|[env email] rest IH]; intros st; cbn.
  - apply extended_refl.
  - refine (extended_trans _ _ _ _ (IH _)).
    destruct (serve (sync_emails env email) st) as [r st'] eqn:E.
    apply (sync_emails_served _ _ _ _ _ E).
Qed.

Lemma filter_none_new id (new : list Email.t) :
  ~ In id (map Email.message_id new) -> filter (by_message_id id) new = [].
Proof.
  induction new as [|x xs IH]; intros Hn; [reflexivity|].
  cbn [filter]. unfold by_message_id at 1.
  destruct (String.eqb (Email.message_id x) id) eqn:E.
  - apply String.eqb_eq in E. exfalso. apply Hn. left. exact E.
  - apply IH. intros Hi. apply Hn. right. exact Hi.
Qed.

Lemma find_none_not_held id rows :
  find (by_message_id id) rows = None ->
  ~ In id (map Email.message_id rows).
Proof.
  intros Hf Hin. apply in_map_iff in Hin. destruct Hin as (r & Hm & Hr).
  apply (find_none _ _ Hf) in Hr. unfold by_message_id in Hr.
  rewrite Hm, String.eqb_refl in Hr. discriminate.
Qed.

(** C4: after any sequence of syncs the mirror holds at most one row per
    remote message id, whoever the users are, and every row it held
    before is still there; a sync does not fetch a message whose id a row
    already holds, and the rows holding that id are the same after it. *)
Theorem sync_keeps_message_ids_unique
  (requests : list (Env * string)) (st : St) :
  NoDup (message_ids (db st)) ->
  NoDup (message_ids (db (sync_all requests st)))
  /\ (forall row, In row (emails (db st)) ->
                  In row (emails (db (sync_all requests st))))
  /\ (forall env email id,
        In id (message_ids (db st)) ->
        let st' := snd (serve (sync_emails env email) st) in
        (In (fetched id) (out st') -> In (fetched id) (out st))
        /\ filter (by_message_id id) (emails (db st'))
           = filter (by_message_id id) (emails (db st))).
Proof.
  intros Hnd.
  destruct (sync_all_extended requests st) as [_ (new & He & _) Hk].
  split; [apply Hk, Hnd|]. split.
  - intros row Hin. rewrite He. apply in_or_app. left. exact Hin.
  - intros env email id Hid st'. subst st'.
    destruct (serve (sync_emails env email) st) as [r st'] eqn:E.
    destruct (sync_emails_served _ _ _ _ _ E)
      as ([_ (new' & He' & Hn') _] & Hf & _).
    cbn [snd]. split.
    + intros Hi. destruct (Hf id Hi) as [Ho|Hnone]; [exact Ho|].
      exfalso. exact (find_none_not_held _ _ Hnone Hid).
    + rewrite He', filter_app, (filter_none_new id new'), app_nil_r;
        [reflexivity|].
      intros Hin. apply in_map_iff in Hin. destruct Hin as (x & Hm & Hx).
      apply (Hn' x Hx). rewrite Hm. exact Hid.
Qed.

Lemma sync_keeps_message_ids_unique_witness :
  message_ids
    (db (sync_all [(Samples.env_with Samples.healthy [], "ada@example.com");
                   (Samples.env_with Samples.healthy [], "ada@example.com")]
           Samples.st0))
  = ["m1"; "m2"; "m3"; "m5"]
  /\ NoDup
       (message_ids
          (db (sync_all
                 [(Samples.env_with Samples.healthy [], "ada@example.com");
                  (Samples.env_with Samples.healthy [], "ada@example.com")]
                 Samples.st0))).
Proof.
  split; [reflexivity|].
  apply (sync_keeps_message_ids_unique
           [(Samples.env_with Samples.healthy [], "ada@example.com");
            (Samples.env_with Samples.healthy [], "ada@example.com")]
           Samples.st0).
  cbn. repeat constructor; cbn; intuition discriminate.
Defined.

(** *** Failure of a sync *)

(** A new message whose parse raises makes the loop raise, wherever it
    stands in the listing. *)
Lemma sync_loop_raises env service user msg id full e msgs :
  In msg msgs ->
  dict_get msg "id" = Some id ->
  messages_get service id = Ok full ->
  message_is_empty full = false ->
  parse_message env full = Raise e ->
  forall n st,
    find (by_message_id id) (emails (db st)) = None ->
    exists e' st', sync_loop env service user msgs n st = (Raise e', st').
Proof.
  intros Hin Hid Hget Hne Hparse.
  induction msgs as [|x rest IH]; [contradiction|].
  intros n st Hnew. cbn [sync_loop]. unfold bind at 1.
  destruct Hin as [->|Hin].
  - rewrite sync_message_run, Hid, Hnew, Hget, Hne, Hparse.
    eexists; eexists; reflexivity.
  - destruct (sync_message env service user x st) as [[c|e1] st1] eqn:E;
      [|eexists; eexists; reflexivity].
    apply (IH Hin).
    rewrite (same_db _ _ (sync_message_framed _ _ _ _ _ _ _ E)).
    exact Hnew.
Qed.

(** *** Effects without a commit *)

Lemma calm_refl st : calm st st.
Proof. exists []. rewrite app_nil_r. split; [reflexivity | intros []]. Qed.

Lemma calm_trans a b c : calm a b -> calm b c -> calm a c.
Proof.
  intros (e1 & O1 & N1) (e2 & O2 & N2). exists (e1 ++ e2)%list.
  rewrite O2, O1, app_assoc. split; [reflexivity|].
  intros H. apply in_app_or in H. tauto.
Qed.

Lemma calm_log st evs : ~ In Commit evs -> calm st (log st evs).
Proof. intros H. exists evs. split; [reflexivity | exact H]. Qed.

Ltac no_commit :=
  apply calm_log; cbn [In]; intros H;
  repeat destruct H as [H|H]; try discriminate H; exact H.

Lemma sync_message_calm env service user msg st r st' :
  sync_message env service user msg st = (r, st') -> calm st st'.
Proof.
  rewrite sync_message_run.
  destruct (dict_get msg "id") as [id|];
    [|intros [= <- <-]; apply calm_refl].
  destruct (find (by_message_id id) (emails (db st)));
    [intros [= <- <-]; apply calm_refl|].
  destruct (messages_get service id) as [full|e].
  - destruct (message_is_empty full); [intros [= <- <-]; no_commit|].
    destruct (parse_message env full); intros [= <- <-]; [|no_commit].
    exists [fetched id]. split; [reflexivity|].
    intros [H|[]]; discriminate H.
  - destruct (is_HttpError e); intros [= <- <-]; no_commit.
Qed.

Lemma sync_loop_calm env service user msgs :
  forall n st r st',
    sync_loop env service user msgs n st = (r, st') -> calm st st'.
Proof.
  induction msgs as [|msg rest IH]; intros n st r st'; cbn [sync_loop].
  - intros [= <- <-]. apply calm_refl.
  - unfold bind at 1.
    destruct (sync_message env service user msg st) as [[b|e] st1] eqn:S;
      pose proof (sync_message_calm _ _ _ _ _ _ _ S) as C1.
    + intros H. exact (calm_trans _ _ _ C1 (IH _ _ _ _ H)).
    + now intros [= <- <-].
Qed.

Lemma list_messages_calm service q n l st r st' :
  list_messages service q n l st = (r, st') -> calm st st'.
Proof.
  unfold list_messages. rewrite Gateway.guarded_call.
  destruct (messages_list service q n _) as [x|e];
    [|destruct (is_HttpError e)];
    intros [= <- <-]; no_commit.
Qed.

(** A [try] block that raises leaves the committed rows as they were and
    has committed nothing on the way. *)
Lemma sync_try_raised env user st e0 st0 :
  pending st = [] ->
  sync_try env user st = (Raise e0, st0) ->
  db st0 = db st /\ calm st st0.
Proof.
  intros Hp T.
  destruct (sync_try_outcome env user st _ _ Hp T) as (_ & _ & Hd).
  split; [exact Hd|]. revert T.
  unfold sync_try, build_service, lift. unfold bind at 1.
  destruct (build env "gmail" "v1" _) as [service|e];
    [|intros [= _ <-]; apply calm_refl].
  unfold bind at 1.
  destruct (list_messages service "" 100 None st) as [[msgs|e] st2] eqn:L;
    pose proof (list_messages_calm _ _ _ _ _ _ _ L) as C2;
    [|now intros [= _ <-]].
  unfold bind at 1.
  destruct (sync_loop env service user msgs 0 st2) as [[n|e] st3] eqn:S;
    pose proof (calm_trans _ _ _ C2 (sync_loop_calm _ _ _ _ _ _ _ _ S))
      as C3;
    [|now intros [= _ <-]].
  unfold bind at 1, commit.
  destruct (flush (utcnow st3) (pending st3) (db st3)); [discriminate|].
  now intros [= _ <-].
Qed.

(** What the request answers when its [try] block raises. *)
Lemma sync_emails_failed_run env email st user e0 st0 :
  find (by_email email) (users (db st)) = Some user ->
  sync_try env user (fresh st) = (Raise e0, st0) ->
  sync_emails env email (fresh st)
  = (Raise (HTTPException 500 ("Sync failed: " ++ str e0)),
     mkSt (db st0) [] (utcnow st0) (out st0 ++ [Rollback])).
Proof.
  intros Hu T. unfold sync_emails. rewrite Mirror.lookup_user.
  cbn [fresh db]. rewrite Hu. unfold try_except.
  rewrite T. reflexivity.
Qed.

(** *** Which message fails a sync *)

Lemma sync_message_processing env service user msg st :
  match processing env service (db st) msg with
  | Some e => exists st', sync_message env service user msg st
                          = (Raise e, st')
  | None => exists b st', sync_message env service user msg st
                          = (Ok b, st')
                          /\ db st' = db st
  end.
Proof.
  rewrite sync_message_run. unfold processing.
  destruct (dict_get msg "id") as [id|]; [|eexists; reflexivity].
  destruct (find (by_message_id id) (emails (db st)));
    [do 2 eexists; split; reflexivity|].
  destruct (messages_get service id) as [full|e].
  - destruct (message_is_empty full);
      [do 2 eexists; split; reflexivity|].
    destruct (parse_message env full); cbn [failure];
      [do 2 eexists; split; reflexivity | eexists; reflexivity].
  - destruct (is_HttpError e);
      [do 2 eexists; split; reflexivity | eexists; reflexivity].
Qed.

Lemma sync_loop_first_raise env service user msgs e0 :
  forall n st,
    first_raise env service (db st) msgs = Some e0 ->
    exists st0, sync_loop env service user msgs n st = (Raise e0, st0).
Proof.
  induction msgs as [|msg rest IH]; intros n st; cbn [first_raise sync_loop];
    [discriminate|].
  pose proof (sync_message_processing env service user msg st) as Hm.
  unfold bind at 1.
  destruct (processing env service (db st) msg) as [e|].
  - intros [= ->]. destruct Hm as (st' & ->). eexists; reflexivity.
  - destruct Hm as (b & st' & -> & Hd). rewrite <- Hd. apply IH.
Qed.

Lemma sync_try_first_raise env user service listing st e0 :
  build env "gmail" "v1"
    (mkCredentials (User.access_token user) (User.refresh_token user))
  = Ok service ->
  messages_list service "" 100 None = Ok listing ->
  first_raise env service (db st) (or_empty listing) = Some e0 ->
  exists st0, sync_try env user st = (Raise e0, st0).
Proof.
  intros Hb Hl Hf. unfold sync_try, build_service, lift.
  unfold bind at 1. rewrite Hb. unfold bind at 1, list_messages.
  rewrite Gateway.guarded_call. cbn [some_nonempty]. rewrite Hl.
  unfold bind at 1.
  destruct (sync_loop_first_raise env service user (or_empty listing) e0 0%nat
              (log st [Call (ReqMessagesList "" 100 None)]) Hf)
    as (st0 & ->).
  eexists; reflexivity.
Qed.

Lemma failing_parse_raises env service d msgs msg id full e :
  In msg msgs ->
  dict_get msg "id" = Some id ->
  find (by_message_id id) (emails d) = None ->
  messages_get service id = Ok full ->
  message_is_empty full = false ->
  parse_message env full = Raise e ->
  exists e0, first_raise env service d msgs = Some e0.
Proof.
  intros Hin Hid Hnew Hget Hne Hparse.
  induction msgs as [|x rest IH]; [contradiction|].
  cbn [first_raise].
  destruct (processing env service d x) as [e1|] eqn:P;
    [eexists; reflexivity|].
  destruct Hin as [->|Hin]; [|exact (IH Hin)].
  unfold processing in P. rewrite Hid, Hnew, Hget, Hne, Hparse in P.
  discriminate P.
Qed.

(** C5: whatever makes the [try] block of a sync raise (a listing entry
    without an id, a fetch or a parse that raises, a failing commit), the
    request answers 500 with the text of that exception, the session is
    rolled back without any commit, its pending inserts are dropped,
    and the tables are exactly what they were before the request: none of
    the new rows is committed and the rows of earlier syncs are
    untouched.  The exception surfaced is that of the first listed
    message whose processing raises; in particular a new message that
    fails to parse, wherever it stands in the listing, fails the sync. *)
Theorem failed_sync_commits_nothing
  (env : Env) (email : string) (st : St) (user : User.t) :
  find (by_email email) (users (db st)) = Some user ->
  let r := serve (sync_emails env email) st in
  let rolled_back (e0 : PyExc) :=
    fst r = Raise (HTTPException 500 ("Sync failed: " ++ str e0))
    /\ db (snd r) = db st
    /\ pending (snd (sync_emails env email (fresh st))) = []
    /\ exists evs, out (snd r) = (out st ++ evs ++ [Rollback])%list
                   /\ ~ In Commit evs in
  (forall e0 st0,
     sync_try env user (fresh st) = (Raise e0, st0) -> rolled_back e0)
  /\ (forall service listing e0,
        build env "gmail" "v1"
          (mkCredentials (User.access_token user) (User.refresh_token user))
        = Ok service ->
        messages_list service "" 100 None = Ok listing ->
        first_raise env service (db st) (or_empty listing) = Some e0 ->
        rolled_back e0)
  /\ (forall service listing msg id full e,
        build env "gmail" "v1"
          (mkCredentials (User.access_token user) (User.refresh_token user))
        = Ok service ->
        messages_list service "" 100 None = Ok listing ->
        In msg (or_empty listing) ->
        dict_get msg "id" = Some id ->
        find (by_message_id id) (emails (db st)) = None ->
        messages_get service id = Ok full ->
        message_is_empty full = false ->
        parse_message env full = Raise e ->
        exists e0, rolled_back e0).
Proof.
  intros Hu r rolled_back.
  assert (A : forall e0 st0,
             sync_try env user (fresh st) = (Raise e0, st0) ->
             rolled_back e0).
  { intros e0 st0 T. subst rolled_back r. cbv beta.
    pose proof (sync_emails_failed_run env email st user e0 st0 Hu T) as E.
    destruct (sync_try_raised env user (fresh st) e0 st0 eq_refl T)
      as (Hd & evs & Ho & Hn).
    unfold serve. fold (fresh st). rewrite E.
    cbn [fst snd db pending out].
    split; [reflexivity|]. split; [exact Hd|]. split; [reflexivity|].
    exists evs. rewrite Ho. cbn [fresh out].
    rewrite <- app_assoc. split; [reflexivity | exact Hn]. }
  assert (B : forall service listing e0,
             build env "gmail" "v1"
               (mkCredentials (User.access_token user)
                  (User.refresh_token user)) = Ok service ->
             messages_list service "" 100 None = Ok listing ->
             first_raise env service (db st) (or_empty listing) = Some e0 ->
             rolled_back e0).
  { intros service listing e0 Hb Hl Hf.
    destruct (sync_try_first_raise env user service listing (fresh st) e0
                Hb Hl Hf) as (st0 & T).
    exact (A e0 st0 T). }
  split; [exact A|]. split; [exact B|].
  intros service listing msg id full e Hb Hl Hin Hid Hnew Hget Hne Hparse.
  destruct (failing_parse_raises env service (db st) (or_empty listing) msg
              id full e Hin Hid Hnew Hget Hne Hparse) as (e0 & Hf).
  exists e0. exact (B service listing e0 Hb Hl Hf).
Qed.

Lemma failed_sync_commits_nothing_witness :
  exists e0,
    fst (serve (sync_emails (Samples.env_with Samples.working [])
                  "ada@example.com") Samples.st0)
    = Raise (HTTPException 500 ("Sync failed: " ++ str e0))
    /\ db (snd (serve (sync_emails (Samples.env_with Samples.working [])
                         "ada@example.com") Samples.st0))
       = db Samples.st0
    /\ pending (snd (sync_emails (Samples.env_with Samples.working [])
                       "ada@example.com" (fresh Samples.st0)))
       = []
    /\ exists evs,
         out (snd (serve (sync_emails (Samples.env_with Samples.working [])
                            "ada@example.com") Samples.st0))
         = (out Samples.st0 ++ evs ++ [Rollback])%list
         /\ ~ In Commit evs.
Proof.
  exact (proj2 (proj2 (failed_sync_commits_nothing
                         (Samples.env_with Samples.working [])
                         "ada@example.com" Samples.st0 Samples.ada eq_refl))
           Samples.working
           (Some [[("id", "m1")]; [("id", "m5")]; [("id", "m4")]])
           [("id", "m4")] "m4"
           (Samples.message "m4" [Samples.leaf "text/plain" "Q"])
           (DecodeError
              (Codec.odd_length_text 0))
           eq_refl eq_refl (or_intror (or_intror (or_introl eq_refl)))
           eq_refl eq_refl eq_refl eq_refl eq_refl).
Defined.

End Sync.

(** ** The upsert of the OAuth callback *)

Module Auth.
Import Database Service Routes Notions.
Open Scope monad_scope.

Lemma exchange_run env code st :
  exchange_code_for_tokens env code st
  = (fetch_token env code, log st [Call (ReqFetchToken code)]).
Proof. reflexivity. Qed.

Lemma get_user_info_run env access_token st :
  get_user_info env access_token st
  = match userinfo env access_token with
    | Ok d => (Ok (Some d), log st [Call (ReqUserInfo access_token)])
    | Raise e =>
        (Ok None,
         log st [Call (ReqUserInfo access_token);
                 Print "Error getting user info: " e])
    end.
Proof.
  unfold get_user_info, try_except, bind, execute, emit, lift, print, emit.
  destruct (userinfo env access_token); cbn; [reflexivity|].
  now rewrite Gateway.log_log.
Qed.

Lemma update_existing_user_run u credentials user_info st :
  update_existing_user u credentials user_info st
  = match refreshed u credentials user_info with
    | Ok u' =>
        (Ok u', mkSt (db st) (pending st ++ [DirtyUser u u']) (utcnow st)
                  (out st))
    | Raise e => (Raise e, st)
    end.
Proof.
  unfold update_existing_user, refreshed, dict_item. cbv zeta.
  destruct (truthy (User.google_id (with_tokens _ _ u))); [reflexivity|].
  destruct (dict_get user_info "id"); reflexivity.
Qed.

(** The fields of the refreshed row. *)
Lemma refreshed_fields u credentials user_info u' :
  refreshed u credentials user_info = Ok u' ->
  User.id u' = User.id u
  /\ User.email u' = User.email u
  /\ User.access_token u' = token credentials
  /\ User.refresh_token u' = refresh_token credentials
  /\ User.created_at u' = User.created_at u
  /\ User.is_active u' = User.is_active u
  /\ User.name u'
     = (if truthy (User.name u) then User.name u
        else Some (dict_get_default user_info "name" ""))
  /\ (if truthy (User.google_id u) then User.google_id u' = User.google_id u
      else exists g, dict_get user_info "id" = Some g
                     /\ User.google_id u' = Some g).
Proof.
  unfold refreshed. cbv zeta.
  cbn [User.google_id with_tokens].
  destruct (truthy (User.google_id u)) eqn:G.
  - cbn [User.name with_tokens].
    destruct (truthy (User.name u)) eqn:N; intros [= <-]; cbn;
      repeat split; reflexivity.
  - destruct (dict_get user_info "id") as [g|]; [|discriminate].
    cbn [User.name with_tokens with_google_id].
    destruct (truthy (User.name u)) eqn:N; intros [= <-]; cbn;
      repeat split; try reflexivity; exists g; split; reflexivity.
Qed.

Lemma opt_same_refl o : opt_same o o = true.
Proof. destruct o; cbn; [apply String.eqb_refl | reflexivity]. Qed.

Lemma google_id_free (u : User.t) (g : string) rows :
  User.google_id u = Some g ->
  (forall r, In r rows -> User.id r <> User.id u ->
             User.google_id r <> Some g) ->
  google_id_taken u rows = false.
Proof.
  intros Hg Hfree. unfold google_id_taken.
  destruct (existsb _ rows) eqn:E; [|reflexivity].
  apply existsb_exists in E. destruct E as (r & Hin & Hr).
  apply andb_true_iff in Hr. destruct Hr as [Hid Hsame].
  apply negb_true_iff, Z.eqb_neq in Hid.
  rewrite Hg in Hsame. unfold opt_eqb in Hsame.
  destruct (User.google_id r) as [x|] eqn:X; [|discriminate].
  apply String.eqb_eq in Hsame. subst x.
  exfalso. exact (Hfree r Hin Hid X).
Qed.

Lemma email_free (u : User.t) rows :
  find (by_email (User.email u)) rows = None -> email_taken u rows = false.
Proof.
  intros Hf. unfold email_taken.
  destruct (existsb _ rows) eqn:E; [|reflexivity].
  apply existsb_exists in E. destruct E as (r & Hin & Hr).
  apply andb_true_iff in Hr. destruct Hr as [_ Hsame].
  pose proof (find_none _ _ Hf r Hin) as Hn. unfold by_email in Hn.
  congruence.
Qed.

Lemma replace_user_length u rows :
  List.length (replace_user u rows) = List.length rows.
Proof. apply length_map. Qed.

Lemma replace_user_In u u' rows :
  In u rows -> User.id u' = User.id u -> In u' (replace_user u' rows).
Proof.
  intros Hin Hid. unfold replace_user.
  apply in_map_iff. exists u. rewrite Hid, Z.eqb_refl. auto.
Qed.

(** The callback up to the lookup by email. *)
Lemma callback_try_run env code credentials info email st :
  nonempty code = true ->
  fetch_token env code = Ok credentials ->
  userinfo env (token credentials) = Ok info ->
  dict_get info "email" = Some email ->
  callback_try env (Some code) st
  = ((user <- match find (by_email email) (users (db st)) with
              | Some user => update_existing_user user credentials info
              | None => create_new_user credentials info
              end ;;
      commit ;;;
      ret (RedirectResponse
             ("/auth/success?email=" ++ User.email user
              ++ "&name=" ++ fmt (User.name user))))
       (log st [Call (ReqFetchToken code);
                Call (ReqUserInfo (token credentials))])).
Proof.
  intros Hc Hf Hi He. unfold callback_try. rewrite Hc.
  unfold bind at 1. rewrite exchange_run, Hf.
  unfold bind at 1. rewrite get_user_info_run, Hi, Gateway.log_log.
  cbn [app].
  destruct info as [|kv info]; [discriminate He|].
  cbv zeta. unfold dict_item. rewrite He.
  unfold bind at 1, lift. rewrite Mirror.lookup_user. reflexivity.
Qed.

Lemma flush_refreshed now u u' d :
  User.email u' = User.email u ->
  opt_same (User.google_id u) (User.google_id u') = true
  \/ google_id_taken u' (users d) = false ->
  flush now [DirtyUser u u'] d
  = Ok (mkDB (replace_user u' (users d)) (emails d)).
Proof.
  intros He Hg. cbn [flush apply_change].
  rewrite He, String.eqb_refl. cbn [negb andb orb].
  destruct Hg as [-> | ->]; [reflexivity|].
  now rewrite andb_false_r.
Qed.

Lemma google_id_null (u : User.t) rows :
  User.google_id u = None -> google_id_taken u rows = false.
Proof.
  intros Hg. unfold google_id_taken.
  induction rows as [|x xs IH]; [reflexivity|].
  cbn [existsb]. rewrite IH, Hg. unfold opt_eqb.
  destruct (User.google_id x); now rewrite andb_false_r.
Qed.

Lemma flush_created now u d :
  find (by_email (User.email u)) (users d) = None ->
  (forall g, User.google_id u = Some g ->
             forall r, In r (users d) -> User.google_id r <> Some g) ->
  flush now [AddUser u] d
  = Ok (mkDB (users d
              ++ [with_user_id (next_id (map User.id (users d))) now u])
          (emails d)).
Proof.
  intros He Hg. cbn [flush apply_change].
  rewrite (email_free (with_user_id _ now u) (users d) He).
  destruct (User.google_id u) as [g|] eqn:G.
  - rewrite (google_id_free (with_user_id _ now u) g (users d));
      [reflexivity | exact G |].
    intros r Hin _. exact (Hg g eq_refl r Hin).
  - rewrite google_id_null; [reflexivity | exact G].
Qed.

Lemma refreshed_ok u credentials info :
  (truthy (User.google_id u) = false ->
   exists g, dict_get info "id" = Some g) ->
  exists u', refreshed u credentials info = Ok u'.
Proof.
  intros Hid. unfold refreshed. cbv zeta.
  cbn [User.google_id with_tokens].
  destruct (truthy (User.google_id u)).
  - eexists; reflexivity.
  - destruct (Hid eq_refl) as (g & ->). eexists; reflexivity.
Qed.

Lemma callback_existing_run env code credentials info email st u u' :
  nonempty code = true ->
  fetch_token env code = Ok credentials ->
  userinfo env (token credentials) = Ok info ->
  dict_get info "email" = Some email ->
  find (by_email email) (users (db st)) = Some u ->
  refreshed u credentials info = Ok u' ->
  opt_same (User.google_id u) (User.google_id u') = true
  \/ google_id_taken u' (users (db st)) = false ->
  serve (callback env (Some code)) st
  = (Ok (RedirectResponse
           ("/auth/success?email=" ++ User.email u'
            ++ "&name=" ++ fmt (User.name u'))),
     signed_in (replace_user u' (users (db st))) code credentials st).
Proof.
  intros Hc Hf Hi He Hu R Hg.
  destruct (refreshed_fields _ _ _ _ R) as (_ & Fmail & _).
  apply Mirror.serve_run; [|reflexivity].
  unfold callback, try_except.
  rewrite (callback_try_run env code credentials info email _ Hc Hf Hi He).
  cbn [fresh log db pending utcnow out]. rewrite Hu.
  unfold bind at 1. rewrite update_existing_user_run, R.
  unfold bind at 1, commit, log, fresh.
  cbn [db pending utcnow out app].
  rewrite (flush_refreshed (utcnow st) u u' (db st) Fmail Hg).
  unfold signed_in, ret. rewrite <- app_assoc. reflexivity.
Qed.

Lemma callback_created_run env code credentials info email st g :
  nonempty code = true ->
  fetch_token env code = Ok credentials ->
  userinfo env (token credentials) = Ok info ->
  dict_get info "email" = Some email ->
  find (by_email email) (users (db st)) = None ->
  dict_get info "id" = Some g ->
  (forall other, In other (users (db st)) ->
                 User.google_id other <> Some g) ->
  serve (callback env (Some code)) st
  = (Ok (RedirectResponse
           ("/auth/success?email=" ++ email ++ "&name="
            ++ dict_get_default info "name" "")),
     signed_in
       (users (db st)
        ++ [User.mk (next_id (map User.id (users (db st)))) email
              (Some (dict_get_default info "name" "")) (Some g)
              (token credentials) (refresh_token credentials)
              (utcnow st) true])
       code credentials st).
Proof.
  intros Hc Hf Hi He Hnone Hg Hfree.
  apply Mirror.serve_run; [|reflexivity].
  unfold callback, try_except.
  rewrite (callback_try_run env code credentials info email _ Hc Hf Hi He).
  cbn [fresh log db pending utcnow out]. rewrite Hnone.
  unfold bind at 1, create_new_user, dict_item. rewrite He, Hg.
  unfold bind at 1, lift. unfold bind at 1. unfold bind at 1.
  unfold add_user, note, log, fresh.
  cbn [db pending utcnow out app ret].
  unfold bind at 1, commit. cbn [db pending utcnow out app].
  rewrite flush_created.
  - unfold signed_in, ret. rewrite <- app_assoc. reflexivity.
  - exact Hnone.
  - cbn [User.google_id]. intros g' [= <-]. exact Hfree.
Qed.

(** The callback when the commit of its one change fails. *)
Lemma callback_existing_clash_run env code credentials info email st u u' e :
  nonempty code = true ->
  fetch_token env code = Ok credentials ->
  userinfo env (token credentials) = Ok info ->
  dict_get info "email" = Some email ->
  find (by_email email) (users (db st)) = Some u ->
  refreshed u credentials info = Ok u' ->
  flush (utcnow st) [DirtyUser u u'] (db st) = Raise e ->
  serve (callback env (Some code)) st
  = (Raise (HTTPException 400 ("Authentication failed: " ++ str e)),
     mkSt (db st) [] (utcnow st)
       (out st ++ [Call (ReqFetchToken code);
                   Call (ReqUserInfo (token credentials)); Rollback])).
Proof.
  intros Hc Hf Hi He Hu R Hflush.
  apply Mirror.serve_run; [|reflexivity].
  unfold callback, try_except.
  rewrite (callback_try_run env code credentials info email _ Hc Hf Hi He).
  cbn [fresh log db pending utcnow out]. rewrite Hu.
  unfold bind at 1. rewrite update_existing_user_run, R.
  unfold bind at 1, commit, log, fresh.
  cbn [db pending utcnow out app]. rewrite Hflush.
  unfold bind, rollback, raise. cbn [db pending utcnow out].
  now rewrite <- app_assoc.
Qed.

Lemma callback_created_clash_run env code credentials info email st g e :
  nonempty code = true ->
  fetch_token env code = Ok credentials ->
  userinfo env (token credentials) = Ok info ->
  dict_get info "email" = Some email ->
  find (by_email email) (users (db st)) = None ->
  dict_get info "id" = Some g ->
  flush (utcnow st)
    [AddUser (User.mk 0 email (Some (dict_get_default info "name" ""))
                (Some g) (token credentials) (refresh_token credentials)
                0 true)]
    (db st) = Raise e ->
  serve (callback env (Some code)) st
  = (Raise (HTTPException 400 ("Authentication failed: " ++ str e)),
     mkSt (db st) [] (utcnow st)
       (out st ++ [Call (ReqFetchToken code);
                   Call (ReqUserInfo (token credentials)); Rollback])).
Proof.
  intros Hc Hf Hi He Hnone Hg Hflush.
  apply Mirror.serve_run; [|reflexivity].
  unfold callback, try_except.
  rewrite (callback_try_run env code credentials info email _ Hc Hf Hi He).
  cbn [fresh log db pending utcnow out]. rewrite Hnone.
  unfold bind at 1, create_new_user, dict_item. rewrite He, Hg.
  unfold bind at 1, lift. unfold bind at 1. unfold bind at 1.
  unfold add_user, note, log, fresh.
  cbn [db pending utcnow out app ret].
  unfold bind at 1, commit. cbn [db pending utcnow out app].
  rewrite Hflush.
  unfold bind, rollback, raise. cbn [db pending utcnow out].
  now rewrite <- app_assoc.
Qed.

Lemma google_id_held (u : User.t) (g : string) rows other :
  User.google_id u = Some g ->
  In other rows -> User.id other <> User.id u ->
  User.google_id other = Some g ->
  google_id_taken u rows = true.
Proof.
  intros Hg Hin Hne Ho. unfold google_id_taken.
  apply existsb_exists. exists other. split; [exact Hin|].
  apply Z.eqb_neq in Hne. rewrite Hne, Ho, Hg. cbn.
  apply String.eqb_refl.
Qed.

Lemma opt_same_differs o g : o <> Some g -> opt_same o (Some g) = false.
Proof.
  destruct o as [x|]; cbn; [|reflexivity].
  intros Hne. apply String.eqb_neq. congruence.
Qed.

(** A backfill that writes a provider id another record holds. *)
Lemma flush_refreshed_clash now u u' g d other :
  User.id u' = User.id u ->
  User.google_id u' = Some g ->
  User.google_id u <> Some g ->
  In other (users d) -> User.id other <> User.id u ->
  User.google_id other = Some g ->
  exists text, flush now [DirtyUser u u'] d = Raise (IntegrityError text).
Proof.
  intros Hid Hg Hne Hin Hother Ho. cbn [flush apply_change].
  rewrite Hg, (opt_same_differs _ _ Hne).
  rewrite (google_id_held u' g (users d) other Hg Hin); [|congruence|exact Ho].
  rewrite orb_true_r. eexists; reflexivity.
Qed.

(** An insert whose provider id a record holds. *)
Lemma flush_created_clash now u g d other :
  User.google_id u = Some g ->
  In other (users d) -> User.google_id other = Some g ->
  exists text, flush now [AddUser u] d = Raise (IntegrityError text).
Proof.
  intros Hg Hin Ho. cbn [flush apply_change].
  rewrite (google_id_held (with_user_id _ now u) g (users d) other);
    [rewrite orb_true_r; eexists; reflexivity | exact Hg | exact Hin | | exact Ho].
  cbn [with_user_id User.id].
  pose proof (Sync.next_id_above (map User.id (users d)) (User.id other)
                (in_map _ _ _ Hin)).
  lia.
Qed.

(** C3, as the code has it.  When a record with the resolved email
    exists, and the provider id it would have to fill in (if its own is
    empty) is in the fetched identity and is the value the record holds
    already or held by no other record, the callback succeeds: that
    record gets the new access and refresh tokens, keeps a non-empty name
    and provider id, has an empty one filled in, and the table keeps its
    length.  When no record has that email and the fetched provider id is
    held by no record, one record is appended with the fetched identity
    and the new tokens.  When the callback has to write a provider id
    that another record holds (filling in an empty id with a different
    value, or creating a record), the commit fails, the session is rolled
    back and the callback answers 400 with the tables as they were. *)
Theorem callback_upserts_by_email
  (env : Env) (code : string) (credentials : Credentials) (info : Dict)
  (email : string) (st : St) :
  nonempty code = true ->
  fetch_token env code = Ok credentials ->
  userinfo env (token credentials) = Ok info ->
  dict_get info "email" = Some email ->
  let r := serve (callback env (Some code)) st in
  let refused :=
    (exists detail,
       fst r = Raise (HTTPException 400
                        ("Authentication failed: " ++ detail)))
    /\ db (snd r) = db st
    /\ out (snd r)
       = (out st ++ [Call (ReqFetchToken code);
                     Call (ReqUserInfo (token credentials));
                     Rollback])%list in
  (forall u,
     find (by_email email) (users (db st)) = Some u ->
     (truthy (User.google_id u) = false ->
      exists g, dict_get info "id" = Some g
                /\ (User.google_id u = Some g
                    \/ forall other, In other (users (db st)) ->
                                     User.id other <> User.id u ->
                                     User.google_id other <> Some g)) ->
     exists u',
       fst r = Ok (RedirectResponse
                     ("/auth/success?email=" ++ email
                      ++ "&name=" ++ fmt (User.name u')))
       /\ users (db (snd r)) = replace_user u' (users (db st))
       /\ In u' (users (db (snd r)))
       /\ List.length (users (db (snd r))) = List.length (users (db st))
       /\ emails (db (snd r)) = emails (db st)
       /\ User.id u' = User.id u
       /\ User.email u' = email
       /\ User.access_token u' = token credentials
       /\ User.refresh_token u' = refresh_token credentials
       /\ User.name u'
          = (if truthy (User.name u) then User.name u
             else Some (dict_get_default info "name" ""))
       /\ User.google_id u'
          = (if truthy (User.google_id u) then User.google_id u
             else dict_get info "id"))
  /\ (find (by_email email) (users (db st)) = None ->
      forall g,
        dict_get info "id" = Some g ->
        (forall other, In other (users (db st)) ->
                       User.google_id other <> Some g) ->
        fst r = Ok (RedirectResponse
                      ("/auth/success?email=" ++ email ++ "&name="
                       ++ dict_get_default info "name" ""))
        /\ users (db (snd r))
           = (users (db st)
              ++ [User.mk (next_id (map User.id (users (db st)))) email
                    (Some (dict_get_default info "name" "")) (Some g)
                    (token credentials) (refresh_token credentials)
                    (utcnow st) true])%list
        /\ emails (db (snd r)) = emails (db st))
  /\ (forall u g other,
        find (by_email email) (users (db st)) = Some u ->
        truthy (User.google_id u) = false ->
        dict_get info "id" = Some g ->
        User.google_id u <> Some g ->
        In other (users (db st)) ->
        User.id other <> User.id u ->
        User.google_id other = Some g ->
        refused)
  /\ (forall g other,
        find (by_email email) (users (db st)) = None ->
        dict_get info "id" = Some g ->
        In other (users (db st)) ->
        User.google_id other = Some g ->
        refused).
Proof.
  intros Hc Hf Hi He r refused. subst r refused. split; [|split; [|split]].
  - intros u Hu Hfree.
    pose proof (find_some _ _ Hu) as [Hin Hmail].
    apply String.eqb_eq in Hmail.
    destruct (refreshed_ok u credentials info) as (u' & R).
    { intros G. destruct (Hfree G) as (g & Hg & _). exists g. exact Hg. }
    destruct (refreshed_fields _ _ _ _ R)
      as (Fid & Fmail & Fat & Frt & _ & _ & Fname & Fgid).
    rewrite (callback_existing_run env code credentials info email st u u'
               Hc Hf Hi He Hu R).
    2:{ destruct (truthy (User.google_id u)) eqn:G.
        - left. rewrite Fgid. apply opt_same_refl.
        - destruct Fgid as (g & Hg & Hg').
          destruct (Hfree eq_refl) as (g' & Hg2 & Hother).
          assert (g' = g) by congruence. subst g'.
          destruct Hother as [Hsame|Hother].
          + left. rewrite Hsame, Hg'. apply opt_same_refl.
          + right. apply (google_id_free u' g _ Hg').
            intros other Ho Hne. apply (Hother other Ho).
            now rewrite <- Fid. }
    cbn [fst snd signed_in db users emails].
    exists u'. rewrite Fmail, Hmail.
    split; [reflexivity|]. split; [reflexivity|].
    split; [apply (replace_user_In u); assumption|].
    split; [apply replace_user_length|].
    split; [reflexivity|]. split; [exact Fid|]. split; [reflexivity|].
    split; [exact Fat|]. split; [exact Frt|]. split; [exact Fname|].
    destruct (truthy (User.google_id u)); [exact Fgid|].
    destruct Fgid as (g & Hg & Hg'). congruence.
  - intros Hnone g Hg Hfree.
    rewrite (callback_created_run env code credentials info email st g
               Hc Hf Hi He Hnone Hg Hfree).
    repeat split.
  - intros u g other Hu G Hg Hne Hin Hother Ho.
    destruct (refreshed_ok u credentials info) as (u' & R).
    { intros _. exists g. exact Hg. }
    destruct (refreshed_fields _ _ _ _ R) as (Fid & _ & _ & _ & _ & _ & _ & Fgid).
    rewrite G in Fgid. destruct Fgid as (g' & Hg' & Hgid).
    assert (g' = g) by congruence. subst g'.
    destruct (flush_refreshed_clash (utcnow st) u u' g (db st) other
                Fid Hgid Hne Hin Hother Ho) as (text & Hflush).
    rewrite (callback_existing_clash_run env code credentials info email st
               u u' _ Hc Hf Hi He Hu R Hflush).
    cbn [fst snd db out]. split; [|split; reflexivity].
    eexists; reflexivity.
  - intros g other Hnone Hg Hin Ho.
    destruct (flush_created_clash (utcnow st)
                (User.mk 0 email (Some (dict_get_default info "name" ""))
                   (Some g) (token credentials) (refresh_token credentials)
                   0 true)
                g (db st) other eq_refl Hin Ho) as (text & Hflush).
    rewrite (callback_created_clash_run env code credentials info email st
               g _ Hc Hf Hi He Hnone Hg Hflush).
    cbn [fst snd db out]. split; [|split; reflexivity].
    eexists; reflexivity.
Qed.

Lemma callback_upserts_by_email_witness :
  (exists u',
     fst (serve (callback (Samples.env_with Samples.working Samples.bob_again)
                   (Some "code")) Samples.st0)
     = Ok (RedirectResponse
             ("/auth/success?email=bob@example.com&name="
              ++ fmt (User.name u')))
     /\ User.access_token u' = "at-new"
     /\ User.name u' = Some "Bob"
     /\ User.google_id u' = Some "g-2")
  /\ users (db (snd (serve (callback
                              (Samples.env_with Samples.working
                                 Samples.carol)
                              (Some "code")) Samples.st0)))
     = [Samples.ada; Samples.bob;
        User.mk 3 "carol@example.com" (Some "Carol") (Some "g-3") "at-new"
          (Some "rt-new") 100 true]
  /\ db (snd (serve (callback
                       (Samples.env_with Samples.working Samples.bob_clash)
                       (Some "code")) Samples.st0))
     = Samples.store.
Proof.
  split; [|split].
  - destruct (proj1 (callback_upserts_by_email
                       (Samples.env_with Samples.working Samples.bob_again)
                       "code" (mkCredentials "at-new" (Some "rt-new"))
                       Samples.bob_again "bob@example.com" Samples.st0
                       eq_refl eq_refl eq_refl eq_refl)
                    Samples.bob eq_refl)
      as (u' & T1 & _ & _ & _ & _ & _ & _ & T8 & _ & T10 & T11).
    + intros _. exists "g-2". split; [reflexivity|]. right.
      intros other [<-|[<-|[]]] Hne; cbn; [discriminate | congruence].
    + exists u'. repeat split; assumption.
  - apply (proj1 (proj2 (callback_upserts_by_email
                    (Samples.env_with Samples.working Samples.carol)
                    "code" (mkCredentials "at-new" (Some "rt-new"))
                    Samples.carol "carol@example.com" Samples.st0
                    eq_refl eq_refl eq_refl eq_refl))
                 eq_refl "g-3" eq_refl).
    intros other [<-|[<-|[]]]; cbn; discriminate.
  - apply (proj1 (proj2 (proj2 (callback_upserts_by_email
                    (Samples.env_with Samples.working Samples.bob_clash)
                    "code" (mkCredentials "at-new" (Some "rt-new"))
                    Samples.bob_clash "bob@example.com" Samples.st0
                    eq_refl eq_refl eq_refl eq_refl)))
             Samples.bob "g-1" Samples.ada eq_refl eq_refl eq_refl);
      [discriminate | now left | discriminate | reflexivity].
Defined.

(** C3 fails as stated.  No record has the email [lovelace@example.com],
    yet the callback creates none: the fetched provider id is the one
    Ada's record holds, the commit violates its uniqueness, and the
    callback answers 400 with the table as it was.  Likewise Bob's
    record exists with an empty provider id, and the callback that would
    fill in an id held by Ada fails and leaves his tokens as they were. *)
Lemma provider_id_clash_fails_the_callback :
  find (by_email "lovelace@example.com") (users Samples.store) = None
  /\ (exists detail,
        serve (callback (Samples.env_with Samples.working
                           Samples.ada_renamed)
                 (Some "code")) Samples.st0
        = (Raise (HTTPException 400 ("Authentication failed: " ++ detail)),
           mkSt Samples.store [] 100
             [Call (ReqFetchToken "code"); Call (ReqUserInfo "at-new");
              Rollback]))
  /\ find (by_email "bob@example.com") (users Samples.store)
     = Some Samples.bob
  /\ (exists detail,
        serve (callback (Samples.env_with Samples.working Samples.bob_clash)
                 (Some "code")) Samples.st0
        = (Raise (HTTPException 400 ("Authentication failed: " ++ detail)),
           mkSt Samples.store [] 100
             [Call (ReqFetchToken "code"); Call (ReqUserInfo "at-new");
              Rollback])).
Proof.
  split; [reflexivity|]. split; [eexists; reflexivity|].
  split; [reflexivity|]. eexists; reflexivity.
Qed.

End Auth.

(** ** Listing the mirror *)

Module Listing.
Import Database Service Routes Notions Endpoints MoreNotions.
Open Scope monad_scope.

(** *** Orderings *)

Lemma ordering_In ordering x l :
  orders_newest_first ordering -> (In x (ordering l) <-> In x l).
Proof.
  intros [Hp _]. split; apply Permutation_in;
    [apply Hp | apply Permutation_sym, Hp].
Qed.

Lemma ordering_length ordering l :
  orders_newest_first ordering ->
  List.length (ordering l) = List.length l.
Proof. intros [Hp _]. apply Permutation_length, Hp. Qed.

Lemma insert_desc_perm r l :
  Permutation (MoreSamples.insert_desc r l) (r :: l).
Proof.
  induction l as [|y ys IH]; cbn [MoreSamples.insert_desc].
  - apply Permutation_refl.
  - destruct (Email.received_at y <=? Email.received_at r).
    + apply Permutation_refl.
    + apply (Permutation_trans (perm_skip y IH)). apply perm_swap.
Qed.

Lemma insert_desc_sorted r l :
  StronglySorted newer_or_same l ->
  StronglySorted newer_or_same (MoreSamples.insert_desc r l).
Proof.
  induction 1 as [|y ys Hs IH Hy]; cbn [MoreSamples.insert_desc].
  - repeat constructor.
  - destruct (Email.received_at y <=? Email.received_at r) eqn:E.
    + apply Z.leb_le in E. constructor; [constructor; assumption|].
      constructor; [exact E|].
      rewrite Forall_forall in *. intros z Hz. specialize (Hy z Hz).
      unfold newer_or_same in *. lia.
    + apply Z.leb_gt in E. constructor; [exact IH|].
      rewrite Forall_forall in *. intros z Hz.
      apply (Permutation_in _ (insert_desc_perm r ys)) in Hz.
      destruct Hz as [<-|Hz].
      * unfold newer_or_same. lia.
      * apply Hy, Hz.
Qed.

Lemma table_order_valid : orders_newest_first MoreSamples.table_order.
Proof.
  split; intros l; unfold MoreSamples.table_order;
    induction l as [|y ys IH]; cbn [fold_right].
  - apply Permutation_refl.
  - apply (Permutation_trans (insert_desc_perm _ _)).
    apply perm_skip, IH.
  - constructor.
  - apply insert_desc_sorted, IH.
Qed.

Lemma reverse_table_order_valid :
  orders_newest_first MoreSamples.reverse_table_order.
Proof.
  destruct table_order_valid as [Hp Hs].
  split; intros l; unfold MoreSamples.reverse_table_order.
  - apply (Permutation_trans (Hp (rev l))).
    apply Permutation_sym, Permutation_rev.
  - apply Hs.
Qed.

Lemma same_key_same_row {A} (f : A -> Z) (a b : A) l :
  NoDup (map f l) -> In a l -> In b l -> f a = f b -> a = b.
Proof.
  induction l as [|x xs IH]; intros Hnd Ha Hb Hf; [contradiction|].
  cbn [map] in Hnd. inversion Hnd as [|? ? Hx Hxs]; subst.
  destruct Ha as [->|Ha], Hb as [->|Hb]; auto.
  - exfalso. apply Hx. rewrite Hf. apply in_map, Hb.
  - exfalso. apply Hx. rewrite <- Hf. apply in_map, Ha.
Qed.

(** Rows with pairwise distinct timestamps have one newest-first
    arrangement only. *)
Lemma sorted_perm_unique (l1 : list Email.t) :
  forall l2,
    Permutation l1 l2 ->
    StronglySorted newer_or_same l1 ->
    StronglySorted newer_or_same l2 ->
    NoDup (map Email.received_at l1) ->
    l1 = l2.
Proof.
  induction l1 as [|x xs IH]; intros l2 Hp H1 H2 Hnd.
  - apply Permutation_nil in Hp. now subst.
  - destruct l2 as [|y ys];
      [apply Permutation_sym, Permutation_nil in Hp; discriminate|].
    assert (Hxy : x = y).
    { assert (Hx : In x (y :: ys))
        by (apply (Permutation_in _ Hp); now left).
      assert (Hy : In y (x :: xs))
        by (apply (Permutation_in _ (Permutation_sym Hp)); now left).
      destruct Hx as [<-|Hx]; [reflexivity|].
      destruct Hy as [->|Hy]; [reflexivity|].
      inversion H1 as [|? ? _ F1]; inversion H2 as [|? ? _ F2]; subst.
      rewrite Forall_forall in F1, F2.
      specialize (F1 y Hy). specialize (F2 x Hx).
      unfold newer_or_same in F1, F2.
      apply (same_key_same_row Email.received_at x y (x :: xs) Hnd);
        [now left | now right | lia]. }
    subst y. f_equal.
    apply IH.
    + exact (Permutation_cons_inv Hp).
    + now inversion H1.
    + now inversion H2.
    + cbn [map] in Hnd. now inversion Hnd.
Qed.

Lemma orderings_agree ordering ordering' l :
  orders_newest_first ordering -> orders_newest_first ordering' ->
  NoDup (map Email.received_at l) ->
  ordering l = ordering' l.
Proof.
  intros [P1 S1] [P2 S2] Hnd. apply sorted_perm_unique.
  - apply (Permutation_trans (P1 l)), Permutation_sym, P2.
  - apply S1.
  - apply S2.
  - apply (Permutation_NoDup (l := map Email.received_at l)); [|exact Hnd].
    apply Permutation_map, Permutation_sym, P1.
Qed.

Lemma distinctb_sound l : MoreSamples.distinctb l = true -> NoDup l.
Proof.
  induction l as [|x xs IH]; cbn [MoreSamples.distinctb]; [constructor|].
  rewrite andb_true_iff, negb_true_iff. intros [Hx Hxs].
  constructor; [|apply IH, Hxs].
  intros Hin.
  assert (existsb (Z.eqb x) xs = true)
    by (apply existsb_exists; exists x; split; [exact Hin|apply Z.eqb_refl]).
  congruence.
Qed.

(** *** Cutting a page *)

Lemma In_firstn {A} n (l : list A) x : In x (firstn n l) -> In x l.
Proof.
  revert l; induction n as [|n IH]; intros l; [contradiction|].
  destruct l as [|y ys]; [contradiction|].
  cbn [firstn In]. intros [->|H]; [now left | right; apply IH, H].
Qed.

Lemma In_skipn {A} n (l : list A) x : In x (skipn n l) -> In x l.
Proof.
  revert l; induction n as [|n IH]; intros l; [trivial|].
  destruct l as [|y ys]; [contradiction|].
  cbn [skipn]. intros H. right. apply IH, H.
Qed.

Lemma firstn_add {A} a b (l : list A) :
  firstn (a + b) l = (firstn a l ++ firstn b (skipn a l))%list.
Proof.
  revert l; induction a as [|a IH]; intros l; [reflexivity|].
  destruct l as [|y ys]; [now destruct b|].
  cbn [Nat.add firstn skipn app]. now rewrite IH.
Qed.

Lemma sorted_skipn {A} (R : A -> A -> Prop) n l :
  StronglySorted R l -> StronglySorted R (skipn n l).
Proof.
  revert l; induction n as [|n IH]; intros l Hs; [exact Hs|].
  destruct l as [|x xs]; [constructor|].
  cbn [skipn]. apply IH. now inversion Hs.
Qed.

Lemma sorted_firstn {A} (R : A -> A -> Prop) n l :
  StronglySorted R l -> StronglySorted R (firstn n l).
Proof.
  revert l; induction n as [|n IH]; intros l Hs; [constructor|].
  destruct l as [|x xs]; [constructor|].
  cbn [firstn]. inversion Hs as [|? ? Hxs Hx]; subst.
  constructor; [apply IH, Hxs|].
  rewrite Forall_forall in *. intros y Hy. apply Hx.
  apply (In_firstn n). exact Hy.
Qed.

(** What the listing answers for a known user, whatever the store's
    containment test and its order among equal timestamps. *)
Lemma get_emails_run ordering contains email page per_page query st user :
  find (by_email email) (users (db st)) = Some user ->
  serve (get_emails ordering contains email page per_page query) st
  = (Ok (EmailListResponse.mk
           (offset_limit ((page - 1) * per_page) per_page
              (listing ordering contains user query (db st)))
           (List.length
              (filter (selected contains user query) (emails (db st))))
           page per_page),
     fresh st).
Proof.
  intros Hu. apply Mirror.serve_run; [|reflexivity].
  unfold get_emails. rewrite Mirror.lookup_user.
  cbn [fresh db]. rewrite Hu. reflexivity.
Qed.

Lemma selected_inv contains user query r :
  selected contains user query r = true ->
  Email.user_id r = User.id user
  /\ Email.is_deleted r = false
  /\ forall q, query = Some q -> nonempty q = true ->
               matches contains q r = true.
Proof.
  unfold selected. rewrite !andb_true_iff, negb_true_iff, Z.eqb_eq.
  intros [[Hu Hd] Hq]. repeat split; auto.
  intros q -> Hn. now rewrite Hn in Hq.
Qed.

Lemma page_rows ordering contains user query d offset per_page r :
  orders_newest_first ordering ->
  In r (offset_limit offset per_page
          (listing ordering contains user query d)) ->
  In r (emails d) /\ selected contains user query r = true.
Proof.
  intros Ho Hr. unfold offset_limit, listing in Hr.
  apply In_firstn, In_skipn in Hr.
  apply (ordering_In _ _ _ Ho), filter_In in Hr. exact Hr.
Qed.

(** Every row of a page is a committed row of the asking user that is
    not deleted and passes the text filter; [total] counts exactly those
    rows, whatever the page; and the listing changes nothing.  This holds
    whatever the store's containment test and however it orders rows
    received at the same time. *)
Theorem listing_shows_own_visible_rows
  (ordering : Ordering) (contains : string -> string -> bool)
  (email : string) (page per_page : Z) (query : option string) (st : St)
  (user : User.t) :
  orders_newest_first ordering ->
  find (by_email email) (users (db st)) = Some user ->
  exists resp,
    serve (get_emails ordering contains email page per_page query) st
    = (Ok resp, fresh st)
    /\ EmailListResponse.total resp
       = List.length
           (filter (selected contains user query) (emails (db st)))
    /\ (List.length (EmailListResponse.emails resp)
        <= EmailListResponse.total resp)%nat
    /\ forall r,
         In r (EmailListResponse.emails resp) ->
         In r (emails (db st))
         /\ Email.user_id r = User.id user
         /\ Email.is_deleted r = false
         /\ forall q, query = Some q -> nonempty q = true ->
                      matches contains q r = true.
Proof.
  intros Ho Hu. eexists.
  split; [apply (get_emails_run _ _ _ _ _ _ _ _ Hu)|].
  cbn [EmailListResponse.total EmailListResponse.emails].
  split; [reflexivity|]. split.
  - unfold offset_limit, listing.
    rewrite length_firstn, length_skipn, (ordering_length _ _ Ho). lia.
  - intros r Hr.
    destruct (page_rows _ _ _ _ _ _ _ _ Ho Hr) as [Hin Hsel].
    split; [exact Hin|]. apply (selected_inv _ _ _ _ Hsel).
Qed.

Lemma listing_shows_own_visible_rows_witness :
  exists resp,
    serve (get_emails MoreSamples.table_order MoreSamples.like_contains
             "ada@example.com" 1 50 (Some "H_l%o"))
      Samples.st0
    = (Ok resp, fresh Samples.st0)
    /\ EmailListResponse.total resp = 2%nat
    /\ map Email.id (EmailListResponse.emails resp) = [1; 2].
Proof.
  destruct (listing_shows_own_visible_rows MoreSamples.table_order
              MoreSamples.like_contains "ada@example.com"
              1 50 (Some "H_l%o") Samples.st0 Samples.ada
              table_order_valid eq_refl)
    as (resp & Hrun & Htotal & _).
  exists resp. split; [exact Hrun|]. split; [rewrite Htotal; reflexivity|].
  assert (Hresp : Ok resp
                  = fst (serve (get_emails MoreSamples.table_order
                                  MoreSamples.like_contains
                                  "ada@example.com"
                                  1 50 (Some "H_l%o")) Samples.st0))
    by (rewrite Hrun; reflexivity).
  vm_compute in Hresp. injection Hresp as ->. reflexivity.
Defined.

(** Pagination: for page >= 1 and per_page >= 1 a page holds
    min(per_page, max(0, total - (page - 1) * per_page)) rows, however
    the store orders rows received at the same time.  When no two of the
    selected rows were received at the same time, the page is moreover
    the slice of the one newest-first result that every query returns:
    the first page * per_page rows of that result are its first
    (page - 1) * per_page rows followed by this page, whichever order the
    store used for this query and for any other. *)
Theorem listing_pages_tile_the_result
  (ordering ordering' : Ordering) (contains : string -> string -> bool)
  (email : string) (page per_page : Z) (query : option string) (st : St)
  (user : User.t) :
  orders_newest_first ordering -> orders_newest_first ordering' ->
  find (by_email email) (users (db st)) = Some user ->
  1 <= page -> 1 <= per_page ->
  exists resp,
    serve (get_emails ordering contains email page per_page query) st
    = (Ok resp, fresh st)
    /\ Z.of_nat (List.length (EmailListResponse.emails resp))
       = Z.min per_page
           (Z.max 0 (Z.of_nat (EmailListResponse.total resp)
                     - (page - 1) * per_page))
    /\ (distinct_times contains user query (db st) ->
        firstn (Z.to_nat (page * per_page))
          (listing ordering' contains user query (db st))
        = (firstn (Z.to_nat ((page - 1) * per_page))
             (listing ordering' contains user query (db st))
           ++ EmailListResponse.emails resp)%list).
Proof.
  intros Ho Ho' Hu Hp Hpp. eexists.
  split; [apply (get_emails_run _ _ _ _ _ _ _ _ Hu)|].
  cbn [EmailListResponse.total EmailListResponse.emails].
  unfold offset_limit. split.
  - rewrite length_firstn, length_skipn. unfold listing.
    rewrite (ordering_length _ _ Ho).
    set (n := List.length (filter _ _)). nia.
  - intros Hd. unfold listing.
    rewrite (orderings_agree ordering ordering' _ Ho Ho' Hd).
    rewrite <- firstn_add. f_equal. nia.
Qed.

Lemma listing_pages_tile_the_result_witness :
  exists resp,
    serve (get_emails MoreSamples.reverse_table_order
             MoreSamples.like_contains "ada@example.com" 3 50 None)
      (MoreSamples.inbox 125)
    = (Ok resp, fresh (MoreSamples.inbox 125))
    /\ EmailListResponse.total resp = 125%nat
    /\ Z.of_nat (List.length (EmailListResponse.emails resp)) = 25
    /\ firstn 150
         (listing MoreSamples.table_order MoreSamples.like_contains
            Samples.ada None (db (MoreSamples.inbox 125)))
       = (firstn 100
            (listing MoreSamples.table_order MoreSamples.like_contains
               Samples.ada None (db (MoreSamples.inbox 125)))
          ++ EmailListResponse.emails resp)%list.
Proof.
  destruct (listing_pages_tile_the_result MoreSamples.reverse_table_order
              MoreSamples.table_order MoreSamples.like_contains
              "ada@example.com" 3 50 None (MoreSamples.inbox 125)
              Samples.ada reverse_table_order_valid table_order_valid
              eq_refl)
    as (resp & Hrun & Hlen & Htile); [lia | lia |].
  exists resp. split; [exact Hrun|].
  assert (Htotal : EmailListResponse.total resp = 125%nat).
  { assert (Hresp : Ok resp
                    = fst (serve (get_emails MoreSamples.reverse_table_order
                                    MoreSamples.like_contains
                                    "ada@example.com" 3 50 None)
                             (MoreSamples.inbox 125)))
      by (rewrite Hrun; reflexivity).
    vm_compute in Hresp. injection Hresp as ->. reflexivity. }
  split; [exact Htotal|].
  split; [rewrite Hlen, Htotal; reflexivity|].
  apply Htile. unfold distinct_times.
  apply distinctb_sound. vm_compute. reflexivity.
Defined.

(** Why distinct timestamps are needed: with two rows received at the
    same time, a store that orders them one way for the query of page 1
    and the other way for the query of page 2 shows the same row on both
    pages, and the other row on neither. *)
Lemma equal_timestamps_can_repeat_a_row :
  let twin (i : Z) :=
    Email.mk i ("m" ++ string_of_Z i) 1 "t" "Subject" "x@example.com"
      "ada@example.com" "text" "" false false false [] 7 0 in
  let st := mkSt (mkDB [Samples.ada] [twin 1; twin 2]) [] 100 [] in
  let shown ordering page :=
    match fst (serve (get_emails ordering MoreSamples.like_contains
                        "ada@example.com" page 1 None) st)
    with
    | Ok resp => map Email.id (EmailListResponse.emails resp)
    | Raise _ => []
    end in
  shown MoreSamples.table_order 1 = [1]
  /\ shown MoreSamples.reverse_table_order 2 = [1].
Proof. split; reflexivity. Qed.

Lemma sorted_split {A} (R : A -> A -> Prop) (l1 l2 : list A) :
  StronglySorted R (l1 ++ l2) ->
  forall a b, In a l1 -> In b l2 -> R a b.
Proof.
  induction l1 as [|x xs IH]; intros Hs a b Ha Hb; [contradiction|].
  cbn [app] in Hs. inversion Hs as [|? ? Hxs Hx]; subst.
  destruct Ha as [->|Ha].
  - rewrite Forall_forall in Hx. apply Hx, in_or_app. now right.
  - apply (IH Hxs a b Ha Hb).
Qed.

(** A page is ordered newest first, and each of its rows was received no
    earlier than any row that the ordered result of its query holds
    after the page, however the store orders rows received at the same
    time. *)
Theorem listing_is_newest_first
  (ordering : Ordering) (contains : string -> string -> bool)
  (email : string) (page per_page : Z) (query : option string) (st : St)
  (user : User.t) :
  orders_newest_first ordering ->
  find (by_email email) (users (db st)) = Some user ->
  exists resp,
    serve (get_emails ordering contains email page per_page query) st
    = (Ok resp, fresh st)
    /\ StronglySorted newer_or_same (EmailListResponse.emails resp)
    /\ forall a b,
         In a (EmailListResponse.emails resp) ->
         In b (skipn (Z.to_nat per_page)
                 (skipn (Z.to_nat ((page - 1) * per_page))
                    (listing ordering contains user query (db st)))) ->
         newer_or_same a b.
Proof.
  intros Ho Hu. eexists.
  split; [apply (get_emails_run _ _ _ _ _ _ _ _ Hu)|].
  cbn [EmailListResponse.emails]. unfold offset_limit.
  pose proof (sorted_skipn newer_or_same
                (Z.to_nat ((page - 1) * per_page)) _
                (newest_first _ Ho
                   (filter (selected contains user query) (emails (db st)))))
    as Hs.
  fold (listing ordering contains user query (db st)) in Hs.
  split; [apply sorted_firstn, Hs|].
  apply sorted_split. rewrite firstn_skipn. exact Hs.
Qed.

Lemma listing_is_newest_first_witness :
  exists resp,
    serve (get_emails MoreSamples.table_order MoreSamples.like_contains
             "ada@example.com" 1 2 None)
      (MoreSamples.inbox 5)
    = (Ok resp, fresh (MoreSamples.inbox 5))
    /\ StronglySorted newer_or_same (EmailListResponse.emails resp).
Proof.
  destruct (listing_is_newest_first MoreSamples.table_order
              MoreSamples.like_contains "ada@example.com"
              1 2 None (MoreSamples.inbox 5) Samples.ada
              table_order_valid eq_refl)
    as (resp & Hrun & Hs & _).
  exists resp. split; assumption.
Defined.

End Listing.

(** ** Endpoints that relay to the provider *)

Module Relays.
Import Database Service Routes Notions Endpoints MoreNotions.
Open Scope monad_scope.

(** *** Computations that leave the session alone *)

Lemma quiet_ret {A} (a : A) : quiet (ret a).
Proof.
  intros st r st' [= <- <-]. repeat split; auto.
  exists []. now rewrite app_nil_r.
Qed.

Lemma quiet_raise {A} e : quiet (@raise A e).
Proof.
  intros st r st' [= <- <-]. repeat split; auto.
  exists []. now rewrite app_nil_r.
Qed.

Lemma quiet_lift {A} (x : result A) : quiet (lift x).
Proof.
  intros st r st' [= <- <-]. repeat split; auto.
  exists []. now rewrite app_nil_r.
Qed.

Lemma quiet_emit ev : is_session_event ev = false -> quiet (emit ev).
Proof.
  intros He st r st' [= <- <-]. cbn. repeat split; auto.
  exists [ev]. cbn. now rewrite He.
Qed.

Lemma quiet_bind {A B} (m : M A) (k : A -> M B) :
  quiet m -> (forall a, quiet (k a)) -> quiet (bind m k).
Proof.
  intros Hm Hk st r st'. unfold bind.
  destruct (m st) as [[a|e] st1] eqn:E;
    destruct (Hm _ _ _ E) as (D1 & P1 & C1 & evs1 & O1 & S1).
  - intros H. destruct (Hk a _ _ _ H) as (D2 & P2 & C2 & evs2 & O2 & S2).
    repeat split; try congruence.
    exists (evs1 ++ evs2)%list. rewrite O2, O1, app_assoc.
    split; [reflexivity|]. now rewrite existsb_app, S1, S2.
  - intros [= <- <-]. repeat split; auto. exists evs1. auto.
Qed.

Lemma quiet_try_except {A} (m : M A) (h : PyExc -> M A) :
  quiet m -> (forall e, quiet (h e)) -> quiet (try_except m h).
Proof.
  intros Hm Hh st r st'. unfold try_except.
  destruct (m st) as [[a|e] st1] eqn:E;
    destruct (Hm _ _ _ E) as (D1 & P1 & C1 & evs1 & O1 & S1).
  - intros [= <- <-]. repeat split; auto. exists evs1. auto.
  - intros H. destruct (Hh e _ _ _ H) as (D2 & P2 & C2 & evs2 & O2 & S2).
    repeat split; try congruence.
    exists (evs1 ++ evs2)%list. rewrite O2, O1, app_assoc.
    split; [reflexivity|]. now rewrite existsb_app, S1, S2.
Qed.

Lemma quiet_try_except_HttpError {A} (m : M A) (h : PyExc -> M A) :
  quiet m -> (forall e, quiet (h e)) -> quiet (try_except_HttpError m h).
Proof.
  intros Hm Hh st r st'. unfold try_except_HttpError.
  destruct (m st) as [[a|e] st1] eqn:E;
    destruct (Hm _ _ _ E) as (D1 & P1 & C1 & evs1 & O1 & S1).
  - intros [= <- <-]. repeat split; auto. exists evs1. auto.
  - destruct (is_HttpError e).
    + intros H.
      destruct (Hh e _ _ _ H) as (D2 & P2 & C2 & evs2 & O2 & S2).
      repeat split; try congruence.
      exists (evs1 ++ evs2)%list. rewrite O2, O1, app_assoc.
      split; [reflexivity|]. now rewrite existsb_app, S1, S2.
    + intros [= <- <-]. repeat split; auto. exists evs1. auto.
Qed.

Lemma quiet_first_user p : quiet (first_user p).
Proof.
  intros st r st' [= <- <-]. repeat split; auto.
  exists []. now rewrite app_nil_r.
Qed.

Lemma quiet_execute {A} req (outcome : result A) :
  quiet (execute req outcome).
Proof.
  apply quiet_bind; [apply quiet_emit; reflexivity|].
  intros _. apply quiet_lift.
Qed.

Lemma quiet_print line e : quiet (print line e).
Proof. apply quiet_emit. reflexivity. Qed.

Ltac quiet :=
  repeat first
    [ apply quiet_ret | apply quiet_raise | apply quiet_lift
    | apply quiet_print | apply quiet_execute | apply quiet_first_user
    | apply quiet_try_except_HttpError | apply quiet_try_except
    | apply quiet_bind
    | match goal with
      | |- forall _, _ => intro
      | |- quiet (match ?x with _ => _ end) => destruct x
      | |- quiet (if ?x then _ else _) => destruct x
      end ].

(** Every operation of the gateway leaves the session alone. *)
Lemma quiet_perform env service op : quiet (Notions.perform env service op).
Proof.
  destruct op; unfold perform, list_messages, get_message, send_email,
    create_draft, update_draft, delete_draft, send_draft, modify_message,
    create_calendar_event, list_calendar_events, get_calendar_event,
    update_calendar_event, delete_calendar_event; cbv zeta; quiet.
Qed.

Lemma quiet_relay env c : quiet (relay env c).
Proof.
  destruct c; unfold relay, send_email_route, create_draft_route,
    update_draft_route, delete_draft_route, send_draft_route,
    build_service, send_email, create_draft, update_draft, delete_draft,
    send_draft; cbv zeta; quiet.
Qed.

Lemma serve_quiet {A} (h : M A) st :
  quiet h ->
  db (snd (serve h st)) = db st
  /\ exists evs, out (snd (serve h st)) = (out st ++ evs)%list
                 /\ existsb is_session_event evs = false.
Proof.
  intros Hq. unfold serve.
  destruct (h _) as [r st'] eqn:E.
  destruct (Hq _ _ _ E) as (D & _ & _ & evs & O & S).
  cbn [snd db out] in *. split; [exact D|]. exists evs. auto.
Qed.

Lemma wrapped_500 {A} (m : M A) (f : PyExc -> string) st e st' :
  try_except m (fun e => raise (HTTPException 500 (f e))) st
  = (Raise e, st') ->
  exists d, e = HTTPException 500 d.
Proof.
  unfold try_except, raise. destruct (m st) as [[a|e0] st1].
  - discriminate.
  - intros [= <- _]. eexists; reflexivity.
Qed.

Lemma relay_raises env c st e st' :
  relay env c st = (Raise e, st') ->
  e = HTTPException 404 "User not found"
  \/ exists d, e = HTTPException 500 d.
Proof.
  destruct c; unfold relay, send_email_route, create_draft_route,
    update_draft_route, delete_draft_route, send_draft_route;
    rewrite Mirror.lookup_user;
    (destruct (find _ _);
     [ intros H; right; exact (wrapped_500 _ _ _ _ _ H)
     | intros [= <- _]; left; reflexivity ]).
Qed.

(** Sending a message and creating, updating, deleting or sending a
    draft never change the committed tables and never commit or roll
    back; and when they fail they answer 404 for an unknown user and 500
    for everything else, whatever status the provider reported. *)
Theorem relays_leave_the_store_alone (env : Env) (c : Relay) (st : St) :
  db (snd (serve (relay env c) st)) = db st
  /\ (exists evs,
        out (snd (serve (relay env c) st)) = (out st ++ evs)%list
        /\ existsb is_session_event evs = false)
  /\ forall e,
       fst (serve (relay env c) st) = Raise e ->
       e = HTTPException 404 "User not found"
       \/ exists d, e = HTTPException 500 d.
Proof.
  destruct (serve_quiet (relay env c) st (quiet_relay env c)) as [D O].
  split; [exact D|]. split; [exact O|].
  intros e. unfold serve.
  destruct (relay env c _) as [r st'] eqn:E. cbn [fst].
  intros ->. exact (relay_raises _ _ _ _ _ E).
Qed.

(** What sending answers for a known user. *)
Lemma send_email_route_run env email to subject body st user :
  find (by_email email) (users (db st)) = Some user ->
  let failed e := @Raise Reply (HTTPException 500
                                  ("Send failed: " ++ str e)) in
  serve (send_email_route env email to subject body) st
  = match build env "gmail" "v1"
            (mkCredentials (User.access_token user)
               (User.refresh_token user))
    with
    | Raise e => (failed e, fresh st)
    | Ok service =>
        match mime_raw env to subject body None None with
        | Raise e =>
            if is_HttpError e
            then (failed (HTTPException 500 "Failed to send email"),
                  log (fresh st) [Print "Error sending email: " e])
            else (failed e, fresh st)
        | Ok raw =>
            match messages_send service raw with
            | Ok d =>
                (match d with
                 | [] => failed (HTTPException 500 "Failed to send email")
                 | _ :: _ =>
                     match dict_get d "id" with
                     | Some id => Ok (Sent "Email sent successfully" id)
                     | None => failed (KeyError "id")
                     end
                 end,
                 log (fresh st) [Call (ReqMessagesSend raw)])
            | Raise e =>
                if is_HttpError e
                then (failed (HTTPException 500 "Failed to send email"),
                      log (fresh st)
                        [Call (ReqMessagesSend raw);
                         Print "Error sending email: " e])
                else (failed e,
                      log (fresh st) [Call (ReqMessagesSend raw)])
            end
        end
    end.
Proof.
  intros Hu failed.
  assert (Hrun : forall r st',
             send_email_route env email to subject body (fresh st)
             = (r, st') ->
             pending st' = [] ->
             serve (send_email_route env email to subject body) st
             = (r, st'))
    by (intros r st'; apply Mirror.serve_run).
  unfold send_email_route in Hrun at 1. rewrite Mirror.lookup_user in Hrun.
  cbn [fresh db] in Hrun. rewrite Hu in Hrun.
  unfold try_except, build_service, lift in Hrun.
  unfold bind at 1 in Hrun.
  destruct (build env "gmail" "v1" _) as [service|e];
    [|apply Hrun; reflexivity].
  unfold bind at 1, send_email in Hrun. cbv zeta in Hrun.
  fold (@lift string) in Hrun.
  rewrite Gateway.guarded_send in Hrun.
  destruct (mime_raw env to subject body None None) as [raw|e].
  - destruct (messages_send service raw) as [d|e].
    + destruct d as [|kv d]; [apply Hrun; reflexivity|].
      cbn [present] in Hrun. unfold bind at 1, lift, dict_item in Hrun.
      destruct (dict_get (kv :: d) "id"); apply Hrun; reflexivity.
    + destruct (is_HttpError e); apply Hrun; reflexivity.
  - destruct (is_HttpError e); apply Hrun; reflexivity.
Qed.

(** Sending answers success exactly when the user is known, the
    capability is built, the message is built and encoded, and the
    provider's send call returns a resource with an id; the answer then
    carries that id.  When the message cannot be built, the endpoint
    answers 500 and no request reaches the provider. *)
Theorem send_succeeds_exactly_with_a_provider_id
  (env : Env) (email to subject body : string) (st : St) (reply : Reply) :
  (fst (serve (send_email_route env email to subject body) st) = Ok reply
   <-> exists user service raw d id,
         find (by_email email) (users (db st)) = Some user
         /\ build env "gmail" "v1"
              (mkCredentials (User.access_token user)
                 (User.refresh_token user)) = Ok service
         /\ mime_raw env to subject body None None = Ok raw
         /\ messages_send service raw = Ok d
         /\ dict_get d "id" = Some id
         /\ reply = Sent "Email sent successfully" id)
  /\ (forall user service e,
        find (by_email email) (users (db st)) = Some user ->
        build env "gmail" "v1"
          (mkCredentials (User.access_token user)
             (User.refresh_token user)) = Ok service ->
        mime_raw env to subject body None None = Raise e ->
        exists detail evs,
          serve (send_email_route env email to subject body) st
          = (Raise (HTTPException 500 detail), log (fresh st) evs)
          /\ forall req, ~ In (Call req) evs).
Proof.
  split.
  - destruct (find (by_email email) (users (db st))) as [user|] eqn:Hu.
    + rewrite (send_email_route_run env email to subject body st user Hu).
      cbv zeta. split.
      * destruct (build env "gmail" "v1" _) as [service|e] eqn:Hb;
          [|discriminate].
        destruct (mime_raw env to subject body None None) as [raw|e] eqn:Hm;
          [|destruct (is_HttpError e); discriminate].
        destruct (messages_send service raw) as [d|e] eqn:Hs;
          [|destruct (is_HttpError e); discriminate].
        destruct d as [|kv d]; [discriminate|].
        destruct (dict_get (kv :: d) "id") as [id|] eqn:Hi;
          [|discriminate].
        cbn [fst]. intros [= <-].
        exists user, service, raw, (kv :: d), id. auto 7.
      * intros (user' & service & raw & d & id & [= <-] & Hb & Hm & Hs & Hi
                & ->).
        rewrite Hb, Hm, Hs. destruct d as [|kv d]; [discriminate Hi|].
        now rewrite Hi.
    + split.
      * unfold serve, send_email_route. rewrite Mirror.lookup_user.
        cbn [db]. rewrite Hu. discriminate.
      * intros (user' & _ & _ & _ & _ & Hf & _). discriminate Hf.
  - intros user service e Hu Hb Hm.
    rewrite (send_email_route_run env email to subject body st user Hu).
    cbv zeta. rewrite Hb, Hm.
    destruct (is_HttpError e).
    + exists ("Send failed: " ++ str (HTTPException 500 "Failed to send email")),
        [Print "Error sending email: " e].
      split; [reflexivity|]. intros req [H|[]]. discriminate H.
    + exists ("Send failed: " ++ str e), [].
      split; [|intros req []].
      unfold log. rewrite app_nil_r. reflexivity.
Qed.

(** An unknown email is answered 404 "User not found" by every endpoint
    that looks the user up, before anything else happens: no provider
    call, no change, no commit. *)
Theorem unknown_user_is_answered_404
  (env : Env) (ordering : Ordering) (contains : string -> string -> bool)
  (email to subject body id : string) (cc bcc query : option string)
  (email_id page per_page : Z) (st : St) :
  find (by_email email) (users (db st)) = None ->
  let e := HTTPException 404 "User not found" in
  serve (get_current_user email) st = (Raise e, fresh st)
  /\ serve (sync_emails env email) st = (Raise e, fresh st)
  /\ serve (get_emails ordering contains email page per_page query) st
     = (Raise e, fresh st)
  /\ serve (get_email email_id email) st = (Raise e, fresh st)
  /\ serve (toggle_star_email env email_id email) st = (Raise e, fresh st)
  /\ serve (star_email env email_id email) st = (Raise e, fresh st)
  /\ serve (unstar_email env email_id email) st = (Raise e, fresh st)
  /\ serve (delete_email email_id email) st = (Raise e, fresh st)
  /\ serve (send_email_route env email to subject body) st
     = (Raise e, fresh st)
  /\ serve (create_draft_route env email to subject body cc bcc) st
     = (Raise e, fresh st)
  /\ serve (update_draft_route env id email to subject body cc bcc) st
     = (Raise e, fresh st)
  /\ serve (delete_draft_route env id email) st = (Raise e, fresh st)
  /\ serve (send_draft_route env id email) st = (Raise e, fresh st).
Proof.
  intros Hu e.
  repeat split; (apply Mirror.serve_run; [|reflexivity]);
    unfold get_current_user, sync_emails, get_emails, get_email,
      toggle_star_email, star_email, unstar_email, delete_email,
      send_email_route, create_draft_route, update_draft_route,
      delete_draft_route, send_draft_route;
    rewrite Mirror.lookup_user; cbn [fresh db]; rewrite Hu; reflexivity.
Qed.

Lemma unknown_user_is_answered_404_witness :
  serve (sync_emails (Samples.env_with Samples.working [])
           "nobody@example.com") Samples.st0
  = (Raise (HTTPException 404 "User not found"), Samples.st0)
  /\ serve (delete_email 1 "nobody@example.com") Samples.st0
     = (Raise (HTTPException 404 "User not found"), Samples.st0).
Proof.
  pose proof (unknown_user_is_answered_404
                (Samples.env_with Samples.working [])
                MoreSamples.table_order MoreSamples.like_contains
                "nobody@example.com" "" "" "" "" None None None 1 1 1
                Samples.st0 eq_refl) as T.
  cbv zeta in T.
  destruct T as (_ & T2 & _ & _ & _ & _ & _ & T8 & _).
  split; [exact T2 | exact T8].
Defined.

End Relays.

(** ** How the per-message endpoints compose *)

Module MirrorOps.
Import Database Service Routes Notions Endpoints MoreNotions.
Open Scope monad_scope.

Lemma replace_email_ids e rows :
  map Email.id (replace_email e rows) = map Email.id rows.
Proof.
  induction rows as [|x xs IH]; [reflexivity|].
  cbn [replace_email map]. fold (replace_email e xs). rewrite IH.
  destruct (Email.id x =? Email.id e) eqn:E; [|reflexivity].
  apply Z.eqb_eq in E. now rewrite E.
Qed.

Lemma replace_email_keeps_others e rows r :
  In r rows -> Email.id r <> Email.id e -> In r (replace_email e rows).
Proof.
  intros Hin Hne. unfold replace_email. apply in_map_iff.
  exists r. split; [|exact Hin].
  destruct (Email.id r =? Email.id e) eqn:E; [|reflexivity].
  apply Z.eqb_eq in E. contradiction.
Qed.

Lemma replace_email_inv e rows r :
  In r (replace_email e rows) -> Email.id r = Email.id e -> r = e.
Proof.
  unfold replace_email. intros Hin Hid. apply in_map_iff in Hin.
  destruct Hin as (x & Hx & _).
  destruct (Email.id x =? Email.id e) eqn:E; [congruence|].
  apply Z.eqb_neq in E. subst x. contradiction.
Qed.

Lemma replace_email_twice a b rows :
  Email.id a = Email.id b ->
  replace_email a (replace_email b rows) = replace_email a rows.
Proof.
  intros Hid. unfold replace_email. rewrite map_map. apply map_ext.
  intros x. destruct (Email.id x =? Email.id b) eqn:E.
  - apply Z.eqb_eq in E. now rewrite <- Hid, Z.eqb_refl, Hid, <- E,
      Z.eqb_refl.
  - reflexivity.
Qed.

Lemma message_endpoint_unknown env c email_id email st :
  find (by_email email) (users (db st)) = None ->
  serve (message_endpoint env c email_id email) st
  = (Raise (HTTPException 404 "User not found"), fresh st).
Proof.
  intros Hu. destruct c; cbn [message_endpoint];
    (apply Mirror.serve_run; [|reflexivity]);
    unfold get_email, toggle_star_email, star_email, unstar_email,
      delete_email;
    rewrite Mirror.lookup_user; cbn [fresh db]; rewrite Hu; reflexivity.
Qed.

(** The outcomes of a per-message endpoint: nothing changes, or one
    commit writes back a row with the requested id. *)
Lemma message_endpoint_outcome env c email_id email st :
  db (snd (serve (message_endpoint env c email_id email) st)) = db st
  \/ exists rec',
       Email.id rec' = email_id
       /\ db (snd (serve (message_endpoint env c email_id email) st))
          = mkDB (users (db st)) (replace_email rec' (emails (db st))).
Proof.
  destruct (find (by_email email) (users (db st))) as [user|] eqn:Hu.
  2:{ left. now rewrite (message_endpoint_unknown env c email_id email st Hu). }
  destruct c; cbn [message_endpoint].
  - destruct (find (visible email_id user) (emails (db st))) as [rec|] eqn:Hr.
    + rewrite (Mirror.get_email_run _ _ _ _ _ Hu Hr).
      destruct (Mirror.visible_inv _ _ _ (proj2 (find_some _ _ Hr)))
        as (Hid & _).
      destruct (Email.is_read rec); [left; reflexivity|].
      right. eexists. split; [|reflexivity]. exact Hid.
    + left. now rewrite (proj1 (Mirror.not_found_run env _ _ _ _ Hu Hr)).
  - destruct (find (visible email_id user) (emails (db st))) as [rec|] eqn:Hr.
    + rewrite (Mirror.toggle_star_email_run env _ _ _ _ _ Hu Hr).
      destruct (Mirror.visible_inv _ _ _ (proj2 (find_some _ _ Hr)))
        as (Hid & _).
      right. eexists. split; [|reflexivity]. exact Hid.
    + left.
      now rewrite (proj1 (proj2 (Mirror.not_found_run env _ _ _ _ Hu Hr))).
  - destruct (find (visible email_id user) (emails (db st))) as [rec|] eqn:Hr.
    + rewrite (Mirror.star_email_run env _ _ _ _ _ Hu Hr).
      destruct (Mirror.visible_inv _ _ _ (proj2 (find_some _ _ Hr)))
        as (Hid & _).
      destruct (Email.is_starred rec); [left; reflexivity|].
      right. eexists. split; [|reflexivity]. exact Hid.
    + left.
      now rewrite (proj1 (proj2 (proj2
                     (Mirror.not_found_run env _ _ _ _ Hu Hr)))).
  - destruct (find (visible email_id user) (emails (db st))) as [rec|] eqn:Hr.
    + rewrite (Mirror.unstar_email_run env _ _ _ _ _ Hu Hr).
      destruct (Mirror.visible_inv _ _ _ (proj2 (find_some _ _ Hr)))
        as (Hid & _).
      destruct (Email.is_starred rec); [|left; reflexivity].
      right. eexists. split; [|reflexivity]. exact Hid.
    + left.
      now rewrite (proj2 (proj2 (proj2
                     (Mirror.not_found_run env _ _ _ _ Hu Hr)))).
  - destruct (find (owned email_id user) (emails (db st))) as [rec|] eqn:Hr.
    + rewrite (Mirror.delete_email_run _ _ _ _ _ Hu Hr).
      destruct (Mirror.owned_inv _ _ _ (proj2 (find_some _ _ Hr)))
        as (Hid & _).
      right. eexists. split; [|reflexivity]. exact Hid.
    + left. unfold serve, delete_email. rewrite Mirror.lookup_user.
      cbn [db]. rewrite Hu. rewrite Mirror.lookup_email. cbn [db].
      rewrite Hr. reflexivity.
Qed.

(** Fetching, starring, unstarring and deleting a message touch that
    message only: the users table is as before, the mirror has the same
    rows by id in the same order, and every row with another id is still
    there unchanged, whatever the provider does. *)
Theorem message_endpoints_touch_one_row
  (env : Env) (c : MessageCall) (email_id : Z) (email : string) (st : St) :
  let st' := snd (serve (message_endpoint env c email_id email) st) in
  users (db st') = users (db st)
  /\ map Email.id (emails (db st')) = map Email.id (emails (db st))
  /\ forall r, In r (emails (db st)) -> Email.id r <> email_id ->
               In r (emails (db st')).
Proof.
  cbv zeta.
  destruct (message_endpoint_outcome env c email_id email st)
    as [-> | (rec' & Hid & ->)].
  - repeat split; auto.
  - cbn [users emails]. split; [reflexivity|].
    split; [apply replace_email_ids|].
    intros r Hin Hne. apply replace_email_keeps_others; congruence.
Qed.

(** A message mirrored for one user is out of reach of another: with
    unique primary keys, every per-message endpoint called by a user who
    does not own the row answers 404 "Email not found" and changes
    nothing. *)
Theorem other_users_messages_are_out_of_reach
  (env : Env) (c : MessageCall) (email_id : Z) (email : string) (st : St)
  (user : User.t) (rec : Email.t) :
  find (by_email email) (users (db st)) = Some user ->
  NoDup (map Email.id (emails (db st))) ->
  In rec (emails (db st)) ->
  Email.id rec = email_id ->
  Email.user_id rec <> User.id user ->
  serve (message_endpoint env c email_id email) st
  = (Raise (HTTPException 404 "Email not found"), fresh st).
Proof.
  intros Hu Hnd Hin Hid Hown.
  assert (Hv : find (visible email_id user) (emails (db st)) = None).
  { rewrite (Mirror.find_by_id _ _ rec Hnd Hin).
    - unfold visible. apply Z.eqb_neq in Hown. now rewrite Hown, andb_false_r.
    - intros x Hx. apply Mirror.visible_inv in Hx. rewrite Hid. tauto. }
  assert (Ho : find (owned email_id user) (emails (db st)) = None).
  { rewrite (Mirror.find_by_id _ _ rec Hnd Hin).
    - unfold owned. apply Z.eqb_neq in Hown. now rewrite Hown, andb_false_r.
    - intros x Hx. apply Mirror.owned_inv in Hx. rewrite Hid. tauto. }
  destruct (Mirror.not_found_run env email_id email st user Hu Hv)
    as (T1 & T2 & T3 & T4).
  destruct c; cbn [message_endpoint]; try assumption.
  apply Mirror.serve_run; [|reflexivity].
  unfold delete_email. rewrite Mirror.lookup_user. cbn [fresh db].
  rewrite Hu, Mirror.lookup_email. cbn [fresh db]. rewrite Ho. reflexivity.
Qed.

Lemma other_users_messages_are_out_of_reach_witness :
  serve (message_endpoint (Samples.env_with Samples.working []) Delete 1
           "bob@example.com") Samples.st0
  = (Raise (HTTPException 404 "Email not found"), Samples.st0).
Proof.
  apply (other_users_messages_are_out_of_reach
           (Samples.env_with Samples.working []) Delete 1
           "bob@example.com" Samples.st0 Samples.bob
           (Samples.mail 1 "m1" false false false)).
  - reflexivity.
  - cbn. repeat constructor; cbn; intuition discriminate.
  - left; reflexivity.
  - reflexivity.
  - cbn. discriminate.
Defined.

Lemma with_is_starred_back rec :
  Email.with_is_starred (negb (negb (Email.is_starred rec)))
    (Email.with_is_starred (negb (Email.is_starred rec)) rec) = rec.
Proof. destruct rec as [? ? ? ? ? ? ? ? ? ? s ? ? ? ?]; cbn. now destruct s. Qed.

Lemma db_eta d : mkDB (users d) (emails d) = d.
Proof. now destruct d. Qed.

(** Toggling the star of a message twice brings the tables back to what
    they were, whatever the provider did in between; the second answer
    reports the flag the message had at first. *)
Theorem toggling_twice_restores_the_tables
  (env1 env2 : Env) (email_id : Z) (email : string) (st : St)
  (user : User.t) (rec : Email.t) :
  find (by_email email) (users (db st)) = Some user ->
  find (visible email_id user) (emails (db st)) = Some rec ->
  NoDup (map Email.id (emails (db st))) ->
  let st1 := snd (serve (toggle_star_email env1 email_id email) st) in
  let r2 := serve (toggle_star_email env2 email_id email) st1 in
  db (snd r2) = db st
  /\ fst r2 = Ok (JsonStar
                    ("Email " ++ (if Email.is_starred rec
                                  then "starred" else "unstarred"))
                    (Email.is_starred rec)).
Proof.
  intros Hu Hr Hnd st1 r2. subst r2 st1.
  rewrite (Mirror.toggle_star_email_run env1 _ _ _ _ _ Hu Hr).
  cbn [snd].
  set (flipped := Email.with_is_starred (negb (Email.is_starred rec)) rec).
  assert (Hr1 : find (visible email_id user) (replace_email flipped
                                                (emails (db st)))
                = Some flipped).
  { apply (Mirror.find_replace_email _ rec); [exact Hr | reflexivity |].
    destruct (Mirror.visible_inv _ _ _ (proj2 (find_some _ _ Hr)))
      as (Hi & Hw & Hd).
    unfold visible, flipped. cbn. now rewrite Hi, Hw, Hd, !Z.eqb_refl. }
  erewrite Mirror.toggle_star_email_run; [| exact Hu | exact Hr1].
  cbn [fst snd db users emails].
  assert (Hflag : negb (Email.is_starred flipped) = Email.is_starred rec)
    by (unfold flipped; cbn; apply Bool.negb_involutive).
  assert (Hback : Email.with_is_starred (negb (Email.is_starred flipped))
                    flipped = rec)
    by (unfold flipped; cbn [Email.is_starred Email.with_is_starred];
        apply with_is_starred_back).
  rewrite Hback, Hflag. split; [|reflexivity].
  rewrite replace_email_twice by reflexivity.
  rewrite (Mirror.replace_email_same rec _ Hnd
             (proj1 (find_some _ _ Hr))).
  apply db_eta.
Qed.

Lemma toggling_twice_restores_the_tables_witness :
  db (snd (serve (toggle_star_email
                    (Samples.env_with Samples.unreachable []) 1
                    "ada@example.com")
             (snd (serve (toggle_star_email
                            (Samples.env_with Samples.working []) 1
                            "ada@example.com") Samples.st0))))
  = Samples.store.
Proof.
  apply (toggling_twice_restores_the_tables
           (Samples.env_with Samples.working [])
           (Samples.env_with Samples.unreachable []) 1 "ada@example.com"
           Samples.st0 Samples.ada (Samples.mail 1 "m1" false false false)
           eq_refl eq_refl).
  cbn. repeat constructor; cbn; intuition discriminate.
Defined.

(** Once a message has been deleted, no listing shows it any more: no
    page of any user's listing, with or without a text filter, holds a
    row with its id, whatever the store's containment test and its order
    among equal timestamps. *)
Theorem deleted_message_is_never_listed
  (email_id : Z) (email : string) (st : St) (user : User.t) (rec : Email.t)
  (ordering : Ordering) (contains : string -> string -> bool)
  (asking : string) (page per_page : Z) (query : option string)
  (resp : EmailListResponse.t) (st2 : St) :
  orders_newest_first ordering ->
  find (by_email email) (users (db st)) = Some user ->
  find (owned email_id user) (emails (db st)) = Some rec ->
  serve (get_emails ordering contains asking page per_page query)
    (snd (serve (delete_email email_id email) st))
  = (Ok resp, st2) ->
  forall r, In r (EmailListResponse.emails resp) -> Email.id r <> email_id.
Proof.
  intros Ho Hu Hr Hlist r Hin Hid.
  rewrite (Mirror.delete_email_run _ _ _ _ _ Hu Hr) in Hlist.
  cbn [snd] in Hlist.
  set (st1 := committed (Email.with_is_deleted true rec) st) in *.
  destruct (find (by_email asking) (users (db st1))) as [u|] eqn:Ha.
  - rewrite (Listing.get_emails_run ordering contains asking page per_page
               query st1 u Ha) in Hlist.
    injection Hlist as <- _. cbn [EmailListResponse.emails] in Hin.
    destruct (Listing.page_rows _ _ _ _ _ _ _ _ Ho Hin) as (Hin1 & Hsel).
    destruct (Listing.selected_inv _ _ _ _ Hsel) as (_ & Hdel & _).
    destruct (Mirror.owned_inv _ _ _ (proj2 (find_some _ _ Hr)))
      as (Hrec & _).
    assert (r = Email.with_is_deleted true rec).
    { apply (replace_email_inv _ (emails (db st))); [exact Hin1|].
      cbn. congruence. }
    subst r. cbn in Hdel. discriminate.
  - unfold serve, get_emails in Hlist. rewrite Mirror.lookup_user in Hlist.
    cbn [db] in Hlist. rewrite Ha in Hlist. discriminate.
Qed.

Lemma deleted_message_is_never_listed_witness :
  Forall (fun r => Email.id r <> 1)
    (EmailListResponse.emails
       (EmailListResponse.mk [Samples.mail 2 "m2" true true false]
          1 1 50)).
Proof.
  apply Forall_forall.
  apply (deleted_message_is_never_listed 1 "ada@example.com" Samples.st0
           Samples.ada (Samples.mail 1 "m1" false false false)
           MoreSamples.table_order MoreSamples.like_contains
           "ada@example.com" 1 50 None _
           (mkSt (mkDB [Samples.ada; Samples.bob]
                    [Samples.mail 1 "m1" false false true;
                     Samples.mail 2 "m2" true true false;
                     Samples.mail 3 "m3" true false true])
              [] 100 [Commit])
           Listing.table_order_valid eq_refl eq_refl).
  reflexivity.
Defined.

Lemma with_is_read_same rec :
  Email.is_read rec = true -> Email.with_is_read true rec = rec.
Proof. destruct rec; cbn; now intros ->. Qed.

(** Fetching a message marks it read once: a second fetch answers with
    the same record, read, and changes and commits nothing. *)
Theorem second_fetch_changes_nothing
  (email_id : Z) (email : string) (st : St) (user : User.t) (rec : Email.t) :
  find (by_email email) (users (db st)) = Some user ->
  find (visible email_id user) (emails (db st)) = Some rec ->
  let first := serve (get_email email_id email) st in
  fst first = Ok (EmailRecord (Email.with_is_read true rec))
  /\ serve (get_email email_id email) (snd first)
     = (Ok (EmailRecord (Email.with_is_read true rec)), snd first).
Proof.
  intros Hu Hr first. subst first.
  rewrite (Mirror.get_email_run _ _ _ _ _ Hu Hr).
  destruct (Email.is_read rec) eqn:Hread; cbn [fst snd].
  - rewrite (with_is_read_same rec Hread). split; [reflexivity|].
    rewrite (Mirror.get_email_run email_id email (fresh st) user rec Hu Hr).
    now rewrite Hread.
  - split; [reflexivity|].
    assert (Hr1 : find (visible email_id user)
                    (emails (db (committed (Email.with_is_read true rec) st)))
                  = Some (Email.with_is_read true rec)).
    { cbn [committed db emails].
      apply (Mirror.find_replace_email _ rec); [exact Hr | reflexivity |].
      destruct (Mirror.visible_inv _ _ _ (proj2 (find_some _ _ Hr)))
        as (Hi & Hw & Hd).
      unfold visible. cbn. now rewrite Hi, Hw, Hd, !Z.eqb_refl. }
    rewrite (Mirror.get_email_run email_id email
               (committed (Email.with_is_read true rec) st) user
               (Email.with_is_read true rec) Hu Hr1).
    reflexivity.
Qed.

Lemma second_fetch_changes_nothing_witness :
  serve (get_email 1 "ada@example.com")
    (snd (serve (get_email 1 "ada@example.com") Samples.st0))
  = (Ok (EmailRecord (Samples.mail 1 "m1" true false false)),
     snd (serve (get_email 1 "ada@example.com") Samples.st0)).
Proof.
  apply (second_fetch_changes_nothing 1 "ada@example.com" Samples.st0
           Samples.ada (Samples.mail 1 "m1" false false false)
           eq_refl eq_refl).
Defined.

End MirrorOps.

(** ** The callback as a whole *)

Module Login.
Import Database Service Routes Notions Endpoints MoreNotions.
Open Scope monad_scope.

(** [get_user_info] catches every exception: it never raises, answers
    [None] exactly when the request to the provider failed, and leaves a
    printed line behind in that case. *)
Theorem get_user_info_never_raises
  (env : Env) (access_token : string) (st : St) :
  fst (get_user_info env access_token st)
  = Ok (match userinfo env access_token with
        | Ok d => Some d
        | Raise _ => None
        end)
  /\ db (snd (get_user_info env access_token st)) = db st
  /\ forall e,
       userinfo env access_token = Raise e ->
       out (snd (get_user_info env access_token st))
       = (out st ++ [Call (ReqUserInfo access_token);
                     Print "Error getting user info: " e])%list.
Proof.
  rewrite Auth.get_user_info_run.
  destruct (userinfo env access_token) as [d|e0]; cbn.
  - repeat split. discriminate.
  - repeat split. now intros e [= <-].
Qed.

(** Every run of the [try] block: it raises with the tables untouched,
    or it has flushed one upsert and answers with a redirect. *)
Lemma callback_try_outcome env code st r st1 :
  pending st = [] ->
  callback_try env code st = (r, st1) ->
  match r with
  | Raise _ => db st1 = db st
  | Ok resp =>
      (exists url, resp = RedirectResponse url)
      /\ exists credentials info change,
           Upsert credentials info (users (db st)) change
           /\ flush (utcnow st) [change] (db st) = Ok (db st1)
  end.
Proof.
  intros Hp. unfold callback_try.
  destruct code as [code|]; [|intros [= <- <-]; reflexivity].
  destruct (nonempty code); [|intros [= <- <-]; reflexivity].
  unfold bind at 1. rewrite Auth.exchange_run.
  destruct (fetch_token env code) as [credentials|e];
    [|intros [= <- <-]; reflexivity].
  unfold bind at 1. rewrite Auth.get_user_info_run.
  destruct (userinfo env (token credentials)) as [info|e];
    [|intros [= <- <-]; reflexivity].
  destruct info as [|kv info]; [intros [= <- <-]; reflexivity|].
  cbv zeta. unfold dict_item at 1.
  destruct (dict_get (kv :: info) "email") as [email|] eqn:He;
    [|intros [= <- <-]; reflexivity].
  unfold bind at 1, lift. rewrite Mirror.lookup_user.
  rewrite Gateway.log_log. cbn [log db app].
  destruct (find (by_email email) (users (db st))) as [u|] eqn:Hu.
  - unfold bind at 1. rewrite Auth.update_existing_user_run.
    destruct (refreshed u credentials (kv :: info)) as [u'|e] eqn:R;
      [|intros [= <- <-]; reflexivity].
    unfold log. cbn [db pending utcnow out]. rewrite Hp. cbn [app].
    unfold bind at 1, commit. cbn [db pending utcnow out].
    destruct (flush (utcnow st) [DirtyUser u u'] (db st)) as [d|e] eqn:F.
    + intros [= <- <-]. split; [eexists; reflexivity|].
      exists credentials, (kv :: info), (DirtyUser u u').
      split; [|exact F]. exact (Refresh _ _ _ u u' email He Hu R).
    + intros [= <- <-]. reflexivity.
  - unfold bind at 1, create_new_user, dict_item. rewrite He.
    unfold bind at 1, lift.
    destruct (dict_get (kv :: info) "id") as [g|] eqn:Hg;
      [|intros [= <- <-]; reflexivity].
    unfold bind at 1. unfold bind at 1. unfold add_user, note, log.
    cbn [db pending utcnow out ret]. rewrite Hp. cbn [app].
    unfold bind at 1, commit. cbn [db pending utcnow out].
    match goal with
    | |- context [flush ?n [?c] ?d] =>
        destruct (flush n [c] d) as [d'|e] eqn:F
    end.
    + intros [= <- <-]. split; [eexists; reflexivity|].
      exists credentials, (kv :: info). eexists.
      split; [|exact F]. exact (Create _ _ _ email g He Hu Hg).
    + intros [= <- <-]. reflexivity.
Qed.

Lemma flush_one now c d d' :
  flush now [c] d = Ok d' -> apply_change now c d = Ok d'.
Proof.
  cbn [flush]. destruct (apply_change now c d); [now intros [= ->]|].
  discriminate.
Qed.

Lemma upsert_keeps_emails credentials info rows c now d d' :
  Upsert credentials info rows c ->
  flush now [c] d = Ok d' -> emails d' = emails d.
Proof.
  intros Hu Hf. apply flush_one in Hf.
  destruct Hu; cbn [apply_change] in Hf.
  - destruct (_ || _); [discriminate|]. now injection Hf as <-.
  - destruct (_ || _); [discriminate|]. now injection Hf as <-.
Qed.

(** What a served callback leaves behind, through the outcome of its
    [try] block. *)
Lemma callback_served env code st :
  let res := serve (callback env code) st in
  (exists d, fst res = Raise (HTTPException 400 d)
             /\ db (snd res) = db st)
  \/ (exists url, fst res = Ok (RedirectResponse url))
     /\ exists credentials info change,
          Upsert credentials info (users (db st)) change
          /\ flush (utcnow st) [change] (db st) = Ok (db (snd res)).
Proof.
  cbv zeta. unfold serve, callback, try_except.
  destruct (callback_try env code _) as [[resp|e] st1] eqn:T;
    pose proof (callback_try_outcome env code (fresh st) _ _ eq_refl T)
      as Ho; cbn [fst snd db] in *.
  - right. unfold fresh in Ho. cbn [db utcnow] in Ho.
    destruct Ho as ((url & ->) & Hrest).
    split; [now exists url|exact Hrest].
  - left. eexists. split; [reflexivity|]. exact Ho.
Qed.

(** The callback never touches the mirror, and it has two outcomes only:
    a redirect, or status 400 with the tables exactly as they were,
    whatever fails (missing code, token exchange, identity lookup,
    missing keys, a constraint at commit). *)
Theorem callback_redirects_or_answers_400
  (env : Env) (code : option string) (st : St) :
  let res := serve (callback env code) st in
  emails (db (snd res)) = emails (db st)
  /\ ((exists url, fst res = Ok (RedirectResponse url))
      \/ (exists d, fst res = Raise (HTTPException 400 d)
                    /\ db (snd res) = db st)).
Proof.
  cbv zeta.
  destruct (callback_served env code st)
    as [(d & Hr & Hd) | (Hr & credentials & info & change & Hu & Hf)].
  - split; [now rewrite Hd|]. right. exists d. auto.
  - split; [exact (upsert_keeps_emails _ _ _ _ _ _ _ Hu Hf)|].
    left. exact Hr.
Qed.

(** *** The constraints of the users table are kept *)

Lemma replace_user_ids u rows :
  map User.id (replace_user u rows) = map User.id rows.
Proof.
  induction rows as [|x xs IH]; [reflexivity|].
  cbn [replace_user map]. fold (replace_user u xs). rewrite IH.
  destruct (User.id x =? User.id u) eqn:E; [|reflexivity].
  apply Z.eqb_eq in E. now rewrite E.
Qed.

Lemma replace_user_absent u rows :
  ~ In (User.id u) (map User.id rows) -> replace_user u rows = rows.
Proof.
  induction rows as [|x xs IH]; intros Hn; [reflexivity|].
  cbn [replace_user map] in *.
  destruct (User.id x =? User.id u) eqn:E.
  - apply Z.eqb_eq in E. exfalso. apply Hn. now left.
  - f_equal. apply IH. intros Hi. apply Hn. now right.
Qed.

Lemma same_id_same_row (u r : User.t) rows :
  NoDup (map User.id rows) -> In u rows -> In r rows ->
  User.id r = User.id u -> r = u.
Proof.
  induction rows as [|x xs IH]; intros Hnd Hu Hr Hid; [contradiction|].
  cbn [map] in Hnd. inversion Hnd as [|? ? Hx Hxs]; subst.
  destruct Hu as [->|Hu], Hr as [->|Hr]; auto.
  - exfalso. apply Hx. rewrite <- Hid. apply in_map, Hr.
  - exfalso. apply Hx. rewrite Hid. apply in_map, Hu.
Qed.

Lemma replace_user_emails u u' rows :
  NoDup (map User.id rows) -> In u rows ->
  User.id u' = User.id u -> User.email u' = User.email u ->
  map User.email (replace_user u' rows) = map User.email rows.
Proof.
  intros Hnd Hu Hid He. unfold replace_user. rewrite map_map.
  apply map_ext_in. intros r Hr.
  destruct (User.id r =? User.id u') eqn:E; [|reflexivity].
  apply Z.eqb_eq in E.
  rewrite (same_id_same_row u r rows Hnd Hu Hr); congruence.
Qed.

Lemma replace_user_google_same u u' rows :
  NoDup (map User.id rows) -> In u rows ->
  User.id u' = User.id u -> User.google_id u' = User.google_id u ->
  google_ids (replace_user u' rows) = google_ids rows.
Proof.
  intros Hnd Hu Hid Hg.
  unfold google_ids, replace_user.
  rewrite !flat_map_concat_map, map_map. f_equal.
  apply map_ext_in. intros r Hr. cbv beta.
  destruct (User.id r =? User.id u') eqn:E; [|reflexivity].
  apply Z.eqb_eq in E.
  rewrite (same_id_same_row u r rows Hnd Hu Hr) by congruence.
  now rewrite Hg.
Qed.

Lemma google_id_not_taken u g rows :
  User.google_id u = Some g ->
  google_id_taken u rows = false ->
  forall r, In r rows -> User.id r <> User.id u ->
            User.google_id r <> Some g.
Proof.
  intros Hg Ht r Hin Hne Hr. unfold google_id_taken in Ht.
  assert (existsb (fun r0 => negb (User.id r0 =? User.id u)
                             && opt_eqb (User.google_id r0)
                                  (User.google_id u)) rows = true).
  { apply existsb_exists. exists r. split; [exact Hin|].
    apply Z.eqb_neq in Hne. rewrite Hne, Hr, Hg. cbn.
    apply String.eqb_refl. }
  congruence.
Qed.

Lemma google_ids_In g rows :
  In g (google_ids rows) <->
  exists r, In r rows /\ User.google_id r = Some g.
Proof.
  unfold google_ids. rewrite in_flat_map. split.
  - intros (r & Hr & Hg). exists r. split; [exact Hr|].
    destruct (User.google_id r) as [x|]; [|contradiction].
    destruct Hg as [->|[]]. reflexivity.
  - intros (r & Hr & Hg). exists r. split; [exact Hr|].
    rewrite Hg. now left.
Qed.

Lemma google_ids_replace_new u' g rows :
  NoDup (map User.id rows) -> NoDup (google_ids rows) ->
  User.google_id u' = Some g ->
  google_id_taken u' rows = false ->
  NoDup (google_ids (replace_user u' rows)).
Proof.
  intros Hnd Hgs Hg Ht.
  pose proof (google_id_not_taken u' g rows Hg Ht) as Hfree. clear Ht.
  induction rows as [|x xs IH]; [constructor|].
  cbn [map] in Hnd. inversion Hnd as [|? ? Hx Hxs]; subst.
  assert (Hgxs : NoDup (google_ids xs)).
  { unfold google_ids in *. cbn [flat_map] in Hgs.
    apply NoDup_app_remove_l in Hgs. exact Hgs. }
  cbn [replace_user map]. fold (replace_user u' xs).
  destruct (User.id x =? User.id u') eqn:E.
  - apply Z.eqb_eq in E.
    rewrite replace_user_absent by (rewrite <- E; exact Hx).
    unfold google_ids. cbn [flat_map]. rewrite Hg. cbn [app].
    constructor; [|exact Hgxs].
    fold (google_ids xs). rewrite google_ids_In.
    intros (r & Hr & Hrg).
    apply (Hfree r (or_intror Hr)); [|exact Hrg].
    intros Heq. apply Hx. rewrite E, <- Heq. apply in_map, Hr.
  - apply Z.eqb_neq in E.
    assert (IH' : NoDup (google_ids (replace_user u' xs))).
    { apply IH; auto. intros r Hr. apply Hfree. now right. }
    unfold google_ids. cbn [flat_map]. fold (google_ids (replace_user u' xs)).
    destruct (User.google_id x) as [gx|] eqn:Gx; [|exact IH'].
    cbn [app]. constructor; [|exact IH'].
    rewrite google_ids_In. intros (r & Hr & Hrg).
    unfold replace_user in Hr. apply in_map_iff in Hr.
    destruct Hr as (r0 & Hr0 & Hin0).
    destruct (User.id r0 =? User.id u') eqn:E0.
    + subst r. assert (gx = g) by congruence. subst gx.
      apply (Hfree x (or_introl eq_refl) E Gx).
    + subst r0. unfold google_ids in Hgs. cbn [flat_map] in Hgs.
      rewrite Gx in Hgs. cbn [app] in Hgs.
      inversion Hgs as [|? ? Hnotin _]; subst.
      apply Hnotin. fold (google_ids xs). rewrite google_ids_In.
      exists r. auto.
Qed.

Lemma opt_same_eq a b : opt_same a b = true -> a = b.
Proof.
  destruct a, b; cbn; try discriminate; auto.
  intros H. apply String.eqb_eq in H. now subst.
Qed.

Lemma email_not_taken u rows :
  ~ In (User.id u) (map User.id rows) ->
  email_taken u rows = false ->
  ~ In (User.email u) (map User.email rows).
Proof.
  intros Hid Ht Hin. apply in_map_iff in Hin. destruct Hin as (r & He & Hr).
  unfold email_taken in Ht.
  assert (existsb (fun r0 => negb (User.id r0 =? User.id u)
                             && String.eqb (User.email r0) (User.email u))
            rows = true).
  { apply existsb_exists. exists r. split; [exact Hr|].
    rewrite He, String.eqb_refl, andb_true_r.
    apply negb_true_iff, Z.eqb_neq. intros Heq. apply Hid.
    rewrite <- Heq. apply in_map, Hr. }
  congruence.
Qed.

Lemma next_id_fresh ids : ~ In (next_id ids) ids.
Proof. intros H. apply Sync.next_id_above in H. lia. Qed.

Lemma upsert_keeps_users_ok credentials info c now d d' :
  Upsert credentials info (users d) c ->
  flush now [c] d = Ok d' ->
  users_ok (users d) -> users_ok (users d').
Proof.
  intros Hu Hf [Hids Hemails Hgids]. apply flush_one in Hf.
  destruct Hu as [u u' email He Hfind R | email g He Hfind Hg];
    cbn [apply_change] in Hf.
  - destruct (Auth.refreshed_fields _ _ _ _ R)
      as (Fid & Fmail & _ & _ & _ & _ & _ & Fgid).
    pose proof (proj1 (find_some _ _ Hfind)) as Hin.
    rewrite Fmail, String.eqb_refl in Hf. cbn [negb andb orb] in Hf.
    destruct (opt_same (User.google_id u) (User.google_id u')) eqn:S;
      cbn [negb andb] in Hf.
    + injection Hf as <-. cbn [users]. apply opt_same_eq in S. split.
      * now rewrite replace_user_ids.
      * now rewrite (replace_user_emails u u' _ Hids Hin Fid Fmail).
      * now rewrite (replace_user_google_same u u' _ Hids Hin Fid
                       (eq_sym S)).
    + destruct (google_id_taken u' (users d)) eqn:T; [discriminate|].
      injection Hf as <-. cbn [users]. split.
      * now rewrite replace_user_ids.
      * now rewrite (replace_user_emails u u' _ Hids Hin Fid Fmail).
      * destruct (truthy (User.google_id u)).
        -- rewrite Fgid, Auth.opt_same_refl in S. discriminate.
        -- destruct Fgid as (g & _ & Hg').
           exact (google_ids_replace_new u' g _ Hids Hgids Hg' T).
  - destruct (email_taken _ (users d)) eqn:Te; [discriminate|].
    destruct (google_id_taken _ (users d)) eqn:Tg; [discriminate|].
    cbn [orb] in Hf. injection Hf as <-. cbn [users].
    set (row := with_user_id (next_id (map User.id (users d))) now _) in *.
    assert (Hfresh : ~ In (User.id row) (map User.id (users d)))
      by apply next_id_fresh.
    split.
    + rewrite map_app. apply Sync.NoDup_snoc; assumption.
    + rewrite map_app. apply Sync.NoDup_snoc; [assumption|].
      apply email_not_taken; assumption.
    + unfold google_ids. rewrite flat_map_app. cbn [flat_map app].
      fold (google_ids (users d)). apply Sync.NoDup_snoc; [assumption|].
      rewrite google_ids_In. intros (r & Hr & Hrg).
      apply (google_id_not_taken row g (users d) eq_refl Tg r Hr);
        [|exact Hrg].
      intros Heq. apply Hfresh. rewrite <- Heq. apply in_map, Hr.
Qed.

(** Whatever a callback receives and however it ends, the users table
    keeps its constraints: primary keys, emails and provider ids stay
    unique. *)
Theorem callback_keeps_users_unique
  (env : Env) (code : option string) (st : St) :
  users_ok (users (db st)) ->
  users_ok (users (db (snd (serve (callback env code) st)))).
Proof.
  intros Hok.
  destruct (callback_served env code st)
    as [(d & _ & ->) | (_ & credentials & info & change & Hu & Hf)].
  - exact Hok.
  - exact (upsert_keeps_users_ok _ _ _ _ _ _ Hu Hf Hok).
Qed.

Lemma callback_keeps_users_unique_witness :
  users_ok (users (db Samples.st0))
  /\ users_ok
       (users (db (snd (serve (callback
                                 (Samples.env_with Samples.working
                                    Samples.carol)
                                 (Some "code")) Samples.st0)))).
Proof.
  assert (H : users_ok (users (db Samples.st0))).
  { split; cbn; repeat constructor; cbn; intuition discriminate. }
  split; [exact H|].
  exact (callback_keeps_users_unique _ _ _ H).
Defined.

(** *** Signing in again *)

Lemma find_app {A} (f : A -> bool) l l' :
  find f (l ++ l')
  = match find f l with Some x => Some x | None => find f l' end.
Proof.
  induction l as [|x xs IH]; [reflexivity|].
  cbn [app find]. destruct (f x); [reflexivity | exact IH].
Qed.

Lemma replace_user_last u rows :
  ~ In (User.id u) (map User.id rows) ->
  replace_user u (rows ++ [u]) = (rows ++ [u])%list.
Proof.
  intros Hn. unfold replace_user. rewrite map_app.
  fold (replace_user u rows). rewrite (replace_user_absent u rows Hn).
  cbn [map]. now rewrite Z.eqb_refl.
Qed.

(** A sign-in that created a record, repeated with the same answers from
    the provider, is answered with the same redirect and changes no row:
    the record is found by its email, given the tokens it already has,
    and its name and provider id, empty or not, come out as they were. *)
Theorem repeated_sign_in_changes_no_row
  (env : Env) (code : string) (credentials : Credentials) (info : Dict)
  (email g : string) (st : St) :
  nonempty code = true ->
  fetch_token env code = Ok credentials ->
  userinfo env (token credentials) = Ok info ->
  dict_get info "email" = Some email ->
  dict_get info "id" = Some g ->
  find (by_email email) (users (db st)) = None ->
  (forall other, In other (users (db st)) ->
                 User.google_id other <> Some g) ->
  let first := serve (callback env (Some code)) st in
  let second := serve (callback env (Some code)) (snd first) in
  fst second = fst first
  /\ db (snd second) = db (snd first)
  /\ List.length (users (db (snd second)))
     = S (List.length (users (db st))).
Proof.
  intros Hc Hf Hi He Hg Hnone Hfree. cbv zeta.
  rewrite (Auth.callback_created_run env code credentials info email st g
             Hc Hf Hi He Hnone Hg Hfree).
  cbn [fst snd].
  set (row := User.mk (next_id (map User.id (users (db st)))) email
                (Some (dict_get_default info "name" "")) (Some g)
                (token credentials) (refresh_token credentials)
                (utcnow st) true).
  set (st1 := signed_in _ code credentials st).
  assert (Hfresh : ~ In (User.id row) (map User.id (users (db st))))
    by apply next_id_fresh.
  assert (Hfound : find (by_email email) (users (db st1)) = Some row).
  { subst st1. cbn [signed_in db users]. rewrite find_app, Hnone.
    cbn [find]. unfold by_email. cbn [User.email row].
    now rewrite String.eqb_refl. }
  assert (R : refreshed row credentials info = Ok row).
  { unfold refreshed, row.
    cbv beta iota zeta delta [with_tokens User.id User.email User.name
      User.google_id User.access_token User.refresh_token User.created_at
      User.is_active].
    destruct (truthy (Some g)); [|rewrite Hg];
      cbv beta iota zeta delta [with_google_id with_name User.id
        User.email User.name User.google_id User.access_token
        User.refresh_token User.created_at User.is_active];
      destruct (truthy (Some (dict_get_default info "name" "")));
      reflexivity. }
  rewrite (Auth.callback_existing_run env code credentials info email st1
             row row Hc Hf Hi He Hfound R
             (or_introl (Auth.opt_same_refl _))).
  cbn [fst snd]. subst st1. cbn [signed_in db users emails].
  rewrite (replace_user_last row _ Hfresh).
  split; [reflexivity|]. split; [reflexivity|].
  rewrite length_app. cbn [List.length]. lia.
Qed.

Lemma repeated_sign_in_changes_no_row_witness :
  let first := serve (callback (Samples.env_with Samples.working
                                  Samples.carol) (Some "code"))
                 Samples.st0 in
  let second := serve (callback (Samples.env_with Samples.working
                                   Samples.carol) (Some "code"))
                  (snd first) in
  fst second = fst first
  /\ db (snd second) = db (snd first)
  /\ List.length (users (db (snd second)))
     = S (List.length (users (db Samples.st0))).
Proof.
  apply (repeated_sign_in_changes_no_row
           (Samples.env_with Samples.working Samples.carol)
           "code" (mkCredentials "at-new" (Some "rt-new"))
           Samples.carol "carol@example.com" "g-3" Samples.st0);
    try reflexivity.
  intros other [<-|[<-|[]]]; cbn; discriminate.
Defined.

End Login.

(* ===================================================================== *)
(** ** What a successful sync adds                                       *)
(* ===================================================================== *)

Module SyncCount.
Import Database Service Routes Notions Endpoints MoreNotions.
Open Scope monad_scope.

Lemma list_messages_session service q n l st r st' :
  list_messages service q n l st = (r, st') ->
  db st' = db st /\ pending st' = pending st /\ utcnow st' = utcnow st.
Proof.
  unfold list_messages. rewrite Gateway.guarded_call.
  destruct (messages_list service q n _) as [x|e];
    [|destruct (is_HttpError e)];
    intros [= <- <-]; unfold log; cbn; auto.
Qed.

Lemma no_adds user (l : list Change) :
  exists cs, l = (l ++ cs)%list /\ adds_for user cs
             /\ List.length cs = 0%nat.
Proof.
  exists []. rewrite app_nil_r.
  split; [reflexivity|]. split; [apply Forall_nil | reflexivity].
Qed.

Lemma sync_message_adds env service user msg st b st' :
  sync_message env service user msg st = (Ok b, st') ->
  db st' = db st /\ utcnow st' = utcnow st
  /\ exists cs, pending st' = (pending st ++ cs)%list
                /\ adds_for user cs
                /\ List.length cs = (if b then 1 else 0)%nat.
Proof.
  rewrite Sync.sync_message_run.
  assert (Hnone : forall s evs,
             db (log s evs) = db s /\ utcnow (log s evs) = utcnow s
             /\ exists cs, pending (log s evs) = (pending s ++ cs)%list
                           /\ adds_for user cs /\ List.length cs = 0%nat).
  { intros s evs. unfold log. cbn [db utcnow pending].
    split; [reflexivity|]. split; [reflexivity|]. apply no_adds. }
  destruct (dict_get msg "id") as [id|]; [|discriminate].
  destruct (find (by_message_id id) (emails (db st))).
  { intros [= <- <-]. split; [reflexivity|]. split; [reflexivity|].
    apply no_adds. }
  destruct (messages_get service id) as [full|e].
  - destruct (message_is_empty full).
    + intros [= <- <-]. apply Hnone.
    + destruct (parse_message env full) as [p|e]; [|discriminate].
      intros [= <- <-]. cbn [db utcnow pending].
      split; [reflexivity|]. split; [reflexivity|].
      exists [AddEmail (new_email user p)].
      split; [reflexivity|]. split; [|reflexivity].
      apply Forall_cons; [now exists p | apply Forall_nil].
  - destruct (is_HttpError e); [|discriminate].
    intros [= <- <-]. apply Hnone.
Qed.

Lemma sync_loop_adds env service user msgs :
  forall n st n' st',
    sync_loop env service user msgs n st = (Ok n', st') ->
    db st' = db st /\ utcnow st' = utcnow st
    /\ exists cs, pending st' = (pending st ++ cs)%list
                  /\ adds_for user cs
                  /\ n' = (n + List.length cs)%nat.
Proof.
  induction msgs as [|msg rest IH]; intros n st n' st'; cbn [sync_loop].
  - intros [= <- <-]. split; [reflexivity|]. split; [reflexivity|].
    destruct (no_adds user (pending st)) as (cs & P & A & L).
    exists cs. rewrite L. split; [exact P|]. split; [exact A | lia].
  - unfold bind at 1.
    destruct (sync_message env service user msg st) as [[b|e] st1] eqn:S;
      [|discriminate].
    destruct (sync_message_adds _ _ _ _ _ _ _ S)
      as (D1 & C1 & cs1 & P1 & A1 & L1).
    intros Hrest.
    destruct (IH _ _ _ _ Hrest) as (D2 & C2 & cs2 & P2 & A2 & L2).
    split; [congruence|]. split; [congruence|].
    exists (cs1 ++ cs2)%list. split; [|split].
    + rewrite P2, P1. now rewrite app_assoc.
    + apply Forall_app. auto.
    + rewrite length_app, L1. subst n'. destruct b; lia.
Qed.

Lemma flush_owned user now cs :
  adds_for user cs ->
  forall d d',
    flush now cs d = Ok d' ->
    exists new,
      d' = mkDB (users d) (emails d ++ new)
      /\ List.length new = List.length cs
      /\ Forall (added_by user now) new.
Proof.
  induction 1 as [|c cs (p & ->) _ IH]; intros d d'; cbn [flush].
  - intros [= <-]. exists []. rewrite app_nil_r.
    destruct d. split; [reflexivity|]. split; [reflexivity|].
    apply Forall_nil.
  - cbn [apply_change].
    destruct (message_id_taken _ (emails d)); [discriminate|].
    intros Hf. destruct (IH _ _ Hf) as (new & -> & L & F).
    cbn [users emails].
    eexists (_ :: new). rewrite <- app_assoc. cbn [app].
    split; [reflexivity|]. split; [cbn; now rewrite L|].
    constructor; [|exact F]. repeat split.
Qed.

Lemma sync_try_ok env user st resp st1 :
  pending st = [] ->
  sync_try env user st = (Ok resp, st1) ->
  exists new,
    resp = JsonMessage ("Synced " ++ string_of_nat (List.length new)
                        ++ " new emails")
    /\ db st1 = mkDB (users (db st)) (emails (db st) ++ new)
    /\ Forall (added_by user (utcnow st)) new.
Proof.
  intros Hp. unfold sync_try, build_service, lift. unfold bind at 1.
  destruct (build env "gmail" "v1" _) as [service|e]; [|discriminate].
  unfold bind at 1.
  destruct (list_messages service "" 100 None st) as [[msgs|e] st2] eqn:L;
    [|discriminate].
  destruct (list_messages_session _ _ _ _ _ _ _ L) as (D2 & P2 & C2).
  unfold bind at 1.
  destruct (sync_loop env service user msgs 0 st2) as [[n|e] st3] eqn:S;
    [|discriminate].
  destruct (sync_loop_adds _ _ _ _ _ _ _ _ S)
    as (D3 & C3 & cs & P3 & A & N).
  rewrite P2, Hp in P3. cbn [app] in P3.
  unfold bind at 1, commit. rewrite P3, C3, C2, D3, D2.
  destruct (flush (utcnow st) cs (db st)) as [d'|e] eqn:F; [|discriminate].
  destruct (flush_owned user _ _ A _ _ F) as (new & -> & Ln & Fn).
  unfold ret. intros [= <- <-]. cbn [db].
  exists new. rewrite Ln. cbn [Nat.add] in N. subst n. auto.
Qed.

(** When a sync succeeds, the number in its answer is the number of rows
    it appended to the mirror; nothing else in the tables changes, and
    every appended row belongs to the user who asked, is not marked
    deleted and is stamped with the time of the commit. *)
Theorem sync_counts_the_rows_it_adds
  (env : Env) (email : string) (st : St) (resp : Response) :
  fst (serve (sync_emails env email) st) = Ok resp ->
  exists user new,
    find (by_email email) (users (db st)) = Some user
    /\ resp = JsonMessage ("Synced " ++ string_of_nat (List.length new)
                           ++ " new emails")
    /\ db (snd (serve (sync_emails env email) st))
       = mkDB (users (db st)) (emails (db st) ++ new)
    /\ Forall (added_by user (utcnow st)) new.
Proof.
  unfold serve.
  destruct (sync_emails env email _) as [r0 st0] eqn:E.
  cbn [fst snd db]. intros ->.
  unfold sync_emails in E. rewrite Mirror.lookup_user in E.
  cbn [db] in E.
  destruct (find (by_email email) (users (db st))) as [user|];
    [|discriminate].
  unfold try_except in E.
  destruct (sync_try env user _) as [[x|e] st1] eqn:T; [|discriminate].
  injection E as -> ->.
  destruct (sync_try_ok env user (fresh st) _ _ eq_refl T)
    as (new & -> & D & F).
  exists user, new. auto.
Qed.

Lemma sync_counts_the_rows_it_adds_witness :
  exists user new,
    find (by_email "ada@example.com") (users (db Samples.st0)) = Some user
    /\ JsonMessage "Synced 1 new emails"
       = JsonMessage ("Synced " ++ string_of_nat (List.length new)
                      ++ " new emails")
    /\ db (snd (serve (sync_emails (Samples.env_with Samples.healthy [])
                         "ada@example.com") Samples.st0))
       = mkDB (users (db Samples.st0)) (emails (db Samples.st0) ++ new)
    /\ Forall (added_by user (utcnow Samples.st0)) new.
Proof.
  apply (sync_counts_the_rows_it_adds
           (Samples.env_with Samples.healthy []) "ada@example.com"
           Samples.st0 (JsonMessage "Synced 1 new emails")).
  reflexivity.
Defined.

End SyncCount.

(* ===================================================================== *)
(** ** Syncing again                                                     *)
(* ===================================================================== *)

Module Resync.
Import Database Service Routes Notions Endpoints MoreNotions.
Open Scope monad_scope.

Lemma find_held id rows :
  In id (map Email.message_id rows) ->
  exists r, find (by_message_id id) rows = Some r.
Proof.
  intros Hin. destruct (find (by_message_id id) rows) as [r|] eqn:F.
  - now exists r.
  - exfalso. exact (Sync.find_none_not_held id rows F Hin).
Qed.

Lemma parse_message_id env full p :
  parse_message env full = Ok p -> msg_id full = Some (p_message_id p).
Proof.
  unfold parse_message. cbv zeta.
  repeat match goal with
         | |- match ?x with _ => _ end = _ -> _ => destruct x
         end;
    try discriminate.
  intros [= <-]. reflexivity.
Qed.

(** *** The second pass over a listing *)

Lemma sync_message_settled env service user msg st :
  settled service (db st) msg ->
  exists st', sync_message env service user msg st = (Ok false, st')
              /\ db st' = db st /\ pending st' = pending st
              /\ utcnow st' = utcnow st.
Proof.
  intros (id & Hid & Hs). rewrite Sync.sync_message_run, Hid.
  destruct (find (by_message_id id) (emails (db st))) eqn:F.
  { exists st. auto. }
  destruct Hs as [Hin|Hskip].
  { exfalso. exact (Sync.find_none_not_held id _ F Hin). }
  unfold skipped in Hskip.
  destruct (messages_get service id) as [full|e]; rewrite Hskip;
    eexists; (split; [reflexivity|]); unfold log; cbn; auto.
Qed.

Lemma sync_loop_settled env service user msgs :
  forall n st,
    Forall (settled service (db st)) msgs ->
    exists st', sync_loop env service user msgs n st = (Ok n, st')
                /\ db st' = db st /\ pending st' = pending st
                /\ utcnow st' = utcnow st.
Proof.
  induction msgs as [|msg rest IH]; intros n st Hall; cbn [sync_loop].
  - exists st. auto.
  - inversion Hall as [|? ? Hm Hrest]; subst.
    destruct (sync_message_settled env service user msg st Hm)
      as (st1 & E1 & D1 & P1 & C1).
    unfold bind at 1. rewrite E1.
    rewrite <- D1 in Hrest.
    destruct (IH n st1 Hrest) as (st2 & E2 & D2 & P2 & C2).
    exists st2. rewrite E2. repeat split; congruence.
Qed.

(** *** What the first pass did with each listed message *)

Lemma sync_message_handled env service user msg st b st' :
  (forall id full id', messages_get service id = Ok full ->
                       msg_id full = Some id' -> id' = id) ->
  sync_message env service user msg st = (Ok b, st') ->
  handled service (db st) (pending st') msg.
Proof.
  intros Hecho. rewrite Sync.sync_message_run. unfold handled.
  destruct (dict_get msg "id") as [id|]; [|discriminate].
  destruct (find (by_message_id id) (emails (db st))) as [r|] eqn:F.
  { intros _. exists id. split; [reflexivity|]. left.
    destruct (find_some _ _ F) as [Hin Hr]. unfold by_message_id in Hr.
    apply String.eqb_eq in Hr. unfold message_ids. rewrite <- Hr.
    apply in_map, Hin. }
  destruct (messages_get service id) as [full|e] eqn:G.
  - destruct (message_is_empty full) eqn:Em.
    + intros _. exists id. split; [reflexivity|]. right. left.
      unfold skipped. now rewrite G.
    + destruct (parse_message env full) as [p|e] eqn:P; [|discriminate].
      intros [= <- <-]. cbn [pending]. exists id. split; [reflexivity|].
      right. right. exists (new_email user p). split.
      * apply in_or_app. right. now left.
      * cbn [new_email Email.message_id].
        exact (Hecho id full _ G (parse_message_id _ _ _ P)).
  - destruct (is_HttpError e) eqn:H; [|discriminate].
    intros _. exists id. split; [reflexivity|]. right. left.
    unfold skipped. now rewrite G.
Qed.

Lemma handled_later service d cs cs' msg :
  handled service d cs msg -> handled service d (cs ++ cs') msg.
Proof.
  intros (id & Hid & [H|[H|(e & Hin & He)]]); exists id;
    (split; [exact Hid|]); auto.
  right. right. exists e. split; [|exact He]. apply in_or_app. now left.
Qed.

Lemma sync_loop_handled env service user msgs :
  (forall id full id', messages_get service id = Ok full ->
                       msg_id full = Some id' -> id' = id) ->
  forall n st n' st',
    sync_loop env service user msgs n st = (Ok n', st') ->
    Forall (handled service (db st) (pending st')) msgs.
Proof.
  intros Hecho.
  induction msgs as [|msg rest IH]; intros n st n' st'; cbn [sync_loop].
  - intros _. constructor.
  - unfold bind at 1.
    destruct (sync_message env service user msg st) as [[b|e] st1] eqn:S;
      [|discriminate].
    intros Hrest.
    pose proof (sync_message_handled _ _ _ _ _ _ _ Hecho S) as H1.
    destruct (SyncCount.sync_message_adds _ _ _ _ _ _ _ S) as (D1 & _).
    destruct (SyncCount.sync_loop_adds _ _ _ _ _ _ _ _ Hrest)
      as (_ & _ & cs & P & _).
    constructor.
    + rewrite P. apply handled_later, H1.
    + rewrite <- D1. exact (IH _ _ _ _ Hrest).
Qed.

Lemma flush_holds user now cs :
  adds_for user cs ->
  forall d d',
    flush now cs d = Ok d' ->
    forall e, In (AddEmail e) cs ->
              In (Email.message_id e) (message_ids d').
Proof.
  induction 1 as [|c cs (p & ->) Hcs IH]; intros d d' Hf e Hin;
    [contradiction|].
  cbn [flush apply_change] in Hf.
  destruct (message_id_taken _ (emails d)); [discriminate|].
  destruct Hin as [[= <-]|Hin].
  - destruct (SyncCount.flush_owned user now cs Hcs _ _ Hf)
      as (new & -> & _). unfold message_ids. cbn [emails].
    rewrite !map_app. apply in_or_app. left. apply in_or_app. right.
    now left.
  - exact (IH _ _ Hf e Hin).
Qed.

Lemma handled_settled user now service cs d d' msg :
  adds_for user cs -> flush now cs d = Ok d' ->
  handled service d cs msg -> settled service d' msg.
Proof.
  intros A F (id & Hid & H). exists id. split; [exact Hid|].
  destruct H as [H|[H|(e & Hin & <-)]].
  - left. destruct (SyncCount.flush_owned user now cs A _ _ F)
      as (new & -> & _). unfold message_ids in *. cbn [emails].
    rewrite map_app. apply in_or_app. now left.
  - now right.
  - left. exact (flush_holds user now cs A _ _ F e Hin).
Qed.

(** *** The two runs of the [try] block *)

Lemma list_messages_again service q n l st st2 msgs :
  list_messages service q n l st = (Ok msgs, st2) ->
  forall s, exists s',
    list_messages service q n l s = (Ok msgs, s')
    /\ db s' = db s /\ pending s' = pending s /\ utcnow s' = utcnow s.
Proof.
  unfold list_messages. rewrite Gateway.guarded_call. intros H s.
  rewrite Gateway.guarded_call.
  destruct (messages_list service q n _) as [x|e];
    [|destruct (is_HttpError e)]; try discriminate;
    injection H as <- _; eexists; (split; [reflexivity|]);
    unfold log; cbn; auto.
Qed.

Lemma sync_try_first env user st resp st1 :
  echoes_ids env ->
  pending st = [] ->
  sync_try env user st = (Ok resp, st1) ->
  users (db st1) = users (db st)
  /\ exists service msgs,
       build env "gmail" "v1"
         (mkCredentials (User.access_token user) (User.refresh_token user))
       = Ok service
       /\ (forall s, exists s',
              list_messages service "" 100 None s = (Ok msgs, s')
              /\ db s' = db s /\ pending s' = pending s
              /\ utcnow s' = utcnow s)
       /\ Forall (settled service (db st1)) msgs.
Proof.
  intros Hecho Hp. unfold sync_try, build_service, lift. unfold bind at 1.
  destruct (build env "gmail" "v1" _) as [service|e] eqn:B; [|discriminate].
  unfold bind at 1.
  destruct (list_messages service "" 100 None st) as [[msgs|e] st2] eqn:L;
    [|discriminate].
  destruct (SyncCount.list_messages_session _ _ _ _ _ _ _ L)
    as (D2 & P2 & C2).
  unfold bind at 1.
  destruct (sync_loop env service user msgs 0 st2) as [[n|e] st3] eqn:S;
    [|discriminate].
  destruct (SyncCount.sync_loop_adds _ _ _ _ _ _ _ _ S)
    as (D3 & C3 & cs & P3 & A & N).
  pose proof (sync_loop_handled env service user msgs
                (fun id full id' => Hecho _ _ _ service id full id' B)
                _ _ _ _ S) as Hh.
  rewrite P2, Hp in P3. cbn [app] in P3. rewrite P3, D2 in Hh.
  unfold bind at 1, commit. rewrite P3, C3, C2, D3, D2.
  destruct (flush (utcnow st) cs (db st)) as [d'|e] eqn:F; [|discriminate].
  unfold ret. intros [= _ <-]. cbn [db].
  destruct (SyncCount.flush_owned user _ _ A _ _ F) as (new & Hd & _).
  split; [now rewrite Hd|].
  exists service, msgs. split; [reflexivity|].
  split; [exact (list_messages_again _ _ _ _ _ _ _ L)|].
  eapply Forall_impl; [|exact Hh].
  intros msg. exact (handled_settled user _ service cs _ _ msg A F).
Qed.

Lemma sync_try_second env user service msgs st :
  build env "gmail" "v1"
    (mkCredentials (User.access_token user) (User.refresh_token user))
  = Ok service ->
  (forall s, exists s',
     list_messages service "" 100 None s = (Ok msgs, s')
     /\ db s' = db s /\ pending s' = pending s /\ utcnow s' = utcnow s) ->
  Forall (settled service (db st)) msgs ->
  pending st = [] ->
  exists st', sync_try env user st
              = (Ok (JsonMessage "Synced 0 new emails"), st')
              /\ db st' = db st.
Proof.
  intros B L Hall Hp. unfold sync_try, build_service, lift.
  unfold bind at 1. rewrite B. unfold bind at 1.
  destruct (L st) as (st2 & -> & D2 & P2 & C2).
  rewrite <- D2 in Hall.
  destruct (sync_loop_settled env service user msgs 0%nat st2 Hall)
    as (st3 & E3 & D3 & P3 & C3).
  unfold bind at 1. rewrite E3.
  unfold bind at 1, commit. rewrite P3, P2, Hp. cbn [flush].
  unfold ret. eexists. split; [reflexivity|]. cbn [db]. congruence.
Qed.

(** When the provider echoes the ids it is asked for, a sync that
    succeeded, run again against the same provider answers, reports no
    new message and leaves the tables as the first run left them. *)
Theorem second_sync_adds_nothing
  (env : Env) (email : string) (st : St) (resp : Response) :
  echoes_ids env ->
  fst (serve (sync_emails env email) st) = Ok resp ->
  let st1 := snd (serve (sync_emails env email) st) in
  fst (serve (sync_emails env email) st1)
  = Ok (JsonMessage "Synced 0 new emails")
  /\ db (snd (serve (sync_emails env email) st1)) = db st1.
Proof.
  intros Hecho. unfold serve at 1 2.
  destruct (sync_emails env email (mkSt (db st) [] (utcnow st) (out st)))
    as [r0 s1] eqn:E.
  cbn [fst snd]. intros ->. cbv zeta.
  unfold sync_emails in E. rewrite Mirror.lookup_user in E.
  cbn [db] in E.
  destruct (find (by_email email) (users (db st))) as [user|] eqn:U;
    [|discriminate].
  unfold try_except in E.
  destruct (sync_try env user _) as [[x|e] s2] eqn:T; [|discriminate].
  injection E as -> ->.
  destruct (sync_try_first env user
              (mkSt (db st) [] (utcnow st) (out st)) _ _ Hecho eq_refl T)
    as (Hu & service & msgs & B & L & Hall).
  cbn [db] in Hu.
  unfold serve, sync_emails. rewrite Mirror.lookup_user. cbn [db].
  rewrite Hu, U. unfold try_except. cbn [utcnow out].
  destruct (sync_try_second env user service msgs
              (mkSt (db s1) [] (utcnow s1) (out s1)) B L Hall eq_refl)
    as (s3 & -> & D3).
  cbn [fst snd db] in *. split; [reflexivity | exact D3].
Qed.

Lemma second_sync_adds_nothing_witness :
  let st1 := snd (serve (sync_emails (Samples.env_with Samples.healthy [])
                           "ada@example.com") Samples.st0) in
  fst (serve (sync_emails (Samples.env_with Samples.healthy [])
                "ada@example.com") st1)
  = Ok (JsonMessage "Synced 0 new emails")
  /\ db (snd (serve (sync_emails (Samples.env_with Samples.healthy [])
                       "ada@example.com") st1)) = db st1.
Proof.
  apply (second_sync_adds_nothing
           (Samples.env_with Samples.healthy []) "ada@example.com"
           Samples.st0 (JsonMessage "Synced 1 new emails")).
  - intros name version credentials service id full id' B G.
    injection B as <-. cbn in G. injection G as <-. cbn.
    now intros [= <-].
  - reflexivity.
Defined.

End Resync.

(* ===================================================================== *)
(** ** The exception handlers against the conversion utilities           *)
(* ===================================================================== *)

Module ErrorAnswers.
Import Exception ExceptionHandling Handlers.

(** A provider error answered by its own handler, and the same error
    first converted by [handle_google_api_error] and then answered by the
    handler of the taxonomy, get the same HTTP status exactly when the
    provider's status is not 404: at 404 the handler answers 404 and the
    converted error 500.  Either answer repeats its HTTP status in its
    body. *)
Theorem provider_error_answers_agree_except_at_404
  (utcnow_iso request_id original operation : string) (exc : HttpErr) :
  let direct :=
    google_api_exception_handler utcnow_iso request_id original exc in
  let converted :=
    api_exception_handler utcnow_iso request_id
      (handle_google_api_error exc operation) in
  (http_status converted = http_status direct <-> resp_status exc <> 404)
  /\ (resp_status exc = 404 ->
      http_status direct = 404 /\ http_status converted = 500)
  /\ e_status_code (body direct) = http_status direct
  /\ e_status_code (body converted) = http_status converted.
Proof.
  cbv zeta.
  unfold google_api_exception_handler, api_exception_handler,
    handle_google_api_error.
  destruct (resp_status exc =? 401) eqn:E1;
    [apply Z.eqb_eq in E1; cbn; repeat split; intros; lia|].
  destruct (resp_status exc =? 403) eqn:E3;
    [apply Z.eqb_eq in E3; cbn; repeat split; intros; lia|].
  destruct (resp_status exc =? 429) eqn:E9;
    [apply Z.eqb_eq in E9; cbn; repeat split; intros; lia|].
  destruct (resp_status exc =? 404) eqn:E4.
  - apply Z.eqb_eq in E4. cbn. repeat split; intros; lia.
  - apply Z.eqb_neq in E4. cbn. repeat split; intros; lia.
Qed.

(** A [requests] failure gets the same HTTP status from its handler and
    from conversion followed by the handler of the taxonomy exactly when
    it is a timeout or a connection error (504 and 503); any other
    failure is answered 500 by the handler and 503 after conversion. *)
Theorem request_error_answers_agree_on_timeouts_and_connections
  (utcnow_iso request_id service_name : string) (exc : RequestException) :
  let direct := request_exception_handler utcnow_iso request_id exc in
  let converted :=
    api_exception_handler utcnow_iso request_id
      (handle_request_error exc service_name) in
  (http_status converted = http_status direct
   <-> isinstance_Timeout (req_class exc)
       || isinstance_ConnectionError (req_class exc) = true)
  /\ (isinstance_Timeout (req_class exc)
      || isinstance_ConnectionError (req_class exc) = false ->
      http_status direct = 500 /\ http_status converted = 503)
  /\ e_status_code (body direct) = http_status direct
  /\ e_status_code (body converted) = http_status converted.
Proof.
  cbv zeta.
  unfold request_exception_handler, api_exception_handler,
    handle_request_error.
  destruct (isinstance_Timeout (req_class exc));
    [cbn; repeat split; intros; (reflexivity || discriminate)|].
  destruct (isinstance_ConnectionError (req_class exc));
    cbn; repeat split; intros; try reflexivity; discriminate.
Qed.

End ErrorAnswers.
